(** * NeuroAudioWizard: the frequency-to-audio pipeline of
    [server/audio_processor.py]

    A shallow embedding of [NeuroAudioGenerator] (the THz-to-Hz mapper, the
    tone synthesizer with its band clamp, the mix loop, the exporter) and of
    the statistics [main] reports, followed by the properties proved of them.

    Python floats are binary64 numbers: the kernel's primitive [float].
    Python ints are [Z].  Exceptions are values of [exn] carried by [result].
    The third-party calls (numpy, pydub, the C library's [sin], the MP3
    encoder, the file system) are modelled next to the code that calls them,
    each with a note of what it stands for.

    The development also covers the loader of the THz column, the company
    name and the paths of [main], the log of the mix loop, and from
    [server/pdf_generator.py] the text filter and the sample of the first
    entries of the report. *)

From Stdlib Require Import Ascii String ZArith List Bool Lia Permutation.
From Stdlib Require Import Floats Uint63 DecimalString.
Import ListNotations.

(** * The embedding *)

(** ** Exceptions and results *)

(** The exception classes that occur.  All but [SystemExit] derive from
    Python's [Exception]. *)
Inductive exn : Type :=
| ValueError
| TypeError
| OverflowError
| ZeroDivisionError
| RuntimeError
| OSError
| AudioopError
| SystemExit.

Definition is_Exception (e : exn) : bool :=
  match e with
  | SystemExit => false
  | _ => true
  end.

Inductive result (A : Type) : Type :=
| OK (a : A)
| Raise (e : exn).

Arguments OK {A} a.
Arguments Raise {A} e.

Definition bind {A B : Type} (c : result A) (k : A -> result B) : result B :=
  match c with
  | OK a => k a
  | Raise e => Raise e
  end.

Declare Scope py_scope.
Delimit Scope py_scope with py.
Notation "x <- c ;; k" := (bind c (fun x => k))
  (at level 61, c at next level, right associativity) : py_scope.
Open Scope py_scope.

(** [try: body / except Exception as e: handler e]. *)
Definition try_except {A : Type} (body : result A) (handler : exn -> result A)
  : result A :=
  match body with
  | OK a => OK a
  | Raise e => if is_Exception e then handler e else Raise e
  end.

(** ** Python numbers *)

Inductive pyval : Type :=
| PyFloat (f : float)
| PyInt (z : Z)
| PyBool (b : bool)
| PyStr (s : string)
| PyNone.

(** [isinstance(v, (int, float))]; [bool] is a subclass of [int]. *)
Definition isinstance_int_float (v : pyval) : bool :=
  match v with
  | PyFloat _ | PyInt _ | PyBool _ => true
  | PyStr _ | PyNone => false
  end.

Module Num.

(** How a value takes part in arithmetic: as an integer or as a double. *)
Inductive view : Type :=
| I (z : Z)
| F (f : float).

Definition of_pyval (v : pyval) : option view :=
  match v with
  | PyFloat f => Some (F f)
  | PyInt z => Some (I z)
  | PyBool b => Some (I (if b then 1 else 0)%Z)
  | PyStr _ | PyNone => None
  end.

(** The double nearest to an integer (ties to even); infinite when the
    integer is beyond the largest double. *)
Definition Z2F (z : Z) : float :=
  SF2Prim (binary_normalize prec emax z 0 false).

(** [float(z)]: an integer that would round beyond the largest double
    is an [OverflowError]. *)
Definition float_of_int (z : Z) : result float :=
  if (Z.abs z <? 2 ^ 1024 - 2 ^ 970)%Z then OK (Z2F z)
  else Raise OverflowError.

Definition signed (s : bool) (m : positive) : Z :=
  if s then Zneg m else Zpos m.

(** [int(x)] for a double: truncation toward zero. *)
Definition int_of_float (x : float) : result Z :=
  match Prim2SF x with
  | S754_nan => Raise ValueError
  | S754_infinity _ => Raise OverflowError
  | S754_zero _ => OK 0%Z
  | S754_finite s m e =>
      let a := match e with
               | Zneg p => Z.shiftr (Zpos m) (Zpos p)
               | _ => Z.shiftl (Zpos m) e
               end in
      OK (if s then Z.opp a else a)
  end.

(** [round(x)] for a double: the nearest integer, ties to even. *)
Definition round_half_even (x : float) : result Z :=
  match Prim2SF x with
  | S754_nan => Raise ValueError
  | S754_infinity _ => Raise OverflowError
  | S754_zero _ => OK 0%Z
  | S754_finite s m e =>
      let a := match e with
               | Zneg p =>
                   let q := Z.shiftr (Zpos m) (Zpos p) in
                   let r := (Zpos m - Z.shiftl q (Zpos p))%Z in
                   let half := Z.shiftl 1 (Zpos p - 1) in
                   match (r ?= half)%Z with
                   | Lt => q
                   | Gt => (q + 1)%Z
                   | Eq => if Z.even q then q else (q + 1)%Z
                   end
               | _ => Z.shiftl (Zpos m) e
               end in
      OK (if s then Z.opp a else a)
  end.

(** Exact comparison of an integer with a double, as CPython does it. *)
Definition Z_lt_float (z : Z) (f : float) : bool :=
  match Prim2SF f with
  | S754_nan => false
  | S754_infinity s => negb s
  | S754_zero _ => (z <? 0)%Z
  | S754_finite s m e =>
      match e with
      | Zneg p => (Z.shiftl z (Zpos p) <? signed s m)%Z
      | _ => (z <? Z.shiftl (signed s m) e)%Z
      end
  end.

Definition float_lt_Z (f : float) (z : Z) : bool :=
  match Prim2SF f with
  | S754_nan => false
  | S754_infinity s => s
  | S754_zero _ => (0 <? z)%Z
  | S754_finite s m e =>
      match e with
      | Zneg p => (signed s m <? Z.shiftl z (Zpos p))%Z
      | _ => (Z.shiftl (signed s m) e <? z)%Z
      end
  end.

Definition lt (a b : view) : bool :=
  match a, b with
  | I x, I y => (x <? y)%Z
  | F x, F y => (x <? y)%float
  | I x, F y => Z_lt_float x y
  | F x, I y => float_lt_Z x y
  end.

Definition le (a b : view) : bool :=
  match a, b with
  | I x, I y => (x <=? y)%Z
  | F x, F y => (x <=? y)%float
  | I x, F y => negb (float_lt_Z y x) && negb (is_nan y)
  | F x, I y => negb (Z_lt_float y x) && negb (is_nan x)
  end.

Definition as_float (a : view) : result float :=
  match a with
  | I z => float_of_int z
  | F f => OK f
  end.

Definition mul (a b : view) : result view :=
  match a, b with
  | I x, I y => OK (I (x * y))
  | _, _ => x <- as_float a ;; y <- as_float b ;; OK (F (x * y))
  end.

Definition is_zero (a : view) : bool :=
  match a with
  | I z => (z =? 0)%Z
  | F f => (f =? 0)%float
  end.

(** True division [a / b].  Two integers are divided as doubles, which is
    the correctly rounded quotient whenever both are below 2^53. *)
Definition truediv (a b : view) : result float :=
  if is_zero b then Raise ZeroDivisionError
  else x <- as_float a ;; y <- as_float b ;; OK (x / y)%float.

Definition to_pyval (a : view) : pyval :=
  match a with
  | I z => PyInt z
  | F f => PyFloat f
  end.

End Num.

(** [a < b]; comparing a number with a string or [None] is a [TypeError]. *)
Definition py_lt (a b : pyval) : result bool :=
  match Num.of_pyval a, Num.of_pyval b with
  | Some x, Some y => OK (Num.lt x y)
  | _, _ => Raise TypeError
  end.

(** [b > a] asks the same question as [a < b]: between an int and a float
    CPython answers both through the float's exact comparison. *)
Definition py_gt (b a : pyval) : result bool := py_lt a b.

(** [max(a, b)]: the first argument unless the second is greater. *)
Definition py_max (a b : pyval) : result pyval :=
  c <- py_gt b a ;; OK (if c then b else a).

(** [min(a, b)]: the first argument unless the second is smaller. *)
Definition py_min (a b : pyval) : result pyval :=
  c <- py_lt b a ;; OK (if c then b else a).

Definition py_mul (a b : pyval) : result pyval :=
  match Num.of_pyval a, Num.of_pyval b with
  | Some x, Some y => r <- Num.mul x y ;; OK (Num.to_pyval r)
  | _, _ => Raise TypeError
  end.

Definition py_truediv (a b : pyval) : result float :=
  match Num.of_pyval a, Num.of_pyval b with
  | Some x, Some y => Num.truediv x y
  | _, _ => Raise TypeError
  end.

(** [a == b] between numbers: by value, exactly between an int and a
    double; a NaN equals nothing, itself included. *)
Definition num_eq (a b : Num.view) : bool :=
  match a, b with
  | Num.I x, Num.I y => (x =? y)%Z
  | Num.F x, Num.F y => (x =? y)%float
  | Num.I x, Num.F y =>
      negb (Num.Z_lt_float x y) && negb (Num.float_lt_Z y x) && negb (is_nan y)
  | Num.F x, Num.I y =>
      negb (Num.Z_lt_float y x) && negb (Num.float_lt_Z x y) && negb (is_nan x)
  end.

(** [a == b]: numbers as above, text with text, [None] with [None]; values
    of different kinds are not equal. *)
Definition py_eq (a b : pyval) : bool :=
  match Num.of_pyval a, Num.of_pyval b with
  | Some x, Some y => num_eq x y
  | _, _ =>
      match a, b with
      | PyStr s, PyStr t => String.eqb s t
      | PyNone, PyNone => true
      | _, _ => false
      end
  end.

(** ** Configuration *)

Module Config.
Definition TOTAL_DURATION_SECONDS : Z := 30.
Definition DEFAULT_VOLUME : Z := -10.
Definition MIN_FREQUENCY_HZ : Z := 18000.
Definition MAX_FREQUENCY_HZ : Z := 22000.
Definition SAMPLE_RATE : Z := 44100.
End Config.

(** ** numpy *)

(** [np.isnan(v)].  A Python int becomes a 64-bit array scalar when it fits
    (signed or unsigned) and an object otherwise, for which [isnan] has no
    loop and raises [TypeError]; so do strings and [None]. *)
Definition np_isnan (v : pyval) : result bool :=
  match v with
  | PyFloat f => OK (is_nan f)
  | PyInt z =>
      if ((- 2 ^ 63 <=? z) && (z <? 2 ^ 64))%Z then OK false
      else Raise TypeError
  | PyBool _ => OK false
  | PyStr _ | PyNone => Raise TypeError
  end.

(** ** The frequency mapper *)

(** [NeuroAudioGenerator.thz_to_hz]:
    [if not isinstance(thz, (int, float)) or np.isnan(thz): raise ValueError]
    then [return thz * 1e12]. *)
Definition thz_to_hz (thz : pyval) : result pyval :=
  invalid <- (if negb (isinstance_int_float thz) then OK true
              else np_isnan thz) ;;
  if invalid : bool then Raise ValueError
  else py_mul thz (PyFloat 1e12).

(** The clamp of [generate_tone]:
    [min(max(frequency_hz, MIN_FREQUENCY_HZ), MAX_FREQUENCY_HZ)]. *)
Definition clamp (frequency_hz : pyval) : result pyval :=
  m <- py_max frequency_hz (PyInt Config.MIN_FREQUENCY_HZ) ;;
  py_min m (PyInt Config.MAX_FREQUENCY_HZ).


(** ** pydub: audio segments *)

(** A mono segment of 16-bit samples.  [samples] is the PCM data, one signed
    integer per frame. *)
Record AudioSegment : Type := {
  samples : list Z;
  frame_rate : Z;
  sample_width : Z;
  channels : Z
}.

Definition frame_count (seg : AudioSegment) : Z :=
  Z.of_nat (length (samples seg)).

(** [int(frame_rate * (duration / 1000.0))], the number of frames that both
    [AudioSegment.silent] and [SignalGenerator.to_audio_segment] compute for
    a duration in milliseconds. *)
Definition frames_in (frame_rate duration : Z) : result Z :=
  secs <- Num.truediv (Num.I duration) (Num.F 1000) ;;
  n <- Num.mul (Num.I frame_rate) (Num.F secs) ;;
  f <- Num.as_float n ;;
  Num.int_of_float f.

(** [AudioSegment.silent(duration, frame_rate)]. *)
Definition silent (duration frame_rate : Z) : result AudioSegment :=
  frames <- frames_in frame_rate duration ;;
  OK {| samples := repeat 0%Z (Z.to_nat frames);
        frame_rate := frame_rate;
        sample_width := 2;
        channels := 1 |}.

(** [len(seg)]: the duration in milliseconds,
    [round(1000 * (self.frame_count() / self.frame_rate))]. *)
Definition len_ms (seg : AudioSegment) : result Z :=
  secs <- Num.truediv (Num.I (frame_count seg)) (Num.I (frame_rate seg)) ;;
  ms <- Num.mul (Num.I 1000) (Num.F secs) ;;
  f <- Num.as_float ms ;;
  Num.round_half_even f.

(** [audioop.add] on 16-bit fragments: the sum of each pair of samples,
    truncated to the 16-bit range when it overflows. *)
Definition saturate16 (v : Z) : Z :=
  if (v >? 32767)%Z then 32767%Z
  else if (v <? -32768)%Z then (-32768)%Z
  else v.

Fixpoint add_samples (a b : list Z) : list Z :=
  match a, b with
  | x :: a', y :: b' => saturate16 (x + y) :: add_samples a' b'
  | _, _ => []
  end.

Definition audioop_add (a b : list Z) : result (list Z) :=
  if Nat.eqb (length a) (length b) then OK (add_samples a b)
  else Raise AudioopError.

Definition spawn (seg : AudioSegment) (data : list Z) : AudioSegment :=
  {| samples := data;
     frame_rate := frame_rate seg;
     sample_width := sample_width seg;
     channels := channels seg |}.

(** [seg1.overlay(seg2)] with the default [position=0], [times=1], for two
    segments of one format (mono, 16-bit, same frame rate), which [_sync]
    leaves as they are: [seg2] is cut to what remains of [seg1], added to
    the start of [seg1], and the rest of [seg1] follows. *)
Definition overlay (seg1 seg2 : AudioSegment) : result AudioSegment :=
  let d1 := samples seg1 in
  let remaining := length d1 in
  let d2 := if Nat.leb remaining (length (samples seg2))
            then firstn remaining (samples seg2)
            else samples seg2 in
  let seg2_len := length d2 in
  mixed <- audioop_add (firstn seg2_len d1) d2 ;;
  OK (spawn seg1 (mixed ++ skipn seg2_len d1)).

(** ** pydub: the sine generator *)

Definition math_pi : float := 0x1.921fb54442d18p+1.

(** [db_to_float(-10)], that is [10 ** (-10 / 20)], as CPython computes it. *)
Definition db_to_float_DEFAULT_VOLUME : float := 0x1.43d136248490fp-2.

(** An item stored in [array.array('h', ...)] must be a signed 16-bit int. *)
Definition array_h_item (v : Z) : result Z :=
  if ((-32768 <=? v) && (v <=? 32767))%Z then OK v
  else Raise OverflowError.

Section Synthesizer.

(** The C library's [sin] on doubles. *)
Variable libm_sin : float -> float.

(** [math.sin(x)]: a domain error at the infinities. *)
Definition math_sin (x : float) : result float :=
  if is_infinity x then Raise ValueError else OK (libm_sin x).

(** [Sine.generate]: [sine_of = (self.freq * 2 * math.pi) / self.sample_rate]. *)
Definition Sine_sine_of (freq : pyval) (sample_rate : Z) : result float :=
  a <- py_mul freq (PyInt 2) ;;
  b <- py_mul a (PyFloat math_pi) ;;
  py_truediv b (PyInt sample_rate).

(** One item of [sample_data]: [int(val * maxval * gain)] for
    [val = math.sin(sine_of * sample_n)], with [maxval = 32767]. *)
Definition Sine_sample (sine_of gain : float) (sample_n : int) : result Z :=
  val <- math_sin (sine_of * of_uint63 sample_n) ;;
  s <- Num.int_of_float (val * 32767 * gain) ;;
  array_h_item s.

(** The first [k] items drawn from the generator, starting at [sample_n]
    (a counter that stays far below 2^63); the first failing item ends
    the run. *)
Fixpoint Sine_samples (sine_of gain : float) (k : nat) (sample_n : int)
  : result (list Z) :=
  match k with
  | O => OK []
  | S k' =>
      s <- Sine_sample sine_of gain sample_n ;;
      rest <- Sine_samples sine_of gain k' (sample_n + 1)%uint63 ;;
      OK (s :: rest)
  end.

(** [Sine(freq, sample_rate=...).to_audio_segment(duration, volume)], the
    volume entering as its linear gain.  With no sample to draw, the
    generator body never runs. *)
Definition to_audio_segment (freq : pyval) (sample_rate duration : Z)
    (gain : float) : result AudioSegment :=
  sample_count <- frames_in sample_rate duration ;;
  data <- match Z.to_nat sample_count with
          | O => OK []
          | k =>
              sine_of <- Sine_sine_of freq sample_rate ;;
              Sine_samples sine_of gain k 0%uint63
          end ;;
  OK {| samples := data;
        frame_rate := sample_rate;
        sample_width := 2;
        channels := 1 |}.

(** ** The generator *)

Record NeuroAudioGenerator : Type := { audio_segment : AudioSegment }.

(** [NeuroAudioGenerator.__init__]. *)
Definition init : result NeuroAudioGenerator :=
  seg <- silent (Config.TOTAL_DURATION_SECONDS * 1000) Config.SAMPLE_RATE ;;
  OK {| audio_segment := seg |}.

(** [generate_tone]: clamp, synthesize; an exception is logged and raised
    again. *)
Definition generate_tone (frequency_hz : pyval) (duration_ms : Z)
  : result AudioSegment :=
  try_except
    (freq <- clamp frequency_hz ;;
     to_audio_segment freq Config.SAMPLE_RATE duration_ms
       db_to_float_DEFAULT_VOLUME)
    (fun e => Raise e).

(** The body of the loop of [add_frequencies] for one item. *)
Definition add_one (self : NeuroAudioGenerator) (thz : pyval)
  : result NeuroAudioGenerator :=
  hz <- thz_to_hz thz ;;
  tone <- generate_tone hz (Config.TOTAL_DURATION_SECONDS * 1000) ;;
  seg <- overlay (audio_segment self) tone ;;
  OK {| audio_segment := seg |}.

(** [add_frequencies]: each item in a [try] whose [except Exception]
    logs a warning and continues.  The progress lines it logs are left
    out. *)
Fixpoint add_frequencies (self : NeuroAudioGenerator)
    (frequencies_thz : list pyval) : result NeuroAudioGenerator :=
  match frequencies_thz with
  | [] => OK self
  | thz :: rest =>
      self' <- try_except (add_one self thz) (fun _ => OK self) ;;
      add_frequencies self' rest
  end.

End Synthesizer.

(** ** [main]: the company name and the paths *)

(** [s.split(sep)] for a separator of one character: the pieces between
    the occurrences of [sep], of which there is always at least one. *)
Fixpoint str_split (sep : ascii) (s : string) : list string :=
  match s with
  | EmptyString => [EmptyString]
  | String c s' =>
      if Ascii.eqb c sep then EmptyString :: str_split sep s'
      else match str_split sep s' with
           | piece :: pieces => String c piece :: pieces
           | [] => [String c EmptyString]
           end
  end.

(** [s.startswith(c)] and [s.endswith(c)] for one character. *)
Definition str_startswith (c : ascii) (s : string) : bool :=
  match s with
  | String a _ => Ascii.eqb a c
  | EmptyString => false
  end.

Fixpoint str_endswith (c : ascii) (s : string) : bool :=
  match s with
  | EmptyString => false
  | String a EmptyString => Ascii.eqb a c
  | String _ s' => str_endswith c s'
  end.

(** The company name [main] reads off the name of the uploaded file:
    [company_match = original_name.split('_')], then
    [company_match[-1].split('.')[0] if len(company_match) > 2 else 'Unknown']. *)
Definition company_name_of (original_name : string) : string :=
  let company_match := str_split "_" original_name in
  if (2 <? length company_match)%nat
  then hd EmptyString (str_split "." (last company_match EmptyString))
  else "Unknown"%string.

(** [os.path.join(a, b)] of [posixpath]: an absolute [b] replaces [a], and
    a slash is put between the two unless [a] is empty or ends with one. *)
Definition os_path_join (a b : string) : string :=
  if str_startswith "/" b then b
  else if String.eqb a EmptyString || str_endswith "/" a then (a ++ b)%string
  else (a ++ "/" ++ b)%string.

(** [f"NeuroAudio_{company_name}_{aroma_id}.mp3"] and
    [f"Report_{company_name}_{aroma_id}.pdf"]. *)
Definition audio_filename_of (company aroma : string) : string :=
  ("NeuroAudio_" ++ company ++ "_" ++ aroma ++ ".mp3")%string.

Definition pdf_filename_of (company aroma : string) : string :=
  ("Report_" ++ company ++ "_" ++ aroma ++ ".pdf")%string.

(** ** The file system, the encoder and the report renderer *)

(** The files that exist, each with its size in bytes. *)
Definition file_system : Type := string -> option Z.

Definition write_file (fs : file_system) (p : string) (size : Z) : file_system :=
  fun q => if String.eqb q p then Some size else fs q.

(** Code that reads and changes the file system and may raise; the changes
    made before an exception stay. *)
Definition io (A : Type) : Type := file_system -> result A * file_system.

Definition io_ret {A : Type} (a : A) : io A := fun fs => (OK a, fs).

Definition io_raise {A : Type} (e : exn) : io A := fun fs => (Raise e, fs).

Definition io_bind {A B : Type} (c : io A) (k : A -> io B) : io B :=
  fun fs =>
    match c fs with
    | (OK a, fs') => k a fs'
    | (Raise e, fs') => (Raise e, fs')
    end.

Definition io_lift {A : Type} (r : result A) : io A := fun fs => (r, fs).

Definition io_try_except {A : Type} (body : io A) (handler : exn -> io A) : io A :=
  fun fs =>
    match body fs with
    | (OK a, fs') => (OK a, fs')
    | (Raise e, fs') => if is_Exception e then handler e fs' else (Raise e, fs')
    end.

Notation "x <-- c ;; k" := (io_bind c (fun x => k))
  (at level 61, c at next level, right associativity) : py_scope.

Definition os_path_exists (p : string) : io bool :=
  fun fs => (OK (match fs p with Some _ => true | None => false end), fs).

Definition os_path_getsize (p : string) : io Z :=
  fun fs => (match fs p with Some n => OK n | None => Raise OSError end, fs).

(** [os.path.dirname]: the path up to its last slash, trailing slashes
    stripped unless nothing else is left. *)
Fixpoint strip_slashes (r : list Ascii.ascii) : list Ascii.ascii :=
  match r with
  | c :: r' => if Ascii.eqb c "/"%char then strip_slashes r' else r
  | [] => []
  end.

Fixpoint upto_slash (r : list Ascii.ascii) : list Ascii.ascii :=
  match r with
  | c :: r' => if Ascii.eqb c "/"%char then r else upto_slash r'
  | [] => []
  end.

Definition os_path_dirname (p : string) : string :=
  let head := upto_slash (rev (list_ascii_of_string p)) in
  let head' := match strip_slashes head with
               | [] => head
               | stripped => stripped
               end in
  string_of_list_ascii (rev head').

(** What the program does not decide: directory creation, the MP3 encoder
    behind [AudioSegment.export], and the writing of the PDF report by
    [pdf.output].  The layout calls on the [FPDF] object that come before
    it put ASCII text and the numbers of the statistics into the document
    held in memory; what can raise among them is [float(freq)] in the
    listing of the first entries, on a list that is not of doubles, and
    that is left to [render_pdf] as well. *)
Record Environment : Type := {
  os_makedirs : string -> io unit;
  export_mp3 : AudioSegment -> string -> io unit;
  render_pdf : list pyval -> string -> io unit
}.

(** numpy where the development does not follow it: the binning of
    [np.histogram] once it has found the range of an array of doubles
    finite, and what the statistics of the report and the reductions of
    [main] make of a list that is not of doubles only (one that holds an
    int, a bool or text).  Each returns or raises. *)
Record Numpy : Type := {
  histogram_bins : list float -> result unit;
  statistics_of_others : list pyval -> result unit;
  np_min_of_others : list pyval -> result float;
  np_max_of_others : list pyval -> result float
}.

Section Pipeline.

Variable libm_sin : float -> float.
Variable env : Environment.
Variable numpy : Numpy.

(** [NeuroAudioGenerator.save_audio]. *)
Definition save_audio (self : NeuroAudioGenerator) (output_path : string)
  : io unit :=
  io_try_except
    (_ <-- os_makedirs env (os_path_dirname output_path) ;;
     n <-- io_lift (len_ms (audio_segment self)) ;;
     if (n =? 0)%Z then io_raise ValueError
     else
       _ <-- export_mp3 env (audio_segment self) output_path ;;
       created <-- os_path_exists output_path ;;
       if negb created then io_raise RuntimeError
       else
         _ <-- os_path_getsize output_path ;;
         io_ret tt)
    (fun e => io_raise e).

(** [np.min] and [np.max] of a float64 array: reductions by [np.minimum]
    and [np.maximum], which hand on a NaN; an empty array is an error. *)
Definition np_minimum (a b : float) : float :=
  if (a <? b)%float || is_nan a then a else b.

Definition np_maximum (a b : float) : float :=
  if (b <? a)%float || is_nan a then a else b.

Definition np_min (a : list float) : result float :=
  match a with
  | [] => Raise ValueError
  | x :: rest => OK (fold_left np_minimum rest x)
  end.

Definition np_max (a : list float) : result float :=
  match a with
  | [] => Raise ValueError
  | x :: rest => OK (fold_left np_maximum rest x)
  end.

(** [np.isfinite(x)]. *)
Definition np_isfinite (x : float) : bool :=
  negb (is_nan x) && negb (is_infinity x).

(** The doubles of a list that holds doubles only: the list of which
    [np.array] makes a float64 array, and the content of a float64 array. *)
Fixpoint as_doubles (l : list pyval) : option (list float) :=
  match l with
  | [] => Some []
  | PyFloat f :: rest =>
      match as_doubles rest with
      | Some a => Some (f :: a)
      | None => None
      end
  | _ :: _ => None
  end.

(** The statistics and the histogram of [generate_pdf_report] as far as
    they can raise.  On a list of doubles [np.min], [np.max], [np.mean] and
    [np.std] return; [np.histogram] takes the least and the greatest item
    for its range, raises [ValueError] ("autodetected range is not
    finite") unless both are finite, and bins. *)
Definition report_statistics (frequencies : list pyval) : result unit :=
  match as_doubles frequencies with
  | Some a =>
      freq_min <- np_min a ;;
      freq_max <- np_max a ;;
      if np_isfinite freq_min && np_isfinite freq_max
      then histogram_bins numpy a
      else Raise ValueError
  | None => statistics_of_others numpy frequencies
  end.

(** [pdf_generator.generate_pdf_report]: the guard on an empty list, the
    statistics and the histogram, the report written to
    [os.path.join(output_dir, pdf_filename)], the check that the file is
    there. *)
Definition generate_pdf_report (frequencies : list pyval)
    (pdf_filename output_dir : string) : io string :=
  io_try_except
    (match frequencies with
     | [] => io_raise ValueError
     | _ =>
         _ <-- io_lift (report_statistics frequencies) ;;
         let pdf_path := os_path_join output_dir pdf_filename in
         _ <-- render_pdf env frequencies pdf_path ;;
         created <-- os_path_exists pdf_path ;;
         if negb created then io_raise RuntimeError
         else
           _ <-- os_path_getsize pdf_path ;;
           io_ret pdf_path
     end)
    (fun e => io_raise e).

(** [float(np.min(frequencies))] and [float(np.max(frequencies))] on the
    loaded array. *)
Definition array_min (frequencies : list pyval) : result float :=
  match as_doubles frequencies with
  | Some a => np_min a
  | None => np_min_of_others numpy frequencies
  end.

Definition array_max (frequencies : list pyval) : result float :=
  match as_doubles frequencies with
  | Some a => np_max a
  | None => np_max_of_others numpy frequencies
  end.

Record SynthesisResult : Type := {
  frequency_count : nat;
  audio_file : string;
  pdf_file : string;
  frequency_min : float;
  frequency_max : float;
  aroma_id : string;
  company_name : string
}.

(** [main] from the loaded array on ([frequencies], the items of the array
    [load_frequencies] returns), with the company name and the id it
    derived before: the body of its [try]. *)
Definition main_body (frequencies : list pyval) (company aroma : string)
  : io SynthesisResult :=
  let output_dir := os_path_join "output" company in
  _ <-- os_makedirs env output_dir ;;
  generator <-- io_lift init ;;
  let freq_list := frequencies in
  generator <-- io_lift (add_frequencies libm_sin generator freq_list) ;;
  let audio_filename := audio_filename_of company aroma in
  let pdf_filename := pdf_filename_of company aroma in
  let audio_path := os_path_join output_dir audio_filename in
  _ <-- save_audio generator audio_path ;;
  _ <-- generate_pdf_report freq_list pdf_filename output_dir ;;
  lo <-- io_lift (array_min frequencies) ;;
  hi <-- io_lift (array_max frequencies) ;;
  io_ret {| frequency_count := length frequencies;
            audio_file := audio_filename;
            pdf_file := pdf_filename;
            frequency_min := lo;
            frequency_max := hi;
            aroma_id := aroma;
            company_name := company |}.

(** What [main] prints: the result, or the error report that goes with
    exit status 1. *)
Inductive main_outcome : Type :=
| Printed (r : SynthesisResult)
| Failed (e : exn).

Definition main (frequencies : list pyval) (company aroma : string)
    (fs : file_system) : main_outcome * file_system :=
  match main_body frequencies company aroma fs with
  | (OK r, fs') => (Printed r, fs')
  | (Raise e, fs') => (Failed e, fs')
  end.

End Pipeline.

(** ** A reference sine *)

(** The C library's [sin] is specified up to its accuracy only.  To run the
    generator on concrete inputs we use one binary64 implementation: the
    argument is reduced by the nearest multiple of pi/2 (held in four pieces
    so that the products are exact for arguments below 2^22 * pi/2), and a
    Taylor kernel of sine or cosine is evaluated on the rest.  On the
    arguments the generator produces for a 30 s tone at 18000 Hz or at
    22000 Hz its results are within two units in the last place of those
    of glibc, and the integer samples it yields are, all 1323000 of them,
    those that CPython's [math.sin] yields there. *)
Module SinRef.

Definition magic : float := 0x1.8p+52.

(** The nearest integer, for [|t| < 2^51]. *)
Definition nearest_int (t : float) : float := (t + magic - magic)%float.

Definition two_over_pi : float := 0x1.45f306dc9c883p-1.
Definition pio2_1 : float := 0x1.921fb54p+0.
Definition pio2_2 : float := 0x1.10b46118p-30.
Definition pio2_3 : float := 0x1.313198ap-61.
Definition pio2_4 : float := 0x1.701b839a25205p-92.

Definition kernel_sin (r : float) : float :=
  let z := (r * r)%float in
  (r + r * (z * (-0x1.5555555555555p-3 + z * (0x1.1111111111111p-7
    + z * (-0x1.a01a01a01a01ap-13 + z * (0x1.71de3a556c734p-19
    + z * (-0x1.ae64567f544e4p-26 + z * (0x1.6124613a86d09p-33
    + z * (-0x1.ae7f3e733b81fp-41 + z * 0x1.952c77030ad4ap-49)))))))))%float.

Definition kernel_cos (r : float) : float :=
  let z := (r * r)%float in
  (1 + z * (-0x1p-1 + z * (0x1.5555555555555p-5
    + z * (-0x1.6c16c16c16c17p-10 + z * (0x1.a01a01a01a01ap-16
    + z * (-0x1.27e4fb7789f5cp-22 + z * (0x1.1eed8eff8d898p-29
    + z * (-0x1.93974a8c07c9dp-37 + z * 0x1.ae7f3e733b81fp-45))))))))%float.

Definition sin (x : float) : float :=
  if is_nan x || is_infinity x then nan
  else
    let k := nearest_int (x * two_over_pi) in
    let r := (x - k * pio2_1 - k * pio2_2 - k * pio2_3 - k * pio2_4)%float in
    let j := nearest_int (k * 0x1p-2 - 0x1.8p-2) in
    let q := (k - 4 * j)%float in
    if (q =? 0)%float then kernel_sin r
    else if (q =? 1)%float then kernel_cos r
    else if (q =? 2)%float then (- kernel_sin r)%float
    else (- kernel_cos r)%float.

End SinRef.


(** ** pandas: the sheet and its THz column *)

Inductive excel_engine : Type := openpyxl | xlrd.

(** A sheet as [pd.read_excel] returns it: the column labels, which pandas
    keeps distinct, each with its cells. *)
Definition DataFrame : Type := list (string * list pyval).

Definition REQUIRED_EXCEL_COLUMN : string := "THz"%string.

(** [df[label]], when [label in df.columns]. *)
Definition df_column (df : DataFrame) (label : string) : option (list pyval) :=
  match find (fun c => String.eqb (fst c) label) df with
  | Some c => Some (snd c)
  | None => None
  end.

(** A missing cell: [None] or a NaN. *)
Definition pd_isna (v : pyval) : bool :=
  match v with
  | PyNone => true
  | PyFloat f => is_nan f
  | _ => false
  end.

(** [series.dropna().values]. *)
Definition dropna (cells : list pyval) : list pyval :=
  filter (fun v => negb (pd_isna v)) cells.

Section Loader.

(** [pd.read_excel(excel_path, engine=engine)]: what the reader makes of
    the file, or the exception it raises. *)
Variable pd_read_excel : string -> excel_engine -> file_system -> result DataFrame.

(** The body of the [try] inside the loop of [load_frequencies], for one
    engine: read the sheet, require the THz column, drop its missing
    cells, refuse an empty result. *)
Definition read_THz (excel_path : string) (engine : excel_engine)
  : io (list pyval) :=
  df <-- (fun fs => (pd_read_excel excel_path engine fs, fs)) ;;
  match df_column df REQUIRED_EXCEL_COLUMN with
  | None => io_raise ValueError
  | Some cells =>
      let freqs := dropna cells in
      if Nat.eqb (length freqs) 0 then io_raise ValueError
      else io_ret freqs
  end.

(** The loop over the engines: the first engine whose attempt raises no
    [Exception] gives the result; when none is left, [ValueError]
    ("Could not read Excel file"). *)
Fixpoint try_engines (excel_path : string) (engines : list excel_engine)
  : io (list pyval) :=
  match engines with
  | [] => io_raise ValueError
  | engine :: rest =>
      io_try_except (read_THz excel_path engine)
        (fun _ => try_engines excel_path rest)
  end.

(** [NeuroAudioGenerator.load_frequencies].  [FileNotFoundError] is
    recorded by its base class [OSError]. *)
Definition load_frequencies (excel_path : string) : io (list pyval) :=
  io_try_except
    (found <-- os_path_exists excel_path ;;
     if negb found then io_raise OSError
     else try_engines excel_path [openpyxl; xlrd])
    (fun e => io_raise e).

End Loader.

(** ** The log of the mix loop *)



Section LoggedMixLoop.

Variable libm_sin : float -> float.





End LoggedMixLoop.

(** ** The report: text without accents *)

(** Python text as the sequence of its Unicode code points. *)
Definition text : Type := list N.

Definition is_ascii (c : N) : bool := (c <? 128)%N.

(** [s.encode('ascii', 'ignore').decode('ascii')]: the code points that
    ASCII has, the others dropped. *)
Definition encode_ascii_ignore (s : text) : text := filter is_ascii s.

Fixpoint text_startswith (s prefix : text) : bool :=
  match prefix, s with
  | [], _ => true
  | p :: prefix', c :: s' => N.eqb p c && text_startswith s' prefix'
  | _ :: _, [] => false
  end.

(** The scan of [s.replace(old, new)] for an [old] that is not empty:
    occurrences are taken from the left and do not overlap; [skip] counts
    what is left to pass of the occurrence just replaced. *)
Fixpoint replace_scan (old new : text) (skip : nat) (s : text) : text :=
  match s with
  | [] => []
  | c :: s' =>
      match skip with
      | S k => replace_scan old new k s'
      | O =>
          if text_startswith s old
          then new ++ replace_scan old new (length old - 1) s'
          else c :: replace_scan old new 0 s'
      end
  end.

(** [s.replace(old, new)]; an empty [old] matches before every character
    and at the end. *)
Definition text_replace (s old new : text) : text :=
  match old with
  | [] => new ++ flat_map (fun c => c :: new) s
  | _ => replace_scan old new 0 s
  end.

Section RemoveAccents.

(** [unicodedata.normalize('NFD', s)], the canonical decomposition. *)
Variable normalize_NFD : text -> text.

(** An argument that is not text, and what [str] makes of it. *)
Variable object : Type.
Variable str : object -> text.

(** [pdf_generator.remove_accents].  The two literals it replaces are the
    code points U+0E23 U+0E07 and U+0E23 U+0087; it puts [c] and [C] in
    their place. *)
Definition remove_accents (t : text + object) : text :=
  match t with
  | inl s =>
      let normalized := normalize_NFD s in
      let ascii_text := encode_ascii_ignore normalized in
      text_replace (text_replace ascii_text [3619; 3591]%N [99]%N)
                   [3619; 135]%N [67]%N
  | inr o => str o
  end.

End RemoveAccents.

(** ** The report: the sample of the first entries *)

(** The decimal digits of a number that is not negative. *)
Definition decimal (n : Z) : string :=
  NilZero.string_of_uint (N.to_uint (Z.to_N n)).

Fixpoint spaces (k : nat) : string :=
  match k with
  | O => EmptyString
  | S k' => String " " (spaces k')
  end.

(** [s.rjust(width)]. *)
Definition rjust (width : nat) (s : string) : string :=
  (spaces (width - String.length s) ++ s)%string.

(** [format(i, '2d')] for an [i] that is not negative. *)
Definition format_2d (i : Z) : string := rjust 2 (decimal i).

(** The integer nearest to [n / d], ties to even, for [d > 0]. *)
Definition div_half_even (n d : Z) : Z :=
  let q := (n / d)%Z in
  let r := (n mod d)%Z in
  match (2 * r ?= d)%Z with
  | Lt => q
  | Gt => (q + 1)%Z
  | Eq => if Z.even q then q else (q + 1)%Z
  end.

(** [format(x, '.6f')]: the decimal expansion of the double, correctly
    rounded to six places. *)
Definition format_6f (x : float) : string :=
  match Prim2SF x with
  | S754_nan => "nan"
  | S754_infinity s => if s then "-inf" else "inf"
  | S754_zero s => if s then "-0.000000" else "0.000000"
  | S754_finite s m e =>
      let micro := match e with
                   | Zneg p => div_half_even (Zpos m * 1000000) (2 ^ Zpos p)
                   | _ => (Zpos m * 2 ^ e * 1000000)%Z
                   end in
      ((if s then "-" else "") ++ decimal (micro / 1000000) ++ "."
       ++ substring 1 6 (decimal (1000000 + micro mod 1000000)))%string
  end.

(** A call on the [FPDF] object: [pdf.cell(w, h, txt=..., ln=...)] or
    [pdf.ln(h)]. *)
Inductive pdf_call : Type :=
| Cell (w h : Z) (txt : string) (ln : bool)
| Ln (h : Z).

(** [f"{i:2d}. {float(freq):.6f} THz"]. *)
Definition entry_text (i : nat) (freq : float) : string :=
  (format_2d (Z.of_nat i) ++ ". " ++ format_6f freq ++ " THz")%string.

(** The loop over [enumerate(sample_freqs, 1)] in [generate_pdf_report],
    from entry number [i] on: the entry in a cell of width 100 that ends
    the line when [i] is even, then, for an odd [i] that is not the last,
    the next entry in a cell that ends the line. *)
Fixpoint sample_loop (sample_freqs : list float) (i : nat) (rest : list float)
  : list pdf_call :=
  match rest with
  | [] => []
  | freq :: rest' =>
      Cell 100 4 (entry_text i freq) (Nat.eqb (i mod 2) 0)
      :: (if Nat.eqb (i mod 2) 1 && (i <? length sample_freqs)
          then [Cell 0 4 (entry_text (i + 1) (nth i sample_freqs 0%float)) true]
          else [])
      ++ sample_loop sample_freqs (S i) rest'
  end.

(** The calls that write the entries of [frequencies[:20]], with the line
    break that follows an odd number of them. *)
Definition frequency_sample (frequencies : list float) : list pdf_call :=
  let sample_freqs := firstn 20 frequencies in
  sample_loop sample_freqs 1 sample_freqs
  ++ (if Nat.eqb (length sample_freqs mod 2) 1 then [Ln 4] else []).


(** * Notions used in the statements *)

(** ** Inputs of the mapper and of the clamp *)

(** A NaN, the one double [thz_to_hz] turns away. *)
Definition is_nan_value (v : pyval) : bool :=
  match v with
  | PyFloat f => is_nan f
  | _ => false
  end.

(** Ints that numpy holds in a 64-bit scalar; every other value counts as
    in range. *)
Definition in_numpy_range (v : pyval) : bool :=
  match v with
  | PyInt z => ((- 2 ^ 63 <=? z) && (z <? 2 ^ 64))%Z
  | _ => true
  end.

(** The double a number stands for in [thz * 1e12]. *)
Definition as_double (v : pyval) : float :=
  match v with
  | PyFloat f => f
  | PyInt z => Num.Z2F z
  | PyBool b => if b then 1%float else 0%float
  | PyStr _ | PyNone => nan
  end.

(** [MIN_FREQUENCY_HZ <= x <= MAX_FREQUENCY_HZ]. *)
Definition in_band (x : pyval) : bool :=
  match Num.of_pyval x with
  | Some a => Num.le (Num.I Config.MIN_FREQUENCY_HZ) a
              && Num.le a (Num.I Config.MAX_FREQUENCY_HZ)
  | None => false
  end.

(** ** The mix *)

(** A result that [except Exception] catches when it is an exception. *)
Definition catchable {A : Type} (r : result A) : Prop :=
  forall e, r = Raise e -> is_Exception e = true.

(** The samples [overlay] leaves in a segment that held [d1] when it is
    given a segment holding [d2]. *)
Definition overlay_data (d1 d2 : list Z) : list Z :=
  let k := Nat.min (length d1) (length d2) in
  add_samples (firstn k d1) (firstn k d2) ++ skipn k d1.

Definition mix (seg tone : AudioSegment) : AudioSegment :=
  spawn seg (overlay_data (samples seg) (samples tone)).

(** The tone [add_frequencies] synthesizes for one item, or the exception
    that makes it skip the item. *)
Definition tone_for (libm_sin : float -> float) (thz : pyval)
  : result AudioSegment :=
  hz <- thz_to_hz thz ;;
  generate_tone libm_sin hz (Config.TOTAL_DURATION_SECONDS * 1000).

(** The tones of the items that are not skipped, in the order of the list. *)
Definition synthesized (libm_sin : float -> float) (l : list pyval)
  : list AudioSegment :=
  flat_map (fun thz => match tone_for libm_sin thz with
                       | OK tone => [tone]
                       | Raise _ => []
                       end) l.

(** The 30 s of silence the generator starts from. *)
Definition silence : AudioSegment :=
  {| samples := repeat 0%Z (Z.to_nat 1323000);
     frame_rate := Config.SAMPLE_RATE;
     sample_width := 2;
     channels := 1 |}.

Definition in_int16 (z : Z) : Prop := (-32768 <= z <= 32767)%Z.

Definition sample_at (i : nat) (seg : AudioSegment) : Z :=
  nth i (samples seg) 0%Z.

(** The samples the tones hold at position [i]. *)
Definition column (i : nat) (tones : list AudioSegment) : list Z :=
  map (sample_at i) tones.

(** What repeated overlays leave at one position: each tone's sample is
    added and the sum truncated to 16 bits before the next one. *)
Definition saturating_sum (start : Z) (xs : list Z) : Z :=
  fold_left (fun acc x => saturate16 (acc + x)) xs start.



(** ** The exporter and [main] where the environment does its work *)

(** The part of [save_audio] after its guard: the encoder runs, then the
    artifact must exist. *)
Definition export_and_verify (env : Environment) (seg : AudioSegment)
    (output_path : string) : io unit :=
  _ <-- export_mp3 env seg output_path ;;
  created <-- os_path_exists output_path ;;
  if negb created then io_raise RuntimeError else io_ret tt.

(** An encoder that writes a file of a given size, with directory
    creation and report writing that succeed. *)
Definition encoder_writing (size : Z) : Environment :=
  {| os_makedirs := fun _ => io_ret tt;
     export_mp3 := fun _ p fs => (OK tt, write_file fs p size);
     render_pdf := fun _ p fs => (OK tt, write_file fs p 4096) |}.

Definition empty_file_system : file_system := fun _ => None.

Definition acme : string := "Acme"%string.

Definition acme_id : string := "0A1B2C3D4E"%string.

(** The artifact path [main] builds for that company and id. *)
Definition acme_mp3 : string :=
  "output/Acme/NeuroAudio_Acme_0A1B2C3D4E.mp3"%string.

(** The file system after a run of [main] with [encoder_writing size]. *)
Definition after_main (size : Z) (company aroma : string) (fs : file_system)
  : file_system :=
  let output_dir := os_path_join "output" company in
  write_file
    (write_file fs (os_path_join output_dir (audio_filename_of company aroma))
       size)
    (os_path_join output_dir (pdf_filename_of company aroma))
    4096.

(** numpy for runs on arrays of doubles: the binning of a finite range
    succeeds.  Such runs do not consult the functions for other lists,
    which raise here. *)
Definition numpy_of_doubles : Numpy :=
  {| histogram_bins := fun _ => OK tt;
     statistics_of_others := fun _ => Raise TypeError;
     np_min_of_others := fun _ => Raise TypeError;
     np_max_of_others := fun _ => Raise TypeError |}.


(** ** The order of doubles, read on integers *)

(** A double that is not NaN, as an integer multiple of 2^-1074, the
    infinities beyond every finite double: an embedding that keeps the
    order. *)
Definition SFrank (x : spec_float) : Z :=
  match x with
  | S754_zero _ => 0
  | S754_nan => 0
  | S754_infinity s => if s then - 2 ^ 2200 else 2 ^ 2200
  | S754_finite s m e =>
      if s then - (Zpos m * 2 ^ (e + 1074)) else Zpos m * 2 ^ (e + 1074)
  end%Z.

Definition rank (f : float) : Z := SFrank (Prim2SF f).

(** ** Running the sine generator *)

(** The counter values of [k] items drawn from [sample_n] on. *)
Fixpoint counters (k : nat) (sample_n : int) : list int :=
  match k with
  | O => []
  | S k' => sample_n :: counters k' (sample_n + 1)%uint63
  end.

(** The double that [int] receives for one item: [val * maxval * gain]. *)
Definition Sine_value (libm_sin : float -> float) (sine_of gain : float)
    (sample_n : int) : float :=
  (libm_sin (sine_of * of_uint63 sample_n) * 32767 * gain)%float.

(** A test on doubles that is enough for an item to be produced: the
    argument of the sine is finite and the value lies strictly between
    -10922 and 10922 (a tone at -10 dB stays below 10362, and three such
    samples add up within 16 bits). *)
Definition item_ok (libm_sin : float -> float) (sine_of gain : float)
    (sample_n : int) : bool :=
  negb (is_infinity (sine_of * of_uint63 sample_n))
  && (-10922 <? Sine_value libm_sin sine_of gain sample_n)%float
  && (Sine_value libm_sin sine_of gain sample_n <? 10922)%float.

(** The integer part of a double, 0 where [int] raises. *)
Definition trunc (x : float) : Z :=
  match Num.int_of_float x with
  | OK z => z
  | Raise _ => 0%Z
  end.

(** The 1323000 samples of a 30 s tone whose items are all produced, from
    its [sine_of]. *)
Definition tone_samples (libm_sin : float -> float) (sine_of : float) : list Z :=
  map (fun n => trunc (Sine_value libm_sin sine_of db_to_float_DEFAULT_VOLUME n))
      (counters (Z.to_nat 1323000) 0%uint63).

Definition tone_at (libm_sin : float -> float) (sine_of : float) : AudioSegment :=
  {| samples := tone_samples libm_sin sine_of;
     frame_rate := Config.SAMPLE_RATE;
     sample_width := 2;
     channels := 1 |}.

(** [sine_of] as [Sine.generate] computes it for 22000 Hz and for 18000 Hz
    at 44100 samples a second. *)
Definition sine_of_22000 : float := 0x1.9136468f9231fp+1.

Definition sine_of_18000 : float := 0x1.4843ae1860577p+1.

(** Two inputs whose tones sit at the bounds of the band: 1 THz is clamped
    to 22000 Hz, 0 THz to 18000 Hz. *)
Definition thz_high : pyval := PyFloat 1.

Definition thz_low : pyval := PyFloat 0.

Definition tone_22000 : AudioSegment := tone_at SinRef.sin sine_of_22000.

Definition tone_18000 : AudioSegment := tone_at SinRef.sin sine_of_18000.

(** ** Names and paths *)

(** The number of occurrences of a character. *)
Fixpoint str_count (c : ascii) (s : string) : nat :=
  match s with
  | EmptyString => O
  | String a s' => (if Ascii.eqb a c then 1 else 0) + str_count c s'
  end.

(** ** Sheets for the loader *)

(** A reader of the old [.xls] format only: the [openpyxl] attempt raises,
    [xlrd] returns the sheet of the file. *)
Definition xls_reader (sheets : string -> option DataFrame)
  : string -> excel_engine -> file_system -> result DataFrame :=
  fun p engine _ =>
    match engine, sheets p with
    | xlrd, Some df => OK df
    | _, _ => Raise ValueError
    end.

(** Two workbooks: a scan whose THz column has two readings and two
    missing cells, and notes whose THz column holds a text cell. *)
Definition scan_sheet : DataFrame :=
  [("Sample"%string, [PyInt 1; PyInt 2; PyInt 3; PyInt 4]);
   ("THz"%string, [PyFloat 0x1.2dfd694ccab3fp-16; PyFloat nan; PyNone;
                   PyFloat 0x1.4f8b588e368f1p-16])].

Definition notes_sheet : DataFrame :=
  [("THz"%string, [PyFloat 0x1.2dfd694ccab3fp-16; PyStr "n/a"; PyNone])].

Definition scan_xls : string := "uploads/scan.xls"%string.

Definition notes_xls : string := "uploads/notes.xls"%string.

Definition uploads (p : string) : option DataFrame :=
  if String.eqb p scan_xls then Some scan_sheet
  else if String.eqb p notes_xls then Some notes_sheet
  else None.

Definition uploaded_files : file_system :=
  fun p => if String.eqb p scan_xls then Some 9216%Z
           else if String.eqb p notes_xls then Some 8704%Z
           else None.

(** ** The log *)




(** ** The report *)

(** An environment whose report renderer raises [e] and writes nothing,
    with directory creation that succeeds and an encoder that writes a file
    of a given size. *)
Definition renderer_failing (size : Z) (e : exn) : Environment :=
  {| os_makedirs := fun _ => io_ret tt;
     export_mp3 := fun _ p fs => (OK tt, write_file fs p size);
     render_pdf := fun _ _ => io_raise e |}.

(** A decomposition for examples: e-acute and c-cedilla become the letter
    followed by its combining mark, every other code point stays. *)
Definition decompose_latin (s : text) : text :=
  flat_map (fun c => if (c =? 233)%N then [101; 769]%N
                     else if (c =? 231)%N then [99; 807]%N
                     else [c]) s.

Definition is_Cell (c : pdf_call) : bool :=
  match c with
  | Cell _ _ _ _ => true
  | Ln _ => false
  end.

(** What one turn of the sample loop writes for entry [i]. *)
Definition sample_turn (sample_freqs : list float) (entry : nat * float)
  : list pdf_call :=
  let (i, freq) := entry in
  Cell 100 4 (entry_text i freq) (Nat.eqb (i mod 2) 0)
  :: (if Nat.eqb (i mod 2) 1 && (i <? length sample_freqs)
      then [Cell 0 4 (entry_text (i + 1) (nth i sample_freqs 0%float)) true]
      else []).

(** * Properties *)

(** ** The mapper *)

Lemma thz_to_hz_float (f : float) :
  thz_to_hz (PyFloat f) =
  if is_nan f then Raise ValueError else OK (PyFloat (f * 1e12)).
Proof.
  unfold thz_to_hz. cbn. destruct (is_nan f); reflexivity.
Qed.

Lemma float_of_int_in_range (z : Z) :
  (- 2 ^ 63 <= z < 2 ^ 64)%Z -> Num.float_of_int z = OK (Num.Z2F z).
Proof.
  intros H. unfold Num.float_of_int.
  assert (Hlt : (Z.abs z <? 2 ^ 1024 - 2 ^ 970)%Z = true).
  { apply Z.ltb_lt.
    assert (Hs : (2 ^ 64 < 2 ^ 1024 - 2 ^ 970)%Z) by (vm_compute; reflexivity).
    assert (Hp : (2 ^ 63 < 2 ^ 64)%Z) by (vm_compute; reflexivity).
    lia. }
  rewrite Hlt. reflexivity.
Qed.

Lemma thz_to_hz_int (z : Z) :
  (- 2 ^ 63 <= z < 2 ^ 64)%Z ->
  thz_to_hz (PyInt z) = OK (PyFloat (Num.Z2F z * 1e12)).
Proof.
  intros H. unfold thz_to_hz, np_isnan, isinstance_int_float. cbn [negb].
  assert (Hr : ((- 2 ^ 63 <=? z) && (z <? 2 ^ 64))%Z = true).
  { apply andb_true_iff. split; [apply Z.leb_le | apply Z.ltb_lt]; lia. }
  rewrite Hr. cbn [bind]. unfold py_mul. cbn [Num.of_pyval Num.mul Num.as_float].
  rewrite (float_of_int_in_range z H). reflexivity.
Qed.

Lemma thz_to_hz_int_out_of_range (z : Z) :
  in_numpy_range (PyInt z) = false -> thz_to_hz (PyInt z) = Raise TypeError.
Proof.
  intros H. unfold thz_to_hz, np_isnan, isinstance_int_float. cbn [negb].
  cbn [in_numpy_range] in H. rewrite H. reflexivity.
Qed.

(** C1, as the code has it: on every value numpy can test (all but the
    ints outside the 64-bit range) [thz_to_hz] raises [ValueError] exactly
    for a NaN and for a value that is neither int nor float, and otherwise
    returns the double product [thz * 1e12]; on an int outside that range it
    raises [TypeError], the error of [np.isnan]. *)
Theorem thz_to_hz_on_numpy_range (thz : pyval) :
  (in_numpy_range thz = true ->
   thz_to_hz thz =
   if negb (isinstance_int_float thz) || is_nan_value thz
   then Raise ValueError
   else OK (PyFloat (as_double thz * 1e12)))
  /\ (in_numpy_range thz = false -> thz_to_hz thz = Raise TypeError).
Proof.
  split; intros H.
  - destruct thz as [f | z | b | s | ].
    + rewrite thz_to_hz_float. reflexivity.
    + cbn [in_numpy_range] in H. apply andb_true_iff in H. destruct H as [H1 H2].
      apply Z.leb_le in H1. apply Z.ltb_lt in H2.
      rewrite thz_to_hz_int by lia. reflexivity.
    + destruct b; reflexivity.
    + reflexivity.
    + reflexivity.
  - destruct thz as [f | z | b | s | ]; try discriminate H.
    apply thz_to_hz_int_out_of_range. exact H.
Qed.

Lemma thz_to_hz_on_numpy_range_witness :
  in_numpy_range (PyFloat 0x1.2dfd694ccab3fp-16) = true
  /\ thz_to_hz (PyFloat 0x1.2dfd694ccab3fp-16) = OK (PyFloat (0x1.2dfd694ccab3fp-16 * 1e12)).
Proof.
  split; [reflexivity | ].
  exact (proj1 (thz_to_hz_on_numpy_range (PyFloat 0x1.2dfd694ccab3fp-16)) eq_refl).
Defined.

(** C1, the claim as stated fails: a finite numeric input, the Python int
    [10 ** 400], makes [thz_to_hz] raise, and not the [ValueError] of an
    invalid frequency. *)
Lemma thz_to_hz_huge_int_raises_TypeError :
  isinstance_int_float (PyInt (10 ^ 400)) = true
  /\ is_nan_value (PyInt (10 ^ 400)) = false
  /\ thz_to_hz (PyInt (10 ^ 400)) = Raise TypeError.
Proof. repeat split; vm_compute; reflexivity. Qed.

Lemma thz_to_hz_ValueError_iff (thz : pyval) :
  thz_to_hz thz = Raise ValueError <->
  isinstance_int_float thz = false \/ is_nan_value thz = true.
Proof.
  destruct thz as [f | z | b | s | ].
  - rewrite thz_to_hz_float. cbn. destruct (is_nan f); split; intros H.
    + right. reflexivity.
    + reflexivity.
    + discriminate H.
    + destruct H as [H | H]; discriminate H.
  - split; intros H.
    + exfalso. destruct (in_numpy_range (PyInt z)) eqn:Hr.
      * cbn [in_numpy_range] in Hr. apply andb_true_iff in Hr. destruct Hr as [H1 H2].
        apply Z.leb_le in H1. apply Z.ltb_lt in H2.
        rewrite thz_to_hz_int in H by lia. discriminate H.
      * rewrite (thz_to_hz_int_out_of_range z Hr) in H. discriminate H.
    + destruct H as [H | H]; discriminate H.
  - split; intros H.
    + destruct b; discriminate H.
    + destruct H as [H | H]; discriminate H.
  - split; intros _; [left |]; reflexivity.
  - split; intros _; [left |]; reflexivity.
Qed.

(** ** The clamp *)

Lemma clamp_below (x : pyval) :
  py_lt x (PyInt Config.MIN_FREQUENCY_HZ) = OK true ->
  clamp x = OK (PyInt Config.MIN_FREQUENCY_HZ).
Proof.
  intros H. unfold clamp, py_max, py_gt. rewrite H. reflexivity.
Qed.

Lemma clamp_above (x : pyval) :
  py_lt x (PyInt Config.MIN_FREQUENCY_HZ) = OK false ->
  py_lt (PyInt Config.MAX_FREQUENCY_HZ) x = OK true ->
  clamp x = OK (PyInt Config.MAX_FREQUENCY_HZ).
Proof.
  intros H1 H2. unfold clamp, py_max, py_gt. rewrite H1. cbn [bind].
  unfold py_min. rewrite H2. reflexivity.
Qed.

Lemma clamp_inside (x : pyval) :
  py_lt x (PyInt Config.MIN_FREQUENCY_HZ) = OK false ->
  py_lt (PyInt Config.MAX_FREQUENCY_HZ) x = OK false ->
  clamp x = OK x.
Proof.
  intros H1 H2. unfold clamp, py_max, py_gt. rewrite H1. cbn [bind].
  unfold py_min. rewrite H2. reflexivity.
Qed.

(** The clamp answers with one of the two bounds or with its argument. *)
Lemma clamp_cases (x : pyval) :
  clamp x = OK (PyInt Config.MIN_FREQUENCY_HZ)
  \/ clamp x = OK (PyInt Config.MAX_FREQUENCY_HZ)
  \/ clamp x = OK x
  \/ clamp x = Raise TypeError.
Proof.
  destruct (py_lt x (PyInt Config.MIN_FREQUENCY_HZ)) as [[|] | e] eqn:H1.
  - left. apply clamp_below. exact H1.
  - destruct (py_lt (PyInt Config.MAX_FREQUENCY_HZ) x) as [[|] | e] eqn:H2.
    + right. left. apply clamp_above; assumption.
    + right. right. left. apply clamp_inside; assumption.
    + exfalso. unfold py_lt in H1, H2. cbn [Num.of_pyval] in H1, H2.
      destruct (Num.of_pyval x); discriminate.
  - right. right. right. unfold clamp, py_max, py_gt. rewrite H1.
    unfold py_lt in H1. cbn [Num.of_pyval] in H1.
    destruct (Num.of_pyval x); [discriminate H1 | ]. injection H1 as <-. reflexivity.
Qed.

Lemma in_band_not_below (x : pyval) :
  in_band x = true -> py_lt x (PyInt Config.MIN_FREQUENCY_HZ) = OK false.
Proof.
  unfold in_band, py_lt. cbn [Num.of_pyval].
  destruct (Num.of_pyval x) as [[z | f] | ]; [ | | discriminate].
  - intros H. apply andb_true_iff in H. destruct H as [H _].
    cbn [Num.le] in H. cbn [Num.lt]. apply Z.leb_le in H.
    f_equal. apply Z.ltb_ge. exact H.
  - intros H. apply andb_true_iff in H. destruct H as [H _].
    cbn [Num.le] in H. cbn [Num.lt]. apply andb_true_iff in H. destruct H as [H _].
    f_equal. apply negb_true_iff. exact H.
Qed.

Lemma in_band_not_above (x : pyval) :
  in_band x = true -> py_lt (PyInt Config.MAX_FREQUENCY_HZ) x = OK false.
Proof.
  unfold in_band, py_lt. cbn [Num.of_pyval].
  destruct (Num.of_pyval x) as [[z | f] | ]; [ | | discriminate].
  - intros H. apply andb_true_iff in H. destruct H as [_ H].
    cbn [Num.le] in H. cbn [Num.lt]. apply Z.leb_le in H.
    f_equal. apply Z.ltb_ge. exact H.
  - intros H. apply andb_true_iff in H. destruct H as [_ H].
    cbn [Num.le] in H. cbn [Num.lt]. apply andb_true_iff in H. destruct H as [H _].
    f_equal. apply negb_true_iff. exact H.
Qed.

Lemma clamp_twice (x : pyval) : (y <- clamp x ;; clamp y) = clamp x.
Proof.
  destruct (clamp_cases x) as [H | [H | [H | H]]]; rewrite H; cbn [bind].
  - reflexivity.
  - reflexivity.
  - exact H.
  - reflexivity.
Qed.

Lemma clamp_on_band (x : pyval) : in_band x = true -> clamp x = OK x.
Proof.
  intros H. apply clamp_inside.
  - apply in_band_not_below. exact H.
  - apply in_band_not_above. exact H.
Qed.

Lemma float_eqb_refl (f : float) : is_nan f = false -> (f =? f)%float = true.
Proof. unfold is_nan. intros H. apply negb_false_iff in H. exact H. Qed.

(** A value equals itself unless it is a NaN. *)
Lemma py_eq_refl (y : pyval) : is_nan_value y = false -> py_eq y y = true.
Proof.
  destruct y as [f | z | b | s | ]; cbn [is_nan_value]; intros H;
    unfold py_eq; cbn [Num.of_pyval num_eq].
  - apply float_eqb_refl. exact H.
  - apply Z.eqb_refl.
  - apply Z.eqb_refl.
  - apply String.eqb_refl.
  - reflexivity.
Qed.

Lemma in_band_not_nan (x : pyval) : in_band x = true -> is_nan_value x = false.
Proof.
  destruct x as [f | z | b | s | ]; try reflexivity.
  unfold in_band. cbn [Num.of_pyval Num.le is_nan_value]. intros H.
  apply andb_true_iff in H. destruct H as [H _].
  apply andb_true_iff in H. destruct H as [_ H].
  apply negb_true_iff. exact H.
Qed.

Lemma clamp_result_not_nan (x y : pyval) :
  is_nan_value x = false -> clamp x = OK y -> is_nan_value y = false.
Proof.
  intros Hx Hy.
  destruct (clamp_cases x) as [H | [H | [H | H]]]; rewrite H in Hy;
    try discriminate Hy; injection Hy as <-; [reflexivity | reflexivity | exact Hx].
Qed.

(** C6, as the code has it: clamping what the clamp returned returns it
    again (a value the clamp refuses is refused both times), and for every
    [x] that is not a NaN the two results are equal by [==]; every [x] of
    the band [18000, 22000] is returned as it is, equal to [x] by [==].
    The clamp hands a NaN on, which equals nothing. *)
Theorem clamp_idempotent_except_at_NaN (x : pyval) :
  (y <- clamp x ;; clamp y) = clamp x
  /\ (is_nan_value x = false ->
      forall y, clamp x = OK y ->
        exists z, clamp y = OK z /\ py_eq z y = true)
  /\ (in_band x = true ->
      exists y, clamp x = OK y /\ py_eq y x = true).
Proof.
  split; [apply clamp_twice | ]. split.
  - intros Hx y Hy. exists y. split.
    + pose proof (clamp_twice x) as H. rewrite Hy in H. exact H.
    + apply py_eq_refl. exact (clamp_result_not_nan x y Hx Hy).
  - intros H. exists x. split; [apply clamp_on_band; exact H | ].
    apply py_eq_refl. apply in_band_not_nan. exact H.
Qed.

Lemma clamp_idempotent_except_at_NaN_witness :
  in_band (PyFloat 0x1.3888p+14) = true
  /\ exists y, clamp (PyFloat 0x1.3888p+14) = OK y
               /\ py_eq y (PyFloat 0x1.3888p+14) = true.
Proof.
  assert (H : in_band (PyFloat 0x1.3888p+14) = true) by (vm_compute; reflexivity).
  split; [exact H | ].
  exact (proj2 (proj2 (clamp_idempotent_except_at_NaN (PyFloat 0x1.3888p+14))) H).
Defined.

(** C6, the claim as stated fails at a NaN: the clamp returns the NaN it
    is given, once and twice, and a NaN is not equal to itself. *)
Lemma clamp_of_a_NaN_is_not_equal_to_itself :
  clamp (PyFloat nan) = OK (PyFloat nan)
  /\ (y <- clamp (PyFloat nan) ;; clamp y) = OK (PyFloat nan)
  /\ py_eq (PyFloat nan) (PyFloat nan) = false.
Proof. repeat split; vm_compute; reflexivity. Qed.

(** ** Exceptions that [except Exception] catches *)

Lemma catchable_OK {A : Type} (a : A) : catchable (OK a).
Proof. intros e H. discriminate H. Qed.

Lemma catchable_Raise {A : Type} (e : exn) :
  is_Exception e = true -> catchable (@Raise A e).
Proof. intros He e' H. injection H as <-. exact He. Qed.

Lemma catchable_bind {A B : Type} (c : result A) (k : A -> result B) :
  catchable c -> (forall a, catchable (k a)) -> catchable (bind c k).
Proof.
  intros Hc Hk e H. destruct c as [a | e'].
  - exact (Hk a e H).
  - cbn [bind] in H. injection H as <-. apply Hc. reflexivity.
Qed.

Lemma catchable_try_except {A : Type} (body : result A) (handler : exn -> result A) :
  catchable body ->
  (forall e, is_Exception e = true -> catchable (handler e)) ->
  catchable (try_except body handler).
Proof.
  intros Hb Hh e H. destruct body as [a | e']; [discriminate H | ].
  cbn [try_except] in H. rewrite (Hb e' eq_refl) in H.
  exact (Hh e' (Hb e' eq_refl) e H).
Qed.

(** A body whose exceptions are all catchable: the handler takes each. *)
Lemma try_except_catchable {A : Type} (body : result A) (handler : exn -> result A) :
  catchable body ->
  try_except body handler =
  match body with
  | OK a => OK a
  | Raise e => handler e
  end.
Proof.
  intros Hc. destruct body as [a | e]; [reflexivity | ].
  cbn [try_except]. rewrite (Hc e eq_refl). reflexivity.
Qed.

Ltac catch_cases :=
  repeat match goal with
         | |- catchable (match ?x with _ => _ end) => destruct x
         | |- catchable (bind _ _) => apply catchable_bind; [ | intros ? ]
         | |- catchable (OK _) => apply catchable_OK
         | |- catchable (Raise _) => apply catchable_Raise; reflexivity
         end.

Lemma float_of_int_catchable (z : Z) : catchable (Num.float_of_int z).
Proof. unfold Num.float_of_int. catch_cases. Qed.

Lemma as_float_catchable (a : Num.view) : catchable (Num.as_float a).
Proof. destruct a; [apply float_of_int_catchable | apply catchable_OK]. Qed.

Lemma int_of_float_catchable (x : float) : catchable (Num.int_of_float x).
Proof. unfold Num.int_of_float. catch_cases. Qed.

Lemma Num_mul_catchable (a b : Num.view) : catchable (Num.mul a b).
Proof.
  destruct a, b; cbn [Num.mul]; catch_cases;
    try apply as_float_catchable; try apply float_of_int_catchable.
Qed.

Lemma Num_truediv_catchable (a b : Num.view) : catchable (Num.truediv a b).
Proof. unfold Num.truediv. catch_cases; apply as_float_catchable. Qed.

Lemma py_mul_catchable (a b : pyval) : catchable (py_mul a b).
Proof. unfold py_mul. catch_cases. apply Num_mul_catchable. Qed.

Lemma py_truediv_catchable (a b : pyval) : catchable (py_truediv a b).
Proof. unfold py_truediv. catch_cases; apply Num_truediv_catchable. Qed.

Lemma py_lt_catchable (a b : pyval) : catchable (py_lt a b).
Proof. unfold py_lt. catch_cases. Qed.

Lemma clamp_catchable (x : pyval) : catchable (clamp x).
Proof.
  unfold clamp, py_max, py_min, py_gt. catch_cases; apply py_lt_catchable.
Qed.

Lemma thz_to_hz_catchable (thz : pyval) : catchable (thz_to_hz thz).
Proof.
  unfold thz_to_hz, np_isnan. catch_cases; apply py_mul_catchable.
Qed.

Lemma frames_in_catchable (rate duration : Z) : catchable (frames_in rate duration).
Proof.
  unfold frames_in. catch_cases.
  - apply Num_truediv_catchable.
  - apply Num_mul_catchable.
  - apply as_float_catchable.
  - apply int_of_float_catchable.
Qed.

Section CatchableSynthesis.

Variable libm_sin : float -> float.

Lemma Sine_sample_catchable (sine_of gain : float) (n : int) :
  catchable (Sine_sample libm_sin sine_of gain n).
Proof.
  unfold Sine_sample, math_sin, array_h_item. catch_cases.
  apply int_of_float_catchable.
Qed.

Lemma Sine_samples_catchable (sine_of gain : float) (k : nat) :
  forall n, catchable (Sine_samples libm_sin sine_of gain k n).
Proof.
  induction k as [| k IH]; intros n; cbn [Sine_samples].
  - apply catchable_OK.
  - catch_cases; [apply Sine_sample_catchable | apply IH].
Qed.

Lemma to_audio_segment_catchable (freq : pyval) (rate duration : Z) (gain : float) :
  catchable (to_audio_segment libm_sin freq rate duration gain).
Proof.
  unfold to_audio_segment, Sine_sine_of.
  apply catchable_bind; [apply frames_in_catchable | intros count].
  apply catchable_bind; [ | intros data; apply catchable_OK].
  destruct (Z.to_nat count) as [| k]; [apply catchable_OK | ].
  catch_cases.
  - apply py_mul_catchable.
  - apply py_mul_catchable.
  - apply py_truediv_catchable.
  - apply Sine_samples_catchable.
Qed.

Lemma generate_tone_catchable (hz : pyval) (duration_ms : Z) :
  catchable (generate_tone libm_sin hz duration_ms).
Proof.
  unfold generate_tone. apply catchable_try_except.
  - apply catchable_bind; [apply clamp_catchable | intros freq].
    apply to_audio_segment_catchable.
  - intros e He. apply catchable_Raise. exact He.
Qed.

End CatchableSynthesis.

(** ** The overlay *)

Lemma add_samples_length (a b : list Z) :
  length (add_samples a b) = Nat.min (length a) (length b).
Proof.
  revert b. induction a as [| x a IH]; intros [| y b]; cbn; try reflexivity.
  rewrite IH. reflexivity.
Qed.

Lemma overlay_data_length (d1 d2 : list Z) :
  length (overlay_data d1 d2) = length d1.
Proof.
  unfold overlay_data. rewrite length_app, add_samples_length.
  rewrite !length_firstn, length_skipn. lia.
Qed.

Lemma overlay_data_same_length (d1 d2 : list Z) :
  length d1 = length d2 -> overlay_data d1 d2 = add_samples d1 d2.
Proof.
  intros H. unfold overlay_data. rewrite <- H, Nat.min_id.
  rewrite firstn_all, skipn_all, app_nil_r.
  rewrite H, firstn_all. reflexivity.
Qed.

(** [overlay] never raises: the two fragments it hands to [audioop.add]
    have one length. *)
Lemma overlay_mix (seg1 seg2 : AudioSegment) :
  overlay seg1 seg2 = OK (mix seg1 seg2).
Proof.
  unfold overlay, mix, overlay_data, audioop_add.
  set (d1 := samples seg1). set (s2 := samples seg2).
  destruct (Nat.leb (length d1) (length s2)) eqn:Hle.
  - apply Nat.leb_le in Hle.
    assert (Hk : length (firstn (length d1) s2) = length d1)
      by (rewrite length_firstn; lia).
    rewrite Hk, (Nat.min_l _ _ Hle), firstn_all, Nat.eqb_refl. reflexivity.
  - apply Nat.leb_gt in Hle.
    assert (Hk : length (firstn (length s2) d1) = length s2)
      by (rewrite length_firstn; lia).
    assert (Hmin : Nat.min (length d1) (length s2) = length s2) by lia.
    rewrite Hk, Hmin, Nat.eqb_refl, (firstn_all s2). reflexivity.
Qed.

Lemma mix_length (seg tone : AudioSegment) :
  length (samples (mix seg tone)) = length (samples seg).
Proof. unfold mix, spawn. cbn [samples]. apply overlay_data_length. Qed.

Lemma fold_mix_length (tones : list AudioSegment) :
  forall seg, length (samples (fold_left mix tones seg)) = length (samples seg).
Proof.
  induction tones as [| t tones IH]; intros seg; cbn [fold_left].
  - reflexivity.
  - rewrite IH. apply mix_length.
Qed.

Lemma fold_mix_frame_rate (tones : list AudioSegment) :
  forall seg, frame_rate (fold_left mix tones seg) = frame_rate seg.
Proof.
  induction tones as [| t tones IH]; intros seg; cbn [fold_left].
  - reflexivity.
  - rewrite IH. reflexivity.
Qed.

(** ** The mix loop *)

Section MixLoop.

Variable libm_sin : float -> float.

Lemma tone_for_catchable (thz : pyval) : catchable (tone_for libm_sin thz).
Proof.
  unfold tone_for. apply catchable_bind.
  - apply thz_to_hz_catchable.
  - intros hz. apply generate_tone_catchable.
Qed.

Lemma add_one_tone_for (self : NeuroAudioGenerator) (thz : pyval) :
  add_one libm_sin self thz =
  match tone_for libm_sin thz with
  | OK tone => OK {| audio_segment := mix (audio_segment self) tone |}
  | Raise e => Raise e
  end.
Proof.
  unfold add_one, tone_for.
  destruct (thz_to_hz thz) as [hz | e]; cbn [bind]; [ | reflexivity].
  destruct (generate_tone libm_sin hz _) as [tone | e]; cbn [bind]; [ | reflexivity].
  rewrite overlay_mix. reflexivity.
Qed.

Lemma add_one_catchable (self : NeuroAudioGenerator) (thz : pyval) :
  catchable (add_one libm_sin self thz).
Proof.
  rewrite add_one_tone_for. intros e H.
  destruct (tone_for libm_sin thz) as [tone | e'] eqn:Ht; [discriminate H | ].
  injection H as <-. apply (tone_for_catchable thz). exact Ht.
Qed.

(** One turn of the loop: the item's tone is mixed in, or the item is
    skipped and the generator is as before. *)
Lemma add_frequencies_step (self : NeuroAudioGenerator) (thz : pyval) :
  try_except (add_one libm_sin self thz) (fun _ => OK self) =
  OK {| audio_segment :=
          fold_left mix (synthesized libm_sin [thz]) (audio_segment self) |}.
Proof.
  rewrite (try_except_catchable _ _ (add_one_catchable self thz)).
  rewrite add_one_tone_for. unfold synthesized. cbn [flat_map].
  destruct (tone_for libm_sin thz) as [tone | e]; cbn [app fold_left].
  - reflexivity.
  - destruct self. reflexivity.
Qed.

Lemma synthesized_cons (thz : pyval) (rest : list pyval) :
  synthesized libm_sin (thz :: rest) =
  synthesized libm_sin [thz] ++ synthesized libm_sin rest.
Proof. unfold synthesized. cbn [flat_map]. rewrite app_nil_r. reflexivity. Qed.

Lemma add_frequencies_mix (l : list pyval) :
  forall self,
    add_frequencies libm_sin self l =
    OK {| audio_segment :=
            fold_left mix (synthesized libm_sin l) (audio_segment self) |}.
Proof.
  induction l as [| thz rest IH]; intros self; cbn [add_frequencies].
  - destruct self. reflexivity.
  - rewrite add_frequencies_step. cbn [bind]. rewrite IH. cbn [audio_segment].
    rewrite (synthesized_cons thz rest), fold_left_app. reflexivity.
Qed.

End MixLoop.



(** ** The master buffer *)

Lemma frames_in_config :
  frames_in Config.SAMPLE_RATE (Config.TOTAL_DURATION_SECONDS * 1000) = OK 1323000%Z.
Proof. vm_compute. reflexivity. Qed.

Lemma init_silence : init = OK {| audio_segment := silence |}.
Proof.
  unfold init, silent. rewrite frames_in_config. reflexivity.
Qed.

Lemma silence_frame_count :
  frame_count silence = (Config.TOTAL_DURATION_SECONDS * Config.SAMPLE_RATE)%Z.
Proof.
  unfold frame_count, silence. cbn [samples].
  rewrite repeat_length, Z2Nat.id by lia. reflexivity.
Qed.

(** C7: the master buffer is allocated with
    [TOTAL_DURATION_SECONDS * SAMPLE_RATE] frames (30 s at 44100 Hz), and
    [add_frequencies] leaves the frame count of the buffer it is given
    unchanged, whatever the list. *)
Theorem master_buffer_frame_count_invariant
    (libm_sin : float -> float) (l : list pyval) :
  (exists g0 g,
      init = OK g0
      /\ add_frequencies libm_sin g0 l = OK g
      /\ frame_count (audio_segment g0) =
         (Config.TOTAL_DURATION_SECONDS * Config.SAMPLE_RATE)%Z
      /\ frame_count (audio_segment g) =
         (Config.TOTAL_DURATION_SECONDS * Config.SAMPLE_RATE)%Z)
  /\ (forall self, exists g,
        add_frequencies libm_sin self l = OK g
        /\ frame_count (audio_segment g) = frame_count (audio_segment self)).
Proof.
  assert (Hany : forall self, exists g,
             add_frequencies libm_sin self l = OK g
             /\ frame_count (audio_segment g) = frame_count (audio_segment self)).
  { intros self. eexists. split; [apply add_frequencies_mix | ].
    cbn [audio_segment]. unfold frame_count. rewrite fold_mix_length. reflexivity. }
  split; [ | exact Hany].
  destruct (Hany {| audio_segment := silence |}) as [g [Hg Hn]].
  exists {| audio_segment := silence |}, g.
  split; [apply init_silence | ].
  split; [exact Hg | ].
  split; [apply silence_frame_count | ].
  rewrite Hn. apply silence_frame_count.
Qed.

(** ** The exporter *)

Lemma io_try_except_reraise {A : Type} (body : io A) (fs : file_system) :
  io_try_except body (fun e => io_raise e) fs = body fs.
Proof.
  unfold io_try_except, io_raise. destruct (body fs) as [[a | e] fs'].
  - reflexivity.
  - destruct (is_Exception e); reflexivity.
Qed.

(** [save_audio] without its logging: directories, the guard on a buffer
    of no duration, then the encoder and the existence check. *)
Lemma save_audio_steps (env : Environment) (self : NeuroAudioGenerator)
    (output_path : string) (fs : file_system) :
  save_audio env self output_path fs =
  (_ <-- os_makedirs env (os_path_dirname output_path) ;;
   n <-- io_lift (len_ms (audio_segment self)) ;;
   if (n =? 0)%Z then io_raise ValueError
   else export_and_verify env (audio_segment self) output_path) fs.
Proof.
  unfold save_audio. rewrite io_try_except_reraise.
  unfold io_bind. destruct (os_makedirs env _ fs) as [[[] | e] fs1]; [ | reflexivity].
  unfold io_lift. destruct (len_ms (audio_segment self)) as [n | e]; [ | reflexivity].
  destruct (n =? 0)%Z; [reflexivity | ].
  unfold export_and_verify, io_bind.
  destruct (export_mp3 env _ output_path fs1) as [[[] | e] fs2]; [ | reflexivity].
  unfold os_path_exists, os_path_getsize.
  destruct (fs2 output_path) as [size | ] eqn:Hfile; cbn [negb].
  - rewrite Hfile. reflexivity.
  - reflexivity.
Qed.

Lemma len_ms_frames (seg : AudioSegment) :
  frame_count seg = 1323000%Z -> frame_rate seg = 44100%Z ->
  len_ms seg = OK 30000%Z.
Proof.
  intros Hn Hr. unfold len_ms. rewrite Hn, Hr. vm_compute. reflexivity.
Qed.

(** The buffer of a generator lasts 30000 ms from its creation on, through
    every [add_frequencies]. *)
Lemma generator_len_ms (libm_sin : float -> float) (l : list pyval) :
  exists g,
    add_frequencies libm_sin {| audio_segment := silence |} l = OK g
    /\ len_ms (audio_segment g) = OK 30000%Z.
Proof.
  eexists. split; [apply add_frequencies_mix | ].
  cbn [audio_segment]. apply len_ms_frames.
  - unfold frame_count. rewrite fold_mix_length.
    fold (frame_count silence). rewrite silence_frame_count. reflexivity.
  - rewrite fold_mix_frame_rate. reflexivity.
Qed.

(** C8, as the code has it: once the encoder has returned, [save_audio]
    checks only that the artifact exists.  A missing file is a
    [RuntimeError]; a file that is there is accepted whatever its size,
    which the code reads for its log line alone. *)
Theorem save_audio_checks_existence_only
    (env : Environment) (self : NeuroAudioGenerator) (output_path : string)
    (fs fs1 fs2 : file_system) (n : Z) :
  os_makedirs env (os_path_dirname output_path) fs = (OK tt, fs1) ->
  len_ms (audio_segment self) = OK n ->
  n <> 0%Z ->
  export_mp3 env (audio_segment self) output_path fs1 = (OK tt, fs2) ->
  (fs2 output_path = None ->
   save_audio env self output_path fs = (Raise RuntimeError, fs2))
  /\ (forall size, fs2 output_path = Some size ->
      save_audio env self output_path fs = (OK tt, fs2)).
Proof.
  intros Hmk Hlen Hn Hexp. rewrite save_audio_steps.
  unfold io_bind, io_lift. rewrite Hmk, Hlen.
  apply Z.eqb_neq in Hn. rewrite Hn.
  unfold export_and_verify, io_bind, os_path_exists. rewrite Hexp.
  split.
  - intros H. rewrite H. reflexivity.
  - intros size H. rewrite H. reflexivity.
Qed.

Lemma len_ms_silence : len_ms silence = OK 30000%Z.
Proof.
  apply len_ms_frames.
  - rewrite silence_frame_count. reflexivity.
  - reflexivity.
Qed.

Lemma save_audio_checks_existence_only_witness :
  save_audio (encoder_writing 0) {| audio_segment := silence |}
    acme_mp3 empty_file_system =
  (OK tt, write_file empty_file_system
            acme_mp3 0).
Proof.
  refine (proj2 (@save_audio_checks_existence_only
                   (encoder_writing 0) {| audio_segment := silence |}
                   acme_mp3
                   empty_file_system empty_file_system
                   (write_file empty_file_system
                      acme_mp3 0)
                   30000%Z eq_refl len_ms_silence _ eq_refl) 0%Z _).
  - lia.
  - reflexivity.
Defined.

(** C8, the claim as stated fails: the encoder leaves an empty file, and
    [save_audio] returns normally, the zero-byte artifact in place. *)
Lemma save_audio_accepts_an_empty_artifact :
  fst (save_audio (encoder_writing 0) {| audio_segment := silence |}
         acme_mp3 empty_file_system) = OK tt
  /\ snd (save_audio (encoder_writing 0) {| audio_segment := silence |}
            acme_mp3 empty_file_system)
       acme_mp3 = Some 0%Z.
Proof.
  rewrite save_audio_steps. unfold io_bind, io_lift.
  cbn [encoder_writing os_makedirs io_ret audio_segment].
  rewrite len_ms_silence. cbn [Z.eqb].
  split; reflexivity.
Qed.

(** C5, as the code has it: [save_audio] raises its [ValueError] for no
    audio data exactly for a buffer whose duration [len] is 0 ms, and then
    the encoder is not called; a buffer of any other duration goes on to
    the encoder.  The generator's buffer lasts 30000 ms from [__init__] on
    and through every [add_frequencies], so its export goes on to the
    encoder, with or without frequencies added. *)
Theorem save_audio_guard_is_on_duration
    (libm_sin : float -> float) (env : Environment) (l : list pyval)
    (output_path : string) (fs : file_system) :
  (forall self,
      len_ms (audio_segment self) = OK 0%Z ->
      save_audio env self output_path fs =
      (_ <-- os_makedirs env (os_path_dirname output_path) ;;
       io_raise ValueError) fs)
  /\ (forall self n,
        len_ms (audio_segment self) = OK n -> n <> 0%Z ->
        save_audio env self output_path fs =
        (_ <-- os_makedirs env (os_path_dirname output_path) ;;
         export_and_verify env (audio_segment self) output_path) fs)
  /\ (exists g0 g,
        init = OK g0
        /\ add_frequencies libm_sin g0 l = OK g
        /\ len_ms (audio_segment g) = OK 30000%Z
        /\ save_audio env g output_path fs =
           (_ <-- os_makedirs env (os_path_dirname output_path) ;;
            export_and_verify env (audio_segment g) output_path) fs).
Proof.
  split; [ | split].
  - intros self Hlen. rewrite save_audio_steps.
    unfold io_bind, io_lift. rewrite Hlen. reflexivity.
  - intros self n Hlen Hn. rewrite save_audio_steps.
    unfold io_bind, io_lift. rewrite Hlen.
    apply Z.eqb_neq in Hn. rewrite Hn. reflexivity.
  - destruct (generator_len_ms libm_sin l) as [g [Hg Hlen]].
    exists {| audio_segment := silence |}, g.
    split; [apply init_silence | ].
    split; [exact Hg | ].
    split; [exact Hlen | ].
    rewrite save_audio_steps. unfold io_bind, io_lift. rewrite Hlen. reflexivity.
Qed.

Lemma save_audio_guard_is_on_duration_witness :
  len_ms {| samples := []; frame_rate := 44100; sample_width := 2; channels := 1 |}
  = OK 0%Z
  /\ save_audio (encoder_writing 720684)
       {| audio_segment :=
            {| samples := []; frame_rate := 44100; sample_width := 2; channels := 1 |} |}
       acme_mp3 empty_file_system
     = (Raise ValueError, empty_file_system).
Proof.
  assert (H : len_ms {| samples := []; frame_rate := 44100;
                        sample_width := 2; channels := 1 |} = OK 0%Z)
    by (vm_compute; reflexivity).
  split; [exact H | ].
  exact (proj1 (save_audio_guard_is_on_duration SinRef.sin (encoder_writing 720684)
                  [] acme_mp3 empty_file_system)
           {| audio_segment :=
                {| samples := []; frame_rate := 44100;
                   sample_width := 2; channels := 1 |} |} H).
Defined.

(** C5, the claim as stated fails: a generator to which no frequency was
    added exports its 30 s of silence; [save_audio] returns normally and the
    artifact is there. *)
Lemma save_audio_exports_the_silent_buffer :
  init = OK {| audio_segment := silence |}
  /\ add_frequencies SinRef.sin {| audio_segment := silence |} [] =
     OK {| audio_segment := silence |}
  /\ fst (save_audio (encoder_writing 720684) {| audio_segment := silence |}
            acme_mp3 empty_file_system) = OK tt
  /\ snd (save_audio (encoder_writing 720684) {| audio_segment := silence |}
            acme_mp3 empty_file_system)
       acme_mp3 = Some 720684%Z.
Proof.
  split; [apply init_silence | ].
  split; [reflexivity | ].
  rewrite save_audio_steps. unfold io_bind, io_lift.
  cbn [encoder_writing os_makedirs io_ret audio_segment].
  rewrite len_ms_silence. cbn [Z.eqb].
  split; reflexivity.
Qed.

(** ** The order of doubles *)

Lemma digits2_pos_bounds (m : positive) :
  (2 ^ (Zpos (digits2_pos m) - 1) <= Zpos m < 2 ^ Zpos (digits2_pos m))%Z.
Proof.
  induction m as [p IH | p IH | ]; cbn [digits2_pos].
  - rewrite Pos2Z.inj_succ.
    replace (Z.succ (Zpos (digits2_pos p)) - 1)%Z
      with (Z.succ (Zpos (digits2_pos p) - 1))%Z by lia.
    rewrite !Z.pow_succ_r by lia. lia.
  - rewrite Pos2Z.inj_succ.
    replace (Z.succ (Zpos (digits2_pos p)) - 1)%Z
      with (Z.succ (Zpos (digits2_pos p) - 1))%Z by lia.
    rewrite !Z.pow_succ_r by lia. lia.
  - cbn. lia.
Qed.

(** What validity says of a finite double: the exponent is in range, the
    mantissa has at most 53 bits, and exactly 53 above the least exponent. *)
Lemma bounded_canonical (m : positive) (e : Z) :
  bounded prec emax m e = true ->
  (-1074 <= e <= 971 /\ Zpos m < 2 ^ 53
   /\ (e = -1074 \/ 2 ^ 52 <= Zpos m))%Z.
Proof.
  unfold bounded, canonical_mantissa, fexp, emin. intros H.
  apply andb_true_iff in H. destruct H as [Hc He].
  apply Z.eqb_eq in Hc. apply Z.leb_le in He.
  change prec with 53%Z in *. change emax with 1024%Z in *.
  pose proof (digits2_pos_bounds m) as [Hlo Hhi].
  set (d := Zpos (digits2_pos m)) in *.
  assert (Hd : (0 < d)%Z) by (unfold d; lia).
  assert (Hd53 : (d <= 53)%Z) by lia.
  split; [lia | ]. split.
  - apply Z.lt_le_trans with (2 ^ d)%Z; [exact Hhi | ].
    apply Z.pow_le_mono_r; lia.
  - destruct (Z.eq_dec e (-1074)) as [-> | Hne]; [left; reflexivity | right].
    assert (d = 53)%Z by lia. subst d. rewrite H in Hlo. exact Hlo.
Qed.

Lemma pow2_pos (k : Z) : (0 <= k -> 0 < 2 ^ k)%Z.
Proof. intros H. apply Z.pow_pos_nonneg; lia. Qed.

Lemma finite_rank_bounds (m : positive) (e : Z) :
  bounded prec emax m e = true ->
  (0 < Zpos m * 2 ^ (e + 1074) < 2 ^ 2200)%Z.
Proof.
  intros H. destruct (bounded_canonical m e H) as [He [Hm _]].
  pose proof (pow2_pos (e + 1074)) as Hp.
  split; [apply Z.mul_pos_pos; lia | ].
  apply Z.lt_le_trans with (2 ^ 53 * 2 ^ (e + 1074))%Z.
  - apply Z.mul_lt_mono_pos_r; lia.
  - rewrite <- Z.pow_add_r by lia. apply Z.pow_le_mono_r; lia.
Qed.

(** Between two valid positive doubles the smaller exponent decides. *)
Lemma finite_rank_lt (m1 m2 : positive) (e1 e2 : Z) :
  bounded prec emax m1 e1 = true ->
  bounded prec emax m2 e2 = true ->
  (e1 < e2)%Z ->
  (Zpos m1 * 2 ^ (e1 + 1074) < Zpos m2 * 2 ^ (e2 + 1074))%Z.
Proof.
  intros H1 H2 Hlt.
  destruct (bounded_canonical m1 e1 H1) as [He1 [Hm1 _]].
  destruct (bounded_canonical m2 e2 H2) as [He2 [_ Hm2]].
  destruct Hm2 as [Hm2 | Hm2]; [lia | ].
  pose proof (pow2_pos (e1 + 1074)) as Hp.
  apply Z.lt_le_trans with (2 ^ 53 * 2 ^ (e1 + 1074))%Z.
  - apply Z.mul_lt_mono_pos_r; lia.
  - apply Z.le_trans with (2 ^ 52 * 2 ^ (e2 + 1074))%Z.
    + rewrite <- !Z.pow_add_r by lia. apply Z.pow_le_mono_r; lia.
    + apply Z.mul_le_mono_nonneg_r; [ | exact Hm2].
      apply Z.lt_le_incl, pow2_pos. lia.
Qed.

Lemma finite_rank_compare (m1 m2 : positive) (e1 e2 : Z) :
  bounded prec emax m1 e1 = true ->
  bounded prec emax m2 e2 = true ->
  match (e1 ?= e2)%Z with
  | Lt => Lt
  | Gt => Gt
  | Eq => Pos.compare_cont Eq m1 m2
  end = (Zpos m1 * 2 ^ (e1 + 1074) ?= Zpos m2 * 2 ^ (e2 + 1074))%Z.
Proof.
  intros H1 H2. destruct (Z.compare_spec e1 e2) as [-> | Hlt | Hgt].
  - destruct (bounded_canonical m2 e2 H2) as [He2 _].
    rewrite <- Zmult_compare_compat_r by (apply Z.lt_gt, pow2_pos; lia).
    reflexivity.
  - symmetry. apply Z.compare_lt_iff. apply finite_rank_lt; assumption.
  - symmetry. apply Z.compare_gt_iff. apply finite_rank_lt; assumption.
Qed.

(** [SFcompare] on valid doubles is the comparison of their ranks. *)
Lemma SFcompare_rank (x y : spec_float) :
  valid_binary x = true -> valid_binary y = true ->
  x <> S754_nan -> y <> S754_nan ->
  SFcompare x y = Some (SFrank x ?= SFrank y)%Z.
Proof.
  intros Hx Hy Nx Ny.
  assert (HB : (0 < 2 ^ 2200)%Z) by (apply pow2_pos; lia).
  destruct x as [sx | sx | | sx mx ex]; [ | | congruence | ];
    destruct y as [sy | sy | | sy my ey]; try congruence;
    cbn [SFcompare SFrank valid_binary] in *;
    try (pose proof (finite_rank_bounds _ _ Hx) as Hbx);
    try (pose proof (finite_rank_bounds _ _ Hy) as Hby);
    set (B := (2 ^ 2200)%Z) in *.
  9: {
    destruct sx, sy; apply f_equal.
    - rewrite Z.compare_opp.
      rewrite <- (finite_rank_compare my mx ey ex Hy Hx).
      rewrite (Z.compare_antisym ex ey).
      destruct (ex ?= ey)%Z; cbn [CompOpp]; try reflexivity.
      symmetry. apply ZC4.
    - symmetry. apply Z.compare_lt_iff. lia.
    - symmetry. apply Z.compare_gt_iff. lia.
    - apply finite_rank_compare; assumption. }
  all: try destruct sx; try destruct sy; apply f_equal; symmetry;
    first [ apply Z.compare_refl
          | apply Z.compare_lt_iff; lia
          | apply Z.compare_gt_iff; lia ].
Qed.

Lemma Prim2SF_nan (f : float) : is_nan f = true -> Prim2SF f = S754_nan.
Proof. intros H. unfold Prim2SF. rewrite H. reflexivity. Qed.

Lemma Prim2SF_not_nan (f : float) : is_nan f = false -> Prim2SF f <> S754_nan.
Proof.
  intros H. unfold Prim2SF. rewrite H.
  destruct (PrimFloat.is_zero f); [discriminate | ].
  destruct (PrimFloat.is_infinity f); [discriminate | ].
  destruct (Z.frexp f) as [r ex].
  destruct (shr_fexp prec emax (to_Z (normfr_mantissa r)) (ex - prec) loc_Exact)
    as [mrs e'].
  destruct (shr_m mrs); discriminate.
Qed.

Lemma ltb_rank (x y : float) :
  is_nan x = false -> is_nan y = false ->
  (x <? y)%float = (rank x <? rank y)%Z.
Proof.
  intros Hx Hy. rewrite FloatAxioms.ltb_spec. unfold SFltb, rank.
  rewrite (SFcompare_rank _ _ (Prim2SF_valid x) (Prim2SF_valid y)
             (Prim2SF_not_nan x Hx) (Prim2SF_not_nan y Hy)).
  unfold Z.ltb. destruct (SFrank (Prim2SF x) ?= SFrank (Prim2SF y))%Z; reflexivity.
Qed.

Lemma leb_rank (x y : float) :
  is_nan x = false -> is_nan y = false ->
  (x <=? y)%float = (rank x <=? rank y)%Z.
Proof.
  intros Hx Hy. rewrite FloatAxioms.leb_spec. unfold SFleb, rank.
  rewrite (SFcompare_rank _ _ (Prim2SF_valid x) (Prim2SF_valid y)
             (Prim2SF_not_nan x Hx) (Prim2SF_not_nan y Hy)).
  unfold Z.leb. destruct (SFrank (Prim2SF x) ?= SFrank (Prim2SF y))%Z; reflexivity.
Qed.

Lemma ltb_nan_l (x y : float) : is_nan x = true -> (x <? y)%float = false.
Proof.
  intros H. rewrite FloatAxioms.ltb_spec, (Prim2SF_nan x H). reflexivity.
Qed.

Lemma ltb_nan_r (x y : float) : is_nan y = true -> (x <? y)%float = false.
Proof.
  intros H. rewrite FloatAxioms.ltb_spec, (Prim2SF_nan y H). unfold SFltb, SFcompare.
  destruct (Prim2SF x); reflexivity.
Qed.

Lemma ltb_true_not_nan (x y : float) :
  (x <? y)%float = true -> is_nan x = false /\ is_nan y = false.
Proof.
  intros H. split.
  - destruct (is_nan x) eqn:E; [ | reflexivity].
    rewrite (ltb_nan_l x y E) in H. discriminate H.
  - destruct (is_nan y) eqn:E; [ | reflexivity].
    rewrite (ltb_nan_r x y E) in H. discriminate H.
Qed.

(** ** The statistics of [main] *)

Lemma np_minimum_spec (a b : float) :
  is_nan a = false -> is_nan b = false ->
  is_nan (np_minimum a b) = false
  /\ (np_minimum a b = a \/ np_minimum a b = b)
  /\ (rank (np_minimum a b) <= rank a)%Z
  /\ (rank (np_minimum a b) <= rank b)%Z.
Proof.
  intros Ha Hb. unfold np_minimum. rewrite Ha, orb_false_r.
  rewrite (ltb_rank a b Ha Hb).
  destruct (Z.ltb_spec (rank a) (rank b)).
  - repeat split; auto; lia.
  - repeat split; auto; lia.
Qed.

Lemma np_maximum_spec (a b : float) :
  is_nan a = false -> is_nan b = false ->
  is_nan (np_maximum a b) = false
  /\ (np_maximum a b = a \/ np_maximum a b = b)
  /\ (rank a <= rank (np_maximum a b))%Z
  /\ (rank b <= rank (np_maximum a b))%Z.
Proof.
  intros Ha Hb. unfold np_maximum. rewrite Ha, orb_false_r.
  rewrite (ltb_rank b a Hb Ha).
  destruct (Z.ltb_spec (rank b) (rank a)).
  - repeat split; auto; lia.
  - repeat split; auto; lia.
Qed.

Lemma fold_np_minimum_spec (rest : list float) :
  forall x,
    is_nan x = false ->
    Forall (fun f => is_nan f = false) rest ->
    is_nan (fold_left np_minimum rest x) = false
    /\ In (fold_left np_minimum rest x) (x :: rest)
    /\ (forall y, In y (x :: rest) ->
                  (rank (fold_left np_minimum rest x) <= rank y)%Z).
Proof.
  induction rest as [| a rest IH]; intros x Hx Hrest; cbn [fold_left].
  - split; [exact Hx | ]. split; [left; reflexivity | ].
    intros y [<- | []]. lia.
  - inversion Hrest as [| a' rest' Ha Hrest']; subst.
    destruct (np_minimum_spec x a Hx Ha) as [Hn [Hin [Hlx Hla]]].
    destruct (IH (np_minimum x a) Hn Hrest') as [Hn' [Hin' Hle']].
    split; [exact Hn' | ]. split.
    + destruct Hin' as [Heq | Hin'].
      * rewrite <- Heq. destruct Hin as [-> | ->]; [left | right; left]; reflexivity.
      * right. right. exact Hin'.
    + intros y [<- | [<- | Hy]].
      * specialize (Hle' (np_minimum x a) (or_introl eq_refl)). lia.
      * specialize (Hle' (np_minimum x a) (or_introl eq_refl)). lia.
      * apply Hle'. right. exact Hy.
Qed.

Lemma fold_np_maximum_spec (rest : list float) :
  forall x,
    is_nan x = false ->
    Forall (fun f => is_nan f = false) rest ->
    is_nan (fold_left np_maximum rest x) = false
    /\ In (fold_left np_maximum rest x) (x :: rest)
    /\ (forall y, In y (x :: rest) ->
                  (rank y <= rank (fold_left np_maximum rest x))%Z).
Proof.
  induction rest as [| a rest IH]; intros x Hx Hrest; cbn [fold_left].
  - split; [exact Hx | ]. split; [left; reflexivity | ].
    intros y [<- | []]. lia.
  - inversion Hrest as [| a' rest' Ha Hrest']; subst.
    destruct (np_maximum_spec x a Hx Ha) as [Hn [Hin [Hlx Hla]]].
    destruct (IH (np_maximum x a) Hn Hrest') as [Hn' [Hin' Hle']].
    split; [exact Hn' | ]. split.
    + destruct Hin' as [Heq | Hin'].
      * rewrite <- Heq. destruct Hin as [-> | ->]; [left | right; left]; reflexivity.
      * right. right. exact Hin'.
    + intros y [<- | [<- | Hy]].
      * specialize (Hle' (np_maximum x a) (or_introl eq_refl)). lia.
      * specialize (Hle' (np_maximum x a) (or_introl eq_refl)). lia.
      * apply Hle'. right. exact Hy.
Qed.

(** [np.min] of an array without NaN is one of its items and is at most
    every item; [np.max] likewise from above. *)
Lemma np_min_least (a : list float) (lo : float) :
  Forall (fun f => is_nan f = false) a ->
  np_min a = OK lo ->
  In lo a /\ (forall y, In y a -> (lo <=? y)%float = true).
Proof.
  intros Hnan H. destruct a as [| x rest]; [discriminate H | ].
  cbn [np_min] in H. injection H as <-.
  inversion Hnan as [| x' rest' Hx Hrest]; subst.
  destruct (fold_np_minimum_spec rest x Hx Hrest) as [Hn [Hin Hle]].
  split; [exact Hin | ].
  intros y Hy. rewrite leb_rank.
  - apply Z.leb_le. apply Hle. exact Hy.
  - exact Hn.
  - rewrite Forall_forall in Hnan. apply Hnan. exact Hy.
Qed.

Lemma np_max_greatest (a : list float) (hi : float) :
  Forall (fun f => is_nan f = false) a ->
  np_max a = OK hi ->
  In hi a /\ (forall y, In y a -> (y <=? hi)%float = true).
Proof.
  intros Hnan H. destruct a as [| x rest]; [discriminate H | ].
  cbn [np_max] in H. injection H as <-.
  inversion Hnan as [| x' rest' Hx Hrest]; subst.
  destruct (fold_np_maximum_spec rest x Hx Hrest) as [Hn [Hin Hle]].
  split; [exact Hin | ].
  intros y Hy. rewrite leb_rank.
  - apply Z.leb_le. apply Hle. exact Hy.
  - rewrite Forall_forall in Hnan. apply Hnan. exact Hy.
  - exact Hn.
Qed.

(** ** Arrays of doubles *)

Lemma as_doubles_map (a : list float) : as_doubles (map PyFloat a) = Some a.
Proof.
  induction a as [| x a IH]; [reflexivity | ].
  cbn [map as_doubles]. rewrite IH. reflexivity.
Qed.

Lemma as_doubles_Some (l : list pyval) :
  forall a, as_doubles l = Some a -> l = map PyFloat a.
Proof.
  induction l as [| v l IH]; intros a H.
  - injection H as <-. reflexivity.
  - destruct v as [f | z | b | s | ]; try discriminate H.
    cbn [as_doubles] in H. destruct (as_doubles l) as [a' | ]; [ | discriminate H].
    injection H as <-. cbn [map]. rewrite (IH a' eq_refl). reflexivity.
Qed.

(** A NaN anywhere in the array is what [np.min] and [np.max] return. *)
Lemma np_minimum_nan (a b : float) :
  is_nan a = true \/ is_nan b = true -> is_nan (np_minimum a b) = true.
Proof.
  unfold np_minimum. intros [H | H].
  - rewrite H, orb_true_r. exact H.
  - destruct (is_nan a) eqn:Ha; [rewrite orb_true_r; exact Ha | ].
    rewrite (ltb_nan_r a b H). exact H.
Qed.

Lemma np_maximum_nan (a b : float) :
  is_nan a = true \/ is_nan b = true -> is_nan (np_maximum a b) = true.
Proof.
  unfold np_maximum. intros [H | H].
  - rewrite H, orb_true_r. exact H.
  - destruct (is_nan a) eqn:Ha; [rewrite orb_true_r; exact Ha | ].
    rewrite (ltb_nan_l b a H). exact H.
Qed.

Lemma fold_np_minimum_nan (rest : list float) :
  forall x,
    is_nan x = true \/ Exists (fun f => is_nan f = true) rest ->
    is_nan (fold_left np_minimum rest x) = true.
Proof.
  induction rest as [| a rest IH]; intros x H; cbn [fold_left].
  - destruct H as [H | H]; [exact H | inversion H].
  - apply IH. destruct H as [H | H].
    + left. apply np_minimum_nan. left. exact H.
    + inversion H as [? ? Ha | ? ? Hrest]; subst.
      * left. apply np_minimum_nan. right. exact Ha.
      * right. exact Hrest.
Qed.

Lemma fold_np_maximum_nan (rest : list float) :
  forall x,
    is_nan x = true \/ Exists (fun f => is_nan f = true) rest ->
    is_nan (fold_left np_maximum rest x) = true.
Proof.
  induction rest as [| a rest IH]; intros x H; cbn [fold_left].
  - destruct H as [H | H]; [exact H | inversion H].
  - apply IH. destruct H as [H | H].
    + left. apply np_maximum_nan. left. exact H.
    + inversion H as [? ? Ha | ? ? Hrest]; subst.
      * left. apply np_maximum_nan. right. exact Ha.
      * right. exact Hrest.
Qed.

Lemma np_min_nan (a : list float) (lo : float) :
  Exists (fun f => is_nan f = true) a -> np_min a = OK lo -> is_nan lo = true.
Proof.
  intros H Hlo. destruct a as [| x rest]; [discriminate Hlo | ].
  injection Hlo as <-. apply fold_np_minimum_nan.
  inversion H; subst; [left | right]; assumption.
Qed.

(** The infinities among the doubles. *)
Lemma is_infinity_Prim2SF (x : float) :
  is_infinity x = true <-> exists s, Prim2SF x = S754_infinity s.
Proof.
  unfold is_infinity. rewrite FloatAxioms.eqb_spec, FloatAxioms.abs_spec.
  change (Prim2SF infinity) with (S754_infinity false).
  destruct (Prim2SF x) as [s | s | | s m e]; cbn; split;
    try discriminate; try (intros [s' H]; discriminate H).
  - intros _. exists s. reflexivity.
  - intros _. reflexivity.
Qed.

Lemma np_isfinite_rank (x : float) :
  np_isfinite x = true -> (- 2 ^ 2200 < rank x < 2 ^ 2200)%Z.
Proof.
  unfold np_isfinite. intros H. apply andb_true_iff in H. destruct H as [Hn Hi].
  apply negb_true_iff in Hn, Hi.
  assert (HB : (0 < 2 ^ 2200)%Z) by (apply pow2_pos; lia).
  pose proof (Prim2SF_valid x) as Hv. pose proof (Prim2SF_not_nan x Hn) as Hnn.
  unfold rank. destruct (Prim2SF x) as [s | s | | s m e] eqn:E.
  - cbn. lia.
  - assert (Hc : is_infinity x = true) by (apply is_infinity_Prim2SF; eauto).
    congruence.
  - congruence.
  - cbn [valid_binary] in Hv. pose proof (finite_rank_bounds m e Hv) as Hb.
    cbn [SFrank]. destruct s; lia.
Qed.

Lemma infinite_rank (x : float) :
  is_nan x = false -> np_isfinite x = false ->
  (rank x = 2 ^ 2200 \/ rank x = - 2 ^ 2200)%Z.
Proof.
  unfold np_isfinite. intros Hn H. rewrite Hn in H. cbn [negb andb] in H.
  apply negb_false_iff in H. apply is_infinity_Prim2SF in H. destruct H as [s H].
  unfold rank. rewrite H. cbn [SFrank]. destruct s; [right | left]; reflexivity.
Qed.

Lemma np_isfinite_not_nan (x : float) : np_isfinite x = true -> is_nan x = false.
Proof.
  unfold np_isfinite. intros H. apply andb_true_iff in H.
  apply negb_true_iff. apply H.
Qed.

Lemma all_finite_no_nan (a : list float) :
  Forall (fun f => np_isfinite f = true) a ->
  Forall (fun f => is_nan f = false) a.
Proof.
  intros H. eapply Forall_impl; [ | exact H]. intros x. apply np_isfinite_not_nan.
Qed.

(** The range [np.histogram] finds is finite exactly when every item of the
    array is: the least and the greatest item of an array of finite
    doubles are items of it, a NaN anywhere is handed on to both, and an
    infinity is the least or the greatest item. *)
Lemma range_finite (a : list float) (lo hi : float) :
  np_min a = OK lo -> np_max a = OK hi ->
  np_isfinite lo && np_isfinite hi = forallb np_isfinite a.
Proof.
  intros Hlo Hhi.
  destruct (forallb np_isfinite a) eqn:Hall.
  - rewrite forallb_forall in Hall.
    assert (Hfin : Forall (fun f => np_isfinite f = true) a)
      by (apply Forall_forall; exact Hall).
    destruct (np_min_least a lo (all_finite_no_nan a Hfin) Hlo) as [Hin_lo _].
    destruct (np_max_greatest a hi (all_finite_no_nan a Hfin) Hhi) as [Hin_hi _].
    rewrite (Hall lo Hin_lo), (Hall hi Hin_hi). reflexivity.
  - destruct (np_isfinite lo) eqn:Flo; [ | reflexivity].
    destruct (np_isfinite hi) eqn:Fhi; [ | reflexivity]. exfalso.
    assert (Hnan : Forall (fun f => is_nan f = false) a).
    { apply Forall_forall. intros x Hx.
      destruct (is_nan x) eqn:Ex; [ | reflexivity]. exfalso.
      assert (He : Exists (fun f => is_nan f = true) a)
        by (apply Exists_exists; exists x; split; assumption).
      pose proof (np_min_nan a lo He Hlo) as Hc.
      rewrite (np_isfinite_not_nan lo Flo) in Hc. discriminate Hc. }
    destruct (np_min_least a lo Hnan Hlo) as [_ Hle].
    destruct (np_max_greatest a hi Hnan Hhi) as [_ Hge].
    assert (Hsome : exists x, In x a /\ np_isfinite x = false).
    { clear - Hall. induction a as [| x a IH]; [discriminate Hall | ].
      cbn [forallb] in Hall. destruct (np_isfinite x) eqn:Fx.
      - destruct (IH Hall) as [y [Hy Fy]]. exists y. split; [right | ]; assumption.
      - exists x. split; [left; reflexivity | exact Fx]. }
    destruct Hsome as [x [Hx Fx]].
    assert (Nx : is_nan x = false) by (rewrite Forall_forall in Hnan; auto).
    assert (Nlo : is_nan lo = false) by (apply np_isfinite_not_nan; exact Flo).
    assert (Nhi : is_nan hi = false) by (apply np_isfinite_not_nan; exact Fhi).
    pose proof (Hle x Hx) as H1. pose proof (Hge x Hx) as H2.
    rewrite (leb_rank lo x Nlo Nx) in H1. rewrite (leb_rank x hi Nx Nhi) in H2.
    apply Z.leb_le in H1, H2.
    pose proof (np_isfinite_rank lo Flo). pose proof (np_isfinite_rank hi Fhi).
    destruct (infinite_rank x Nx Fx); lia.
Qed.

Section StatisticsOfTheReport.

Variable numpy : Numpy.

(** On an array of doubles the statistics of the report raise [ValueError]
    when an item is a NaN or an infinity, and go on to the binning when
    none is. *)
Lemma report_statistics_doubles (a : list float) :
  a <> [] ->
  report_statistics numpy (map PyFloat a) =
  if forallb np_isfinite a then histogram_bins numpy a else Raise ValueError.
Proof.
  intros Hne. unfold report_statistics. rewrite as_doubles_map.
  destruct a as [| x rest]; [congruence | ].
  cbn [np_min np_max bind].
  rewrite (range_finite (x :: rest) _ _ eq_refl eq_refl). reflexivity.
Qed.

Lemma array_min_doubles (a : list float) :
  array_min numpy (map PyFloat a) = np_min a.
Proof. unfold array_min. rewrite as_doubles_map. reflexivity. Qed.

Lemma array_max_doubles (a : list float) :
  array_max numpy (map PyFloat a) = np_max a.
Proof. unfold array_max. rewrite as_doubles_map. reflexivity. Qed.

(** [generate_pdf_report] without its logging. *)
Lemma generate_pdf_report_steps (env : Environment) (frequencies : list pyval)
    (pdf_filename output_dir : string) (fs : file_system) :
  generate_pdf_report env numpy frequencies pdf_filename output_dir fs =
  match frequencies with
  | [] => (Raise ValueError, fs)
  | _ =>
      match report_statistics numpy frequencies with
      | Raise e => (Raise e, fs)
      | OK _ =>
          let pdf_path := os_path_join output_dir pdf_filename in
          match render_pdf env frequencies pdf_path fs with
          | (OK _, fs1) =>
              match fs1 pdf_path with
              | Some _ => (OK pdf_path, fs1)
              | None => (Raise RuntimeError, fs1)
              end
          | (Raise e, fs1) => (Raise e, fs1)
          end
      end
  end.
Proof.
  unfold generate_pdf_report. rewrite io_try_except_reraise.
  destruct frequencies as [| x rest]; [reflexivity | ].
  unfold io_bind, io_lift.
  destruct (report_statistics numpy (x :: rest)) as [[] | e]; [ | reflexivity].
  cbn zeta.
  destruct (render_pdf env (x :: rest) _ fs) as [[[] | e] fs1]; [ | reflexivity].
  unfold os_path_exists, os_path_getsize.
  destruct (fs1 _) as [size | ] eqn:Hfile; cbn [negb].
  - rewrite Hfile. reflexivity.
  - reflexivity.
Qed.


End StatisticsOfTheReport.

Lemma write_file_same (fs : file_system) (p : string) (size : Z) :
  write_file fs p size p = Some size.
Proof. unfold write_file. rewrite String.eqb_refl. reflexivity. Qed.

Lemma save_audio_encoder_writing (size : Z) (g : NeuroAudioGenerator)
    (output_path : string) (fs : file_system) :
  len_ms (audio_segment g) = OK 30000%Z ->
  save_audio (encoder_writing size) g output_path fs =
  (OK tt, write_file fs output_path size).
Proof.
  intros Hlen. rewrite save_audio_steps.
  unfold io_bind, io_lift, export_and_verify, io_bind, os_path_exists.
  cbn [encoder_writing os_makedirs export_mp3 io_ret].
  rewrite Hlen. cbn [Z.eqb]. rewrite write_file_same. reflexivity.
Qed.

(** [main] up to the report, with an encoder that writes: the artifact is
    there, and the report and the statistics decide the rest. *)
Lemma main_encoder_writing (libm_sin : float -> float) (numpy : Numpy)
    (size : Z) (frequencies : list pyval) (company aroma : string)
    (fs : file_system) :
  main libm_sin (encoder_writing size) numpy frequencies company aroma fs =
  let output_dir := os_path_join "output" company in
  let fs2 := write_file fs (os_path_join output_dir (audio_filename_of company aroma))
               size in
  match generate_pdf_report (encoder_writing size) numpy frequencies
          (pdf_filename_of company aroma) output_dir fs2 with
  | (Raise e, fs3) => (Failed e, fs3)
  | (OK _, fs3) =>
      match array_min numpy frequencies with
      | Raise e => (Failed e, fs3)
      | OK lo =>
          match array_max numpy frequencies with
          | Raise e => (Failed e, fs3)
          | OK hi =>
              (Printed {| frequency_count := length frequencies;
                          audio_file := audio_filename_of company aroma;
                          pdf_file := pdf_filename_of company aroma;
                          frequency_min := lo;
                          frequency_max := hi;
                          aroma_id := aroma;
                          company_name := company |}, fs3)
          end
      end
  end.
Proof.
  destruct (generator_len_ms libm_sin frequencies) as [g [Hg Hlen]].
  unfold main, main_body, io_bind, io_lift.
  cbn [encoder_writing os_makedirs io_ret].
  rewrite init_silence, Hg.
  fold (encoder_writing size).
  rewrite (save_audio_encoder_writing size g _ fs Hlen). cbn zeta.
  destruct (generate_pdf_report _ numpy frequencies _ _ _) as [[p | e] fs3];
    [ | reflexivity].
  destruct (array_min numpy frequencies) as [lo | e]; [ | reflexivity].
  destruct (array_max numpy frequencies) as [hi | e]; reflexivity.
Qed.

(** With directories, encoder and report writer that do their work, and a
    binning that succeeds, [main] prints a result for every array of
    finite doubles that is not empty. *)
Lemma main_prints (libm_sin : float -> float) (numpy : Numpy) (size : Z)
    (x : float) (rest : list float) (company aroma : string) (fs : file_system) :
  Forall (fun f => np_isfinite f = true) (x :: rest) ->
  histogram_bins numpy (x :: rest) = OK tt ->
  main libm_sin (encoder_writing size) numpy (map PyFloat (x :: rest))
    company aroma fs =
  (Printed {| frequency_count := length (x :: rest);
              audio_file := audio_filename_of company aroma;
              pdf_file := pdf_filename_of company aroma;
              frequency_min := fold_left np_minimum rest x;
              frequency_max := fold_left np_maximum rest x;
              aroma_id := aroma;
              company_name := company |},
   after_main size company aroma fs).
Proof.
  intros Hfin Hbins. rewrite main_encoder_writing. cbn zeta.
  rewrite generate_pdf_report_steps.
  rewrite report_statistics_doubles by discriminate.
  replace (forallb np_isfinite (x :: rest)) with true
    by (symmetry; apply forallb_forall; apply Forall_forall; exact Hfin).
  rewrite Hbins. cbn [map]. cbn zeta. cbn [encoder_writing render_pdf].
  rewrite write_file_same.
  change (PyFloat x :: map PyFloat rest) with (map PyFloat (x :: rest)).
  rewrite array_min_doubles, array_max_doubles. cbn [np_min np_max].
  rewrite length_map. reflexivity.
Qed.

(** An array of doubles that holds a NaN or an infinity gets no result:
    the report raises [ValueError] once the artifact is written. *)
Lemma main_fails_on_a_non_finite_item (libm_sin : float -> float)
    (numpy : Numpy) (size : Z) (a : list float) (company aroma : string)
    (fs : file_system) :
  (exists x, In x a /\ np_isfinite x = false) ->
  main libm_sin (encoder_writing size) numpy (map PyFloat a) company aroma fs =
  (Failed ValueError,
   write_file fs
     (os_path_join (os_path_join "output" company)
        (audio_filename_of company aroma)) size).
Proof.
  intros [x [Hx Fx]]. rewrite main_encoder_writing. cbn zeta.
  rewrite generate_pdf_report_steps.
  destruct a as [| y rest]; [destruct Hx | ].
  rewrite report_statistics_doubles by discriminate.
  replace (forallb np_isfinite (y :: rest)) with false; [reflexivity | ].
  symmetry. destruct (forallb np_isfinite (y :: rest)) eqn:E; [ | reflexivity].
  rewrite forallb_forall in E. rewrite (E x Hx) in Fx. discriminate Fx.
Qed.


(** ** From a test on doubles to the integer sample *)

Lemma rank_10922 : rank 10922 = (10922 * 2 ^ 1074)%Z.
Proof. vm_compute. reflexivity. Qed.

Lemma rank_neg_10922 : rank (-10922) = (- (10922 * 2 ^ 1074))%Z.
Proof. vm_compute. reflexivity. Qed.

(** The integer part of a finite double below 10922 in magnitude. *)
Lemma finite_trunc_small (m : positive) (e : Z) :
  bounded prec emax m e = true ->
  (Zpos m * 2 ^ (e + 1074) < 10922 * 2 ^ 1074)%Z ->
  (0 <= match e with
        | Zneg p => Z.shiftr (Zpos m) (Zpos p)
        | _ => Z.shiftl (Zpos m) e
        end < 10922)%Z.
Proof.
  intros Hv Hr. destruct (bounded_canonical m e Hv) as [He _].
  assert (HP : (0 < 2 ^ 1074)%Z) by (apply pow2_pos; lia).
  destruct e as [| p | p].
  - rewrite Z.shiftl_0_r. change (0 + 1074)%Z with 1074%Z in Hr.
    apply Z.mul_lt_mono_pos_r in Hr; lia.
  - rewrite Z.shiftl_mul_pow2 by lia.
    rewrite Z.pow_add_r, Z.mul_assoc in Hr by lia.
    apply Z.mul_lt_mono_pos_r in Hr; [ | exact HP].
    pose proof (pow2_pos (Zpos p)). lia.
  - rewrite Z.shiftr_div_pow2 by lia.
    assert (Hq : (0 < 2 ^ Zpos p)%Z) by (apply pow2_pos; lia).
    assert (Hsplit : (2 ^ 1074 = 2 ^ (Zneg p + 1074) * 2 ^ Zpos p)%Z).
    { rewrite <- Z.pow_add_r by lia. f_equal. lia. }
    rewrite Hsplit, Z.mul_assoc, (Z.mul_comm 10922), <- Z.mul_assoc in Hr.
    rewrite (Z.mul_comm (Zpos m)) in Hr.
    apply Z.mul_lt_mono_pos_l in Hr; [ | apply pow2_pos; lia].
    split.
    + apply Z.div_pos; lia.
    + apply Z.div_lt_upper_bound; lia.
Qed.

Lemma int_of_float_small (x : float) :
  (-10922 <? x)%float && (x <? 10922)%float = true ->
  exists z, Num.int_of_float x = OK z /\ (-10922 < z < 10922)%Z.
Proof.
  intros H. apply andb_true_iff in H. destruct H as [Hlo Hhi].
  destruct (ltb_true_not_nan _ _ Hhi) as [Hnan Hnan'].
  destruct (ltb_true_not_nan _ _ Hlo) as [Hnan'' _].
  rewrite (ltb_rank _ _ Hnan Hnan'), rank_10922 in Hhi.
  rewrite (ltb_rank _ _ Hnan'' Hnan), rank_neg_10922 in Hlo.
  apply Z.ltb_lt in Hhi, Hlo.
  unfold rank in Hhi, Hlo. unfold Num.int_of_float.
  pose proof (Prim2SF_valid x) as Hv.
  pose proof (Prim2SF_not_nan x Hnan) as Hn.
  assert (HP : (0 < 2 ^ 1074)%Z) by (apply pow2_pos; lia).
  assert (HB : (10922 * 2 ^ 1074 < 2 ^ 2200)%Z).
  { apply Z.lt_trans with (2 ^ 14 * 2 ^ 1074)%Z.
    - apply Z.mul_lt_mono_pos_r; [exact HP | reflexivity].
    - rewrite <- Z.pow_add_r by lia. apply Z.pow_lt_mono_r; lia. }
  destruct (Prim2SF x) as [s | s | | s m e]; [ | | congruence | ];
    cbn [SFrank valid_binary] in *.
  - exists 0%Z. split; [reflexivity | lia].
  - exfalso. set (B := (2 ^ 2200)%Z) in *. destruct s; lia.
  - assert (Hr : (Zpos m * 2 ^ (e + 1074) < 10922 * 2 ^ 1074)%Z)
      by (destruct s; lia).
    pose proof (finite_trunc_small m e Hv Hr) as Ha.
    eexists. split; [reflexivity | ]. destruct s; lia.
Qed.

(** ** Items that are produced *)

Section ItemsProduced.

Variable libm_sin : float -> float.
Variables sine_of gain : float.

Lemma Sine_sample_ok (n : int) :
  item_ok libm_sin sine_of gain n = true ->
  Sine_sample libm_sin sine_of gain n
  = OK (trunc (Sine_value libm_sin sine_of gain n))
  /\ (-10922 < trunc (Sine_value libm_sin sine_of gain n) < 10922)%Z.
Proof.
  unfold item_ok. intros H.
  apply andb_true_iff in H. destruct H as [H Hhi].
  apply andb_true_iff in H. destruct H as [Hfin Hlo].
  apply negb_true_iff in Hfin.
  assert (Hsmall : (-10922 <? Sine_value libm_sin sine_of gain n)%float
                   && (Sine_value libm_sin sine_of gain n <? 10922)%float = true)
    by (rewrite Hlo, Hhi; reflexivity).
  destruct (int_of_float_small _ Hsmall) as [z [Hz Hrange]].
  unfold trunc. rewrite Hz. split; [ | exact Hrange].
  unfold Sine_sample, math_sin. rewrite Hfin. cbn [bind].
  fold (Sine_value libm_sin sine_of gain n). rewrite Hz. cbn [bind].
  unfold array_h_item.
  assert (Hin : ((-32768 <=? z) && (z <=? 32767))%Z = true).
  { apply andb_true_iff. split; apply Z.leb_le; lia. }
  rewrite Hin. reflexivity.
Qed.

Lemma Sine_samples_ok (k : nat) :
  forall n,
    forallb (item_ok libm_sin sine_of gain) (counters k n) = true ->
    Sine_samples libm_sin sine_of gain k n
    = OK (map (fun i => trunc (Sine_value libm_sin sine_of gain i)) (counters k n)).
Proof.
  induction k as [| k IH]; intros n H; cbn [Sine_samples counters map].
  - reflexivity.
  - cbn [counters forallb] in H. apply andb_true_iff in H. destruct H as [H1 H2].
    destruct (Sine_sample_ok n H1) as [Hs _]. rewrite Hs. cbn [bind].
    rewrite (IH _ H2). reflexivity.
Qed.


Lemma counters_length (k : nat) : forall n, length (counters k n) = k.
Proof.
  induction k as [| k IH]; intros n; cbn [counters length]; [reflexivity | ].
  rewrite IH. reflexivity.
Qed.

End ItemsProduced.

Lemma sample_count_positive : exists k, Z.to_nat 1323000 = S k.
Proof.
  destruct (Z.to_nat 1323000) as [| k] eqn:E; [lia | ].
  exists k. reflexivity.
Qed.

(** The tone of [generate_tone], when every item passes the test. *)
Lemma generate_tone_ok (libm_sin : float -> float) (hz freq : pyval)
    (sine_of : float) :
  clamp hz = OK freq ->
  Sine_sine_of freq Config.SAMPLE_RATE = OK sine_of ->
  forallb (item_ok libm_sin sine_of db_to_float_DEFAULT_VOLUME)
          (counters (Z.to_nat 1323000) 0%uint63) = true ->
  generate_tone libm_sin hz (Config.TOTAL_DURATION_SECONDS * 1000)
  = OK (tone_at libm_sin sine_of).
Proof.
  intros Hclamp Hsine Hok. unfold generate_tone. rewrite Hclamp. cbn [bind].
  unfold to_audio_segment. rewrite frames_in_config. cbn [bind].
  destruct sample_count_positive as [k Hk].
  rewrite Hk, Hsine. cbn [bind]. rewrite <- Hk.
  rewrite (Sine_samples_ok _ _ _ _ _ Hok). reflexivity.
Qed.

Lemma tone_samples_length (libm_sin : float -> float) (sine_of : float) :
  length (tone_samples libm_sin sine_of) = Z.to_nat 1323000.
Proof. unfold tone_samples. rewrite length_map. apply counters_length. Qed.

(** ** The two tones of the band's bounds, on the reference sine *)

Lemma items_ok_22000 :
  forallb (item_ok SinRef.sin sine_of_22000 db_to_float_DEFAULT_VOLUME)
          (counters (Z.to_nat 1323000) 0%uint63) = true.
Proof. vm_compute. reflexivity. Qed.

Lemma items_ok_18000 :
  forallb (item_ok SinRef.sin sine_of_18000 db_to_float_DEFAULT_VOLUME)
          (counters (Z.to_nat 1323000) 0%uint63) = true.
Proof. vm_compute. reflexivity. Qed.

(** 1 THz is 1e12 Hz, clamped to 22000 Hz; 0 THz is 0 Hz, clamped to
    18000 Hz. *)
Lemma tone_for_1THz :
  tone_for SinRef.sin (PyFloat 1) = OK (tone_at SinRef.sin sine_of_22000).
Proof.
  unfold tone_for. rewrite thz_to_hz_float. cbn [is_nan bind].
  apply generate_tone_ok with (freq := PyInt 22000).
  - vm_compute. reflexivity.
  - vm_compute. reflexivity.
  - exact items_ok_22000.
Qed.


(** ** The mix, one sample position at a time *)

Lemma saturate16_in_int16 (v : Z) : in_int16 (saturate16 v).
Proof.
  unfold saturate16, in_int16.
  destruct (Z.gtb_spec v 32767); [lia | ].
  destruct (Z.ltb_spec v (-32768)); lia.
Qed.

Lemma saturate16_id (v : Z) : in_int16 v -> saturate16 v = v.
Proof.
  unfold saturate16, in_int16. intros H.
  destruct (Z.gtb_spec v 32767); [lia | ].
  destruct (Z.ltb_spec v (-32768)); [lia | reflexivity].
Qed.

Lemma nth_add_samples (a : list Z) :
  forall b i,
    i < length a -> i < length b ->
    nth i (add_samples a b) 0%Z = saturate16 (nth i a 0 + nth i b 0)%Z.
Proof.
  induction a as [| x a IH]; intros [| y b] i Ha Hb; cbn [length] in *; try lia.
  destruct i as [| i]; cbn [add_samples nth]; [reflexivity | ].
  apply IH; lia.
Qed.

Lemma sample_at_mix (seg tone : AudioSegment) (i : nat) :
  length (samples tone) = length (samples seg) ->
  i < length (samples seg) ->
  sample_at i (mix seg tone)
  = saturate16 (sample_at i seg + sample_at i tone)%Z.
Proof.
  intros Hlen Hi. unfold sample_at, mix, spawn. cbn [samples].
  rewrite overlay_data_same_length by (symmetry; exact Hlen).
  apply nth_add_samples; lia.
Qed.

Lemma sample_at_fold_mix (tones : list AudioSegment) (i : nat) :
  forall seg,
    Forall (fun t => length (samples t) = length (samples seg)) tones ->
    i < length (samples seg) ->
    sample_at i (fold_left mix tones seg)
    = saturating_sum (sample_at i seg) (column i tones).
Proof.
  induction tones as [| t tones IH]; intros seg Hall Hi;
    cbn [fold_left column map saturating_sum].
  - reflexivity.
  - inversion Hall as [| t' tones' Ht Htones]; subst.
    rewrite IH.
    + rewrite (sample_at_mix seg t i Ht Hi). reflexivity.
    + rewrite mix_length. exact Htones.
    + rewrite mix_length. exact Hi.
Qed.


(** ** The tones that are synthesized *)

Section SynthesizedTones.

Variable libm_sin : float -> float.

Lemma Sine_samples_shape (sine_of gain : float) (k : nat) :
  forall n data,
    Sine_samples libm_sin sine_of gain k n = OK data ->
    length data = k /\ Forall in_int16 data.
Proof.
  induction k as [| k IH]; intros n data H; cbn [Sine_samples] in H.
  - injection H as <-. split; [reflexivity | constructor].
  - destruct (Sine_sample libm_sin sine_of gain n) as [s | e] eqn:Hs;
      [ | discriminate H].
    cbn [bind] in H.
    destruct (Sine_samples libm_sin sine_of gain k (n + 1)%uint63) as [rest | e] eqn:Hr;
      [ | discriminate H].
    cbn [bind] in H. injection H as <-.
    destruct (IH _ _ Hr) as [Hlen Hall].
    split; [cbn [length]; rewrite Hlen; reflexivity | ].
    constructor; [ | exact Hall].
    unfold Sine_sample in Hs.
    destruct (math_sin libm_sin (sine_of * of_uint63 n)) as [v | e]; [ | discriminate Hs].
    cbn [bind] in Hs.
    destruct (Num.int_of_float (v * 32767 * gain)) as [z | e]; [ | discriminate Hs].
    cbn [bind] in Hs. unfold array_h_item in Hs.
    destruct ((-32768 <=? z) && (z <=? 32767))%Z eqn:Hz; [ | discriminate Hs].
    injection Hs as <-. apply andb_true_iff in Hz. destruct Hz as [H1 H2].
    apply Z.leb_le in H1, H2. split; assumption.
Qed.

Lemma tone_for_shape (thz : pyval) (tone : AudioSegment) :
  tone_for libm_sin thz = OK tone ->
  length (samples tone) = Z.to_nat 1323000
  /\ Forall in_int16 (samples tone).
Proof.
  unfold tone_for. intros H.
  destruct (thz_to_hz thz) as [hz | e]; [ | discriminate H]. cbn [bind] in H.
  unfold generate_tone in H.
  rewrite try_except_catchable in H.
  2: { apply catchable_bind; [apply clamp_catchable | intros a].
       apply to_audio_segment_catchable. }
  destruct (clamp hz) as [freq | e]; [ | discriminate H]. cbn [bind] in H.
  unfold to_audio_segment in H. rewrite frames_in_config in H. cbn [bind] in H.
  destruct (Z.to_nat 1323000) as [| k] eqn:Hk.
  - cbn [bind] in H. injection H as <-. cbn [samples]. split; [reflexivity | constructor].
  - destruct (Sine_sine_of freq Config.SAMPLE_RATE) as [s | e]; [ | discriminate H].
    cbn [bind] in H.
    destruct (Sine_samples libm_sin s db_to_float_DEFAULT_VOLUME (S k) 0%uint63)
      as [data | e] eqn:Hd; [ | discriminate H].
    cbn [bind] in H. injection H as <-. cbn [samples].
    exact (Sine_samples_shape _ _ _ _ _ Hd).
Qed.

Lemma synthesized_shape (l : list pyval) :
  Forall (fun t => length (samples t) = Z.to_nat 1323000
                   /\ Forall in_int16 (samples t))
         (synthesized libm_sin l).
Proof.
  induction l as [| thz rest IH]; [constructor | ].
  rewrite synthesized_cons. apply Forall_app. split; [ | exact IH].
  unfold synthesized. cbn [flat_map].
  destruct (tone_for libm_sin thz) as [tone | e] eqn:Ht; cbn [app].
  - constructor; [ | constructor]. exact (tone_for_shape thz tone Ht).
  - constructor.
Qed.

Lemma synthesized_lengths (l : list pyval) :
  Forall (fun t => length (samples t) = length (samples silence))
         (synthesized libm_sin l).
Proof.
  eapply Forall_impl; [ | apply synthesized_shape].
  intros t [Hlen _]. rewrite Hlen. unfold silence. cbn [samples].
  rewrite repeat_length. reflexivity.
Qed.

(** Every sample of the buffer is the saturating sum, in the order of the
    list, of the samples the synthesized tones hold at its position. *)
Lemma sample_at_add_frequencies (l : list pyval) (i : nat) :
  i < Z.to_nat 1323000 ->
  sample_at i (fold_left mix (synthesized libm_sin l) silence)
  = saturating_sum 0 (column i (synthesized libm_sin l)).
Proof.
  intros Hi.
  assert (H0 : sample_at i silence = 0%Z).
  { unfold sample_at, silence. cbn [samples]. apply nth_repeat. }
  rewrite sample_at_fold_mix.
  - rewrite H0. reflexivity.
  - apply synthesized_lengths.
  - unfold silence. cbn [samples]. rewrite repeat_length. exact Hi.
Qed.

End SynthesizedTones.

Lemma saturating_sum_in_int16 (xs : list Z) :
  forall start, in_int16 start -> in_int16 (saturating_sum start xs).
Proof.
  induction xs as [| x xs IH]; intros start H; cbn [saturating_sum fold_left].
  - exact H.
  - apply IH. apply saturate16_in_int16.
Qed.

(** ** Sample 149 of the two tones *)

Lemma nth_counters_149 :
  nth 149 (counters (Z.to_nat 1323000) 0%uint63) 0%uint63 = 149%uint63.
Proof. vm_compute. reflexivity. Qed.

Lemma sample_at_tone (sine_of : float) (i : nat) :
  i < Z.to_nat 1323000 ->
  sample_at i (tone_at SinRef.sin sine_of)
  = trunc (Sine_value SinRef.sin sine_of db_to_float_DEFAULT_VOLUME
             (nth i (counters (Z.to_nat 1323000) 0%uint63) 0%uint63)).
Proof.
  intros Hi. unfold sample_at, tone_at, tone_samples. cbn [samples].
  rewrite (nth_indep _ 0%Z
             (trunc (Sine_value SinRef.sin sine_of db_to_float_DEFAULT_VOLUME 0%uint63))).
  - apply (map_nth (fun n => trunc (Sine_value SinRef.sin sine_of
                                      db_to_float_DEFAULT_VOLUME n))).
  - rewrite length_map, counters_length. exact Hi.
Qed.

Lemma index_149 : 149 < Z.to_nat 1323000.
Proof. lia. Qed.

Lemma tone_22000_at_149 : sample_at 149 tone_22000 = 9046%Z.
Proof.
  unfold tone_22000. rewrite (sample_at_tone _ _ index_149), nth_counters_149.
  vm_compute. reflexivity.
Qed.

Lemma tone_18000_at_149 : sample_at 149 tone_18000 = (-9474)%Z.
Proof.
  unfold tone_18000. rewrite (sample_at_tone _ _ index_149), nth_counters_149.
  vm_compute. reflexivity.
Qed.

Lemma synthesized_high (rest : list pyval) :
  synthesized SinRef.sin (thz_high :: rest)
  = tone_22000 :: synthesized SinRef.sin rest.
Proof.
  rewrite synthesized_cons. unfold synthesized at 1. cbn [flat_map].
  unfold thz_high. rewrite tone_for_1THz. reflexivity.
Qed.


Lemma synthesized_nil (libm_sin : float -> float) : synthesized libm_sin [] = [].
Proof. reflexivity. Qed.

Lemma tone_22000_length : length (samples tone_22000) = length (samples silence).
Proof.
  unfold tone_22000, tone_at, silence. cbn [samples].
  rewrite tone_samples_length, repeat_length. reflexivity.
Qed.

Lemma tone_18000_length : length (samples tone_18000) = length (samples silence).
Proof.
  unfold tone_18000, tone_at, silence. cbn [samples].
  rewrite tone_samples_length, repeat_length. reflexivity.
Qed.

(** Sample 149 of a mix from silence of tones of the full length. *)
Lemma sample_149_of_mix (tones : list AudioSegment) :
  Forall (fun t => length (samples t) = length (samples silence)) tones ->
  sample_at 149 (fold_left mix tones silence)
  = saturating_sum 0 (column 149 tones).
Proof.
  intros Hall.
  assert (H0 : sample_at 149 silence = 0%Z).
  { unfold sample_at, silence. cbn [samples]. apply nth_repeat. }
  rewrite (sample_at_fold_mix tones 149 silence Hall).
  - rewrite H0. reflexivity.
  - unfold silence. cbn [samples]. rewrite repeat_length. exact index_149.
Qed.

Lemma saturating_sum_three (a : Z) :
  a = 9046%Z -> saturating_sum 0 [a; a; a] = 27138%Z.
Proof. intros ->. vm_compute. reflexivity. Qed.

Lemma saturating_sum_four (a : Z) :
  a = 9046%Z -> saturating_sum 0 [a; a; a; a] = 32767%Z.
Proof. intros ->. vm_compute. reflexivity. Qed.



Ltac full_length :=
  repeat (constructor;
          [ match goal with
            | |- length (samples tone_22000) = _ => exact tone_22000_length
            | |- length (samples tone_18000) = _ => exact tone_18000_length
            end | ]);
  constructor.

(** ** Saturation during accumulation *)

(** C9, as the code has it: the overlay adds in the 16-bit samples of the
    segment itself.  At every position the buffer holds the sum of the
    tones' samples taken in the order of the list and truncated to
    [-32768, 32767] after each addition; no wider partial sum is kept, and
    nothing is left to clip when the buffer is exported. *)
Theorem overlay_saturates_each_partial_sum
    (libm_sin : float -> float) (l : list pyval) (i : nat) :
  i < Z.to_nat 1323000 ->
  exists g,
    add_frequencies libm_sin {| audio_segment := silence |} l = OK g
    /\ sample_at i (audio_segment g)
       = saturating_sum 0 (column i (synthesized libm_sin l))
    /\ in_int16 (sample_at i (audio_segment g)).
Proof.
  intros Hi. eexists. split; [apply add_frequencies_mix | ].
  cbn [audio_segment]. rewrite (sample_at_add_frequencies libm_sin l i Hi).
  split; [reflexivity | ].
  apply saturating_sum_in_int16. unfold in_int16. lia.
Qed.

Lemma overlay_saturates_each_partial_sum_witness :
  149 < Z.to_nat 1323000
  /\ exists g,
       add_frequencies SinRef.sin {| audio_segment := silence |}
         [thz_high; thz_low; thz_high] = OK g
       /\ sample_at 149 (audio_segment g)
          = saturating_sum 0
              (column 149 (synthesized SinRef.sin [thz_high; thz_low; thz_high]))
       /\ in_int16 (sample_at 149 (audio_segment g)).
Proof.
  split; [exact index_149 | ].
  exact (overlay_saturates_each_partial_sum SinRef.sin
           [thz_high; thz_low; thz_high] 149 index_149).
Defined.

(** C9, the claim as stated fails: four tones of 1 THz.  Each holds 9046 at
    sample 149; after three overlays the buffer holds their sum, 27138; the
    fourth overlay leaves 32767 there, not 36184: the partial sum is
    clipped while the tones are accumulated. *)
Lemma fourth_overlay_clips_sample_149 :
  tone_for SinRef.sin thz_high = OK tone_22000
  /\ sample_at 149 tone_22000 = 9046%Z
  /\ add_frequencies SinRef.sin {| audio_segment := silence |}
       [thz_high; thz_high; thz_high]
     = OK {| audio_segment :=
               fold_left mix [tone_22000; tone_22000; tone_22000] silence |}
  /\ sample_at 149 (fold_left mix [tone_22000; tone_22000; tone_22000] silence)
     = 27138%Z
  /\ add_frequencies SinRef.sin {| audio_segment := silence |}
       [thz_high; thz_high; thz_high; thz_high]
     = OK {| audio_segment :=
               fold_left mix [tone_22000; tone_22000; tone_22000; tone_22000]
                 silence |}
  /\ sample_at 149
       (fold_left mix [tone_22000; tone_22000; tone_22000; tone_22000] silence)
     = 32767%Z.
Proof.
  split; [exact tone_for_1THz | ].
  split; [exact tone_22000_at_149 | ].
  split.
  { rewrite add_frequencies_mix, !synthesized_high, synthesized_nil. reflexivity. }
  split.
  { rewrite sample_149_of_mix by full_length. cbn [column map].
    apply saturating_sum_three. exact tone_22000_at_149. }
  split.
  { rewrite add_frequencies_mix, !synthesized_high, synthesized_nil. reflexivity. }
  rewrite sample_149_of_mix by full_length. cbn [column map].
  apply saturating_sum_four. exact tone_22000_at_149.
Qed.

(** ** The order of the overlays *)





Section OrderOfOverlays.

Variable libm_sin : float -> float.






End OrderOfOverlays.








(** ** The company name *)

Lemma str_split_length (c : ascii) (s : string) :
  length (str_split c s) = S (str_count c s).
Proof.
  induction s as [| a s IH]; cbn [str_split str_count]; [reflexivity | ].
  destruct (Ascii.eqb a c).
  - cbn [length]. rewrite IH. reflexivity.
  - destruct (str_split c s) as [| h t]; [discriminate IH | ].
    cbn [length] in *. rewrite IH. reflexivity.
Qed.

Lemma str_split_pieces (c : ascii) (s : string) :
  Forall (fun piece => str_count c piece = 0) (str_split c s).
Proof.
  induction s as [| a s IH]; cbn [str_split].
  - constructor; [reflexivity | constructor].
  - destruct (Ascii.eqb a c) eqn:Hac.
    + constructor; [reflexivity | exact IH].
    + destruct (str_split c s) as [| h t].
      * constructor; [ | constructor]. cbn [str_count]. rewrite Hac. reflexivity.
      * inversion IH as [| ? ? Hh Ht]; subst. constructor; [ | exact Ht].
        cbn [str_count]. rewrite Hac. exact Hh.
Qed.

Lemma str_count_app (c : ascii) (a b : string) :
  str_count c (a ++ b) = str_count c a + str_count c b.
Proof.
  induction a as [| x a IH]; cbn [String.append str_count]; [reflexivity | ].
  rewrite IH. lia.
Qed.

Lemma string_app_assoc (a b c : string) :
  ((a ++ b) ++ c)%string = (a ++ (b ++ c))%string.
Proof.
  induction a as [| x a IH]; cbn [String.append]; [reflexivity | ].
  rewrite IH. reflexivity.
Qed.

Lemma string_app_nil_r (a : string) : (a ++ "")%string = a.
Proof.
  induction a as [| x a IH]; cbn [String.append]; [reflexivity | ].
  rewrite IH. reflexivity.
Qed.

(** The first piece is the text before the first separator. *)
Lemma str_split_hd (c : ascii) (s : string) :
  exists rest,
    s = (hd EmptyString (str_split c s) ++ rest)%string
    /\ (rest = EmptyString \/ str_startswith c rest = true).
Proof.
  induction s as [| a s IH]; cbn [str_split].
  - exists EmptyString. split; [reflexivity | left; reflexivity].
  - destruct (Ascii.eqb a c) eqn:Hac.
    + exists (String a s). split; [reflexivity | right]. exact Hac.
    + destruct IH as [rest [Hs Hrest]].
      pose proof (str_split_length c s) as Hlen.
      destruct (str_split c s) as [| h t]; [discriminate Hlen | ].
      cbn [hd] in *. exists rest. split; [ | exact Hrest].
      cbn [String.append]. rewrite <- Hs. reflexivity.
Qed.

(** The last piece is the text after the last separator. *)
Lemma str_split_last (c : ascii) (s : string) :
  exists pre,
    s = (pre ++ last (str_split c s) EmptyString)%string
    /\ ((pre = EmptyString /\ str_count c s = 0)
        \/ exists p, pre = (p ++ String c EmptyString)%string
                     /\ S (str_count c p) = str_count c s).
Proof.
  induction s as [| a s IH]; cbn [str_split str_count].
  - exists EmptyString. split; [reflexivity | left; split; reflexivity].
  - destruct IH as [pre [Hs Hpre]].
    pose proof (str_split_length c s) as Hlen.
    destruct (Ascii.eqb a c) eqn:Hac.
    + apply Ascii.eqb_eq in Hac. subst a.
      destruct (str_split c s) as [| h t] eqn:Hsplit; [discriminate Hlen | ].
      exists (String c pre). split.
      * cbn [String.append]. rewrite Hs at 1. reflexivity.
      * right. destruct Hpre as [[-> H0] | [p [-> Hp]]].
        -- exists EmptyString. split; [reflexivity | ]. rewrite H0. reflexivity.
        -- exists (String c p). split; [reflexivity | ].
           cbn [str_count]. rewrite Ascii.eqb_refl. lia.
    + destruct (str_split c s) as [| h t] eqn:Hsplit; [discriminate Hlen | ].
      destruct Hpre as [[-> H0] | [p [-> Hp]]].
      * exists EmptyString. cbn [length] in Hlen. rewrite H0 in Hlen.
        destruct t; [ | discriminate Hlen]. cbn [last String.append] in *.
        split; [rewrite <- Hs; reflexivity | ].
        left. split; [reflexivity | exact H0].
      * exists (String a (p ++ String c EmptyString)). split.
        -- cbn [String.append]. rewrite Hs at 1. f_equal. f_equal.
           destruct t as [| h' t'].
           ++ cbn [length] in Hlen. lia.
           ++ reflexivity.
        -- right. exists (String a p). split; [reflexivity | ].
           cbn [str_count]. rewrite Hac. cbn. exact Hp.
Qed.

Lemma last_In {A : Type} (l : list A) (d : A) : l <> [] -> In (last l d) l.
Proof.
  induction l as [| x l IH]; [congruence | ]. intros _.
  destruct l as [| y l]; [left; reflexivity | ].
  right. apply IH. discriminate.
Qed.

Lemma str_split_last_piece (c : ascii) (s : string) :
  str_count c (last (str_split c s) EmptyString) = 0.
Proof.
  pose proof (str_split_pieces c s) as H.
  rewrite Forall_forall in H. apply H. apply last_In.
  pose proof (str_split_length c s) as Hlen.
  destruct (str_split c s); [discriminate Hlen | discriminate].
Qed.

Lemma str_split_first_piece (c : ascii) (s : string) :
  str_count c (hd EmptyString (str_split c s)) = 0.
Proof.
  pose proof (str_split_pieces c s) as H.
  destruct (str_split c s) as [| h t]; [reflexivity | ].
  inversion H; subst. assumption.
Qed.

(** X1: [main] falls back on the company name "Unknown" for every file
    name with fewer than two underscores, whatever else the name holds. *)
Theorem company_name_of_few_underscores (original_name : string) :
  str_count "_" original_name < 2 ->
  company_name_of original_name = "Unknown"%string.
Proof.
  intros H. unfold company_name_of. rewrite str_split_length.
  destruct (2 <? S (str_count "_" original_name)) eqn:Hlt; [ | reflexivity].
  apply Nat.ltb_lt in Hlt. lia.
Qed.

Lemma company_name_of_few_underscores_witness :
  str_count "_" "frequencies_Acme.xlsx" < 2
  /\ company_name_of "frequencies_Acme.xlsx" = "Unknown"%string.
Proof.
  assert (H : str_count "_" "frequencies_Acme.xlsx" < 2) by (cbn; lia).
  split; [exact H | ].
  exact (company_name_of_few_underscores "frequencies_Acme.xlsx" H).
Defined.

(** X2: for a file name with at least two underscores the company name is
    the text between the last underscore and the first dot after it, or
    the end of the name: the name reads [pre _ company rest] where [pre]
    holds an underscore, [company] and [rest] hold none, [company] holds no
    dot, and [rest] is empty or starts with a dot. *)
Theorem company_name_of_between_last_underscore_and_dot (original_name : string) :
  2 <= str_count "_" original_name ->
  exists pre rest,
    original_name = (pre ++ "_" ++ company_name_of original_name ++ rest)%string
    /\ 1 <= str_count "_" pre
    /\ str_count "_" (company_name_of original_name) = 0
    /\ str_count "." (company_name_of original_name) = 0
    /\ str_count "_" rest = 0
    /\ (rest = EmptyString \/ str_startswith "." rest = true).
Proof.
  intros H. unfold company_name_of. rewrite str_split_length.
  replace (2 <? S (str_count "_" original_name)) with true
    by (symmetry; apply Nat.ltb_lt; lia).
  destruct (str_split_last "_" original_name) as [pre [Hname Hpre]].
  destruct Hpre as [[_ H0] | [p [-> Hp]]]; [lia | ].
  pose proof (str_split_last_piece "_" original_name) as Hlast.
  set (piece := last (str_split "_" original_name) EmptyString) in *.
  destruct (str_split_hd "." piece) as [rest [Hpiece Hrest]].
  pose proof (str_split_first_piece "." piece) as Hdot.
  set (company := hd EmptyString (str_split "." piece)) in *.
  rewrite Hpiece, str_count_app in Hlast.
  exists p, rest. split; [ | repeat split; try lia; exact Hrest].
  rewrite Hname, Hpiece, string_app_assoc. reflexivity.
Qed.

Lemma company_name_of_between_last_underscore_and_dot_witness :
  2 <= str_count "_" "freq_data_Acme.xlsx"
  /\ exists pre rest,
       "freq_data_Acme.xlsx"%string =
       (pre ++ "_" ++ company_name_of "freq_data_Acme.xlsx" ++ rest)%string
       /\ 1 <= str_count "_" pre
       /\ str_count "_" (company_name_of "freq_data_Acme.xlsx") = 0
       /\ str_count "." (company_name_of "freq_data_Acme.xlsx") = 0
       /\ str_count "_" rest = 0
       /\ (rest = EmptyString \/ str_startswith "." rest = true).
Proof.
  assert (H : 2 <= str_count "_" "freq_data_Acme.xlsx") by (cbn; lia).
  split; [exact H | ].
  exact (company_name_of_between_last_underscore_and_dot "freq_data_Acme.xlsx" H).
Defined.

(** ** Paths *)

Lemma list_ascii_of_string_app (a b : string) :
  list_ascii_of_string (a ++ b) = list_ascii_of_string a ++ list_ascii_of_string b.
Proof.
  induction a as [| x a IH]; cbn [String.append list_ascii_of_string app];
    [reflexivity | ].
  rewrite IH. reflexivity.
Qed.

Lemma upto_slash_skips (l r : list ascii) :
  Forall (fun c => Ascii.eqb c "/" = false) l ->
  upto_slash (l ++ "/"%char :: r) = "/"%char :: r.
Proof.
  induction 1 as [| c l Hc _ IH]; cbn [app upto_slash]; [reflexivity | ].
  rewrite Hc. exact IH.
Qed.

Lemma str_count_zero_Forall (c : ascii) (s : string) :
  str_count c s = 0 ->
  Forall (fun a => Ascii.eqb a c = false) (list_ascii_of_string s).
Proof.
  induction s as [| a s IH]; cbn [str_count list_ascii_of_string]; intros H.
  - constructor.
  - destruct (Ascii.eqb a c) eqn:Hac; [discriminate H | ].
    constructor; [exact Hac | apply IH; exact H].
Qed.

Lemma str_endswith_rev (c : ascii) (s : string) :
  s <> EmptyString -> str_endswith c s = false ->
  exists a r, rev (list_ascii_of_string s) = a :: r /\ Ascii.eqb a c = false.
Proof.
  induction s as [| x s IH]; [congruence | ]. intros _ H.
  cbn [list_ascii_of_string rev]. destruct s as [| y s].
  - exists x, []. split; [reflexivity | exact H].
  - destruct IH as [a [r [Hrev Ha]]]; [discriminate | exact H | ].
    rewrite Hrev. exists a, (r ++ [x]). split; [reflexivity | exact Ha].
Qed.

(** [dirname] undoes a [join] with a file name. *)
Lemma os_path_dirname_of_file (dir file : string) :
  dir <> EmptyString -> str_endswith "/" dir = false ->
  str_count "/" file = 0 ->
  os_path_dirname (dir ++ "/" ++ file) = dir.
Proof.
  intros Hdir Hend Hfile. unfold os_path_dirname.
  rewrite list_ascii_of_string_app. cbn [String.append list_ascii_of_string].
  rewrite rev_app_distr. cbn [rev]. rewrite <- app_assoc. cbn [app].
  rewrite upto_slash_skips.
  2: { apply Forall_rev. apply str_count_zero_Forall. exact Hfile. }
  destruct (str_endswith_rev "/" dir Hdir Hend) as [a [r [Hrev Ha]]].
  cbn [strip_slashes]. rewrite Ascii.eqb_refl. rewrite Hrev.
  cbn [strip_slashes]. rewrite Ha. rewrite <- Hrev, rev_involutive.
  apply string_of_list_ascii_of_string.
Qed.

Lemma str_endswith_app (c : ascii) (a b : string) :
  b <> EmptyString -> str_endswith c (a ++ b) = str_endswith c b.
Proof.
  intros Hb. induction a as [| x a IH]; cbn [String.append]; [reflexivity | ].
  cbn [str_endswith]. rewrite IH.
  destruct (a ++ b)%string eqn:Hab; [ | reflexivity].
  destruct a; [cbn in Hab; congruence | discriminate Hab].
Qed.

Lemma str_endswith_absent (c : ascii) (s : string) :
  str_count c s = 0 -> str_endswith c s = false.
Proof.
  induction s as [| a s IH]; [reflexivity | ]. cbn [str_count]. intros H.
  destruct (Ascii.eqb a c) eqn:Hac; [discriminate H | ].
  cbn [str_endswith]. destruct s; [exact Hac | apply IH; exact H].
Qed.

Lemma str_startswith_absent (c : ascii) (s : string) :
  str_count c s = 0 -> str_startswith c s = false.
Proof.
  destruct s as [| a s]; [reflexivity | ]. cbn [str_count str_startswith].
  destruct (Ascii.eqb a c); [discriminate | reflexivity].
Qed.

(** X3: for a company name that is not empty and holds no slash, and an
    id without slash, the paths [main] builds with [os.path.join] are
    [output/<company>] and [output/<company>/<file name>], the ones
    [main_body] has; and [os.path.dirname], by which [save_audio] finds the
    directory to create, gives the output directory back from the path of
    the artifact. *)
Theorem paths_of_main (company aroma : string) :
  company <> EmptyString ->
  str_count "/" company = 0 ->
  str_count "/" aroma = 0 ->
  let output_dir := os_path_join "output" company in
  let audio_path := os_path_join output_dir (audio_filename_of company aroma) in
  output_dir = ("output/" ++ company)%string
  /\ audio_path = (output_dir ++ "/" ++ audio_filename_of company aroma)%string
  /\ os_path_join output_dir (pdf_filename_of company aroma) =
     (output_dir ++ "/" ++ pdf_filename_of company aroma)%string
  /\ os_path_dirname audio_path = output_dir.
Proof.
  intros Hne Hc Ha output_dir audio_path.
  assert (Hdir : output_dir = ("output/" ++ company)%string).
  { unfold output_dir, os_path_join.
    rewrite (str_startswith_absent _ _ Hc). reflexivity. }
  assert (Hend : str_endswith "/" output_dir = false).
  { rewrite Hdir, (str_endswith_app "/" "output/" company Hne).
    apply str_endswith_absent. exact Hc. }
  assert (Hjoin : forall file, str_startswith "/" file = false ->
            os_path_join output_dir file = (output_dir ++ "/" ++ file)%string).
  { intros file Hfile. unfold os_path_join. rewrite Hfile, Hend.
    rewrite Hdir. reflexivity. }
  split; [exact Hdir | ].
  split; [apply Hjoin; reflexivity | ].
  split; [apply Hjoin; reflexivity | ].
  unfold audio_path. rewrite Hjoin by reflexivity.
  apply os_path_dirname_of_file.
  - rewrite Hdir. discriminate.
  - exact Hend.
  - unfold audio_filename_of. rewrite !str_count_app, Hc, Ha. reflexivity.
Qed.

Lemma paths_of_main_witness :
  acme <> EmptyString
  /\ os_path_join "output" acme = "output/Acme"%string
  /\ os_path_join (os_path_join "output" acme) (audio_filename_of acme acme_id)
     = acme_mp3
  /\ os_path_dirname
       (os_path_join (os_path_join "output" acme) (audio_filename_of acme acme_id))
     = os_path_join "output" acme.
Proof.
  assert (Hne : acme <> EmptyString) by discriminate.
  split; [exact Hne | ].
  destruct (paths_of_main acme acme_id Hne eq_refl eq_refl) as [H1 [H2 [_ H4]]].
  split; [exact H1 | ]. split; [rewrite H2; reflexivity | exact H4].
Defined.

(** ** The loader *)

Section LoaderProperties.

Variable rd : string -> excel_engine -> file_system -> result DataFrame.

Lemma read_THz_fs (p : string) (engine : excel_engine) (fs : file_system) :
  snd (read_THz rd p engine fs) = fs.
Proof.
  unfold read_THz, io_bind. destruct (rd p engine fs) as [df | e]; [ | reflexivity].
  destruct (df_column df REQUIRED_EXCEL_COLUMN) as [cells | ]; [ | reflexivity].
  cbn zeta. destruct (Nat.eqb _ 0); reflexivity.
Qed.

Lemma dropna_clean (cells : list pyval) :
  Forall (fun v => pd_isna v = false) (dropna cells).
Proof.
  apply Forall_forall. intros v Hv. unfold dropna in Hv.
  apply filter_In in Hv. destruct Hv as [_ Hv].
  apply negb_true_iff. exact Hv.
Qed.

Lemma read_THz_OK (p : string) (engine : excel_engine) (fs fs' : file_system)
    (freqs : list pyval) :
  read_THz rd p engine fs = (OK freqs, fs') ->
  fs' = fs /\ freqs <> []
  /\ exists df cells,
       rd p engine fs = OK df
       /\ df_column df REQUIRED_EXCEL_COLUMN = Some cells
       /\ freqs = dropna cells.
Proof.
  unfold read_THz, io_bind. destruct (rd p engine fs) as [df | e]; [ | discriminate].
  destruct (df_column df REQUIRED_EXCEL_COLUMN) as [cells | ] eqn:Hcol;
    [ | discriminate].
  cbn zeta. destruct (Nat.eqb (length (dropna cells)) 0) eqn:Hlen; [discriminate | ].
  unfold io_ret. intros H. injection H as <- <-.
  split; [reflexivity | ]. split.
  - intros H0. rewrite H0 in Hlen. discriminate Hlen.
  - exists df, cells. split; [reflexivity | split; [exact Hcol | reflexivity]].
Qed.

Lemma read_THz_Raise (p : string) (engine : excel_engine) (fs fs' : file_system)
    (e : exn) :
  read_THz rd p engine fs = (Raise e, fs') ->
  fs' = fs /\ (e = ValueError \/ rd p engine fs = Raise e).
Proof.
  unfold read_THz, io_bind. destruct (rd p engine fs) as [df | e'].
  - destruct (df_column df REQUIRED_EXCEL_COLUMN) as [cells | ].
    + cbn zeta. destruct (Nat.eqb _ 0); [ | discriminate].
      intros H. injection H as <- <-. split; [reflexivity | left; reflexivity].
    + intros H. injection H as <- <-. split; [reflexivity | left; reflexivity].
  - intros H. injection H as <- <-. split; [reflexivity | right; reflexivity].
Qed.

Lemma load_frequencies_steps (p : string) (fs : file_system) :
  load_frequencies rd p fs =
  match fs p with
  | None => (Raise OSError, fs)
  | Some _ => try_engines rd p [openpyxl; xlrd] fs
  end.
Proof.
  unfold load_frequencies. rewrite io_try_except_reraise.
  unfold io_bind, os_path_exists. destruct (fs p); reflexivity.
Qed.

End LoaderProperties.

Lemma load_frequencies_OK
    (rd : string -> excel_engine -> file_system -> result DataFrame)
    (excel_path : string) (fs fs' : file_system) (freqs : list pyval) :
  load_frequencies rd excel_path fs = (OK freqs, fs') ->
  fs' = fs
  /\ fs excel_path <> None
  /\ freqs <> []
  /\ Forall (fun v => pd_isna v = false) freqs
  /\ exists engine df cells,
       rd excel_path engine fs = OK df
       /\ df_column df REQUIRED_EXCEL_COLUMN = Some cells
       /\ freqs = dropna cells
       /\ (engine = xlrd ->
           exists e, read_THz rd excel_path openpyxl fs = (Raise e, fs)
                     /\ is_Exception e = true).
Proof.
  rewrite load_frequencies_steps.
  destruct (fs excel_path) as [size | ] eqn:Hfile; [ | discriminate].
  cbn [try_engines]. unfold io_try_except at 1.
  destruct (read_THz rd excel_path openpyxl fs) as [[a | e1] fs1] eqn:H1.
  - intros H. injection H as <- <-.
    destruct (read_THz_OK rd _ _ _ _ _ H1) as [-> [Hne [df [cells [Hrd [Hcol ->]]]]]].
    split; [reflexivity | ]. split; [discriminate | ]. split; [exact Hne | ].
    split; [apply dropna_clean | ].
    exists openpyxl, df, cells. repeat split; try assumption. discriminate.
  - destruct (read_THz_Raise rd _ _ _ _ _ H1) as [-> _].
    destruct (is_Exception e1) eqn:He1; [ | discriminate].
    unfold io_try_except.
    destruct (read_THz rd excel_path xlrd fs) as [[a | e2] fs2] eqn:H2.
    + intros H. injection H as <- <-.
      destruct (read_THz_OK rd _ _ _ _ _ H2) as [-> [Hne [df [cells [Hrd [Hcol ->]]]]]].
      split; [reflexivity | ]. split; [discriminate | ]. split; [exact Hne | ].
      split; [apply dropna_clean | ].
      exists xlrd, df, cells. repeat split; try assumption.
      exists e1. split; [reflexivity | exact He1].
    + destruct (is_Exception e2); discriminate.
Qed.

(** X4: what [load_frequencies] returns is never empty and holds no missing
    cell ([None] or NaN): it is the THz column, its missing cells dropped,
    of the sheet one of the two engines read from a file that exists, the
    file system left as it was; and [xlrd] is the engine only when the
    attempt with [openpyxl] raised an [Exception]. *)
Theorem load_frequencies_returns_a_clean_array
    (rd : string -> excel_engine -> file_system -> result DataFrame)
    (excel_path : string) (fs fs' : file_system) (freqs : list pyval) :
  load_frequencies rd excel_path fs = (OK freqs, fs') ->
  fs' = fs
  /\ fs excel_path <> None
  /\ freqs <> []
  /\ Forall (fun v => pd_isna v = false) freqs
  /\ exists engine df cells,
       rd excel_path engine fs = OK df
       /\ df_column df REQUIRED_EXCEL_COLUMN = Some cells
       /\ freqs = dropna cells
       /\ (engine = xlrd ->
           exists e, read_THz rd excel_path openpyxl fs = (Raise e, fs)
                     /\ is_Exception e = true).
Proof.
  apply load_frequencies_OK.
Qed.

Lemma load_frequencies_returns_a_clean_array_witness :
  load_frequencies (xls_reader uploads) scan_xls uploaded_files =
  (OK [PyFloat 0x1.2dfd694ccab3fp-16; PyFloat 0x1.4f8b588e368f1p-16], uploaded_files)
  /\ Forall (fun v => pd_isna v = false)
       [PyFloat 0x1.2dfd694ccab3fp-16; PyFloat 0x1.4f8b588e368f1p-16]
  /\ exists engine df cells,
       xls_reader uploads scan_xls engine uploaded_files = OK df
       /\ df_column df REQUIRED_EXCEL_COLUMN = Some cells
       /\ [PyFloat 0x1.2dfd694ccab3fp-16; PyFloat 0x1.4f8b588e368f1p-16] = dropna cells
       /\ (engine = xlrd ->
           exists e, read_THz (xls_reader uploads) scan_xls openpyxl uploaded_files
                     = (Raise e, uploaded_files)
                     /\ is_Exception e = true).
Proof.
  assert (H : load_frequencies (xls_reader uploads) scan_xls uploaded_files =
              (OK [PyFloat 0x1.2dfd694ccab3fp-16; PyFloat 0x1.4f8b588e368f1p-16],
               uploaded_files)) by reflexivity.
  split; [exact H | ].
  destruct (load_frequencies_returns_a_clean_array _ _ _ _ _ H)
    as [_ [_ [_ [Hclean Hfrom]]]].
  split; [exact Hclean | exact Hfrom].
Defined.

(** X5: the errors of [load_frequencies].  A file that does not exist is
    a [FileNotFoundError] (recorded as [OSError]) whatever the reader would
    do.  For a file that exists every [Exception] ends as the [ValueError]
    of the loop, be it raised by the reader, by a sheet without THz column
    or by a column with no value; an exception that is no [Exception] is
    one the reader raised.  The file system is left as it was. *)
Theorem load_frequencies_errors
    (rd : string -> excel_engine -> file_system -> result DataFrame)
    (excel_path : string) (fs : file_system) :
  (fs excel_path = None ->
   load_frequencies rd excel_path fs = (Raise OSError, fs))
  /\ (forall e fs',
        load_frequencies rd excel_path fs = (Raise e, fs') ->
        fs excel_path <> None ->
        fs' = fs
        /\ (is_Exception e = true -> e = ValueError)
        /\ (is_Exception e = false ->
            exists engine, rd excel_path engine fs = Raise e)).
Proof.
  rewrite load_frequencies_steps. split.
  - intros ->. reflexivity.
  - intros e fs' H Hfile.
    destruct (fs excel_path) as [size | ]; [clear Hfile | congruence].
    cbn [try_engines] in H. unfold io_try_except at 1 in H.
    destruct (read_THz rd excel_path openpyxl fs) as [[a | e1] fs1] eqn:H1;
      [discriminate H | ].
    destruct (read_THz_Raise rd _ _ _ _ _ H1) as [-> Hc1].
    destruct (is_Exception e1) eqn:He1.
    + unfold io_try_except in H.
      destruct (read_THz rd excel_path xlrd fs) as [[a | e2] fs2] eqn:H2;
        [discriminate H | ].
      destruct (read_THz_Raise rd _ _ _ _ _ H2) as [-> Hc2].
      destruct (is_Exception e2) eqn:He2.
      * unfold io_raise in H. injection H as <- <-.
        split; [reflexivity | ]. split; [reflexivity | discriminate].
      * injection H as <- <-. split; [reflexivity | ].
        split; [congruence | ]. intros _. exists xlrd.
        destruct Hc2 as [-> | Hc2]; [discriminate He2 | exact Hc2].
    + injection H as <- <-. split; [reflexivity | ].
      split; [congruence | ]. intros _. exists openpyxl.
      destruct Hc1 as [-> | Hc1]; [discriminate He1 | exact Hc1].
Qed.

Lemma load_frequencies_errors_witness :
  load_frequencies (xls_reader uploads) "uploads/missing.xls" uploaded_files =
  (Raise OSError, uploaded_files).
Proof.
  exact (proj1 (load_frequencies_errors (xls_reader uploads) "uploads/missing.xls"
                  uploaded_files) eq_refl).
Defined.

(** X6: of the items [load_frequencies] returns, the mapper accepts every
    double, returning its product with 1e12, and refuses as invalid
    ([ValueError]) text cells only: the missing cells and the NaN it
    guards against were dropped by the loader. *)
Theorem loaded_items_the_mapper_refuses_are_text
    (rd : string -> excel_engine -> file_system -> result DataFrame)
    (excel_path : string) (fs fs' : file_system) (freqs : list pyval) :
  load_frequencies rd excel_path fs = (OK freqs, fs') ->
  forall thz, In thz freqs ->
    (forall f, thz = PyFloat f -> thz_to_hz thz = OK (PyFloat (f * 1e12)))
    /\ (thz_to_hz thz = Raise ValueError -> exists s, thz = PyStr s).
Proof.
  intros H thz Hin.
  destruct (load_frequencies_OK rd _ _ _ _ H) as [_ [_ [_ [Hclean _]]]].
  rewrite Forall_forall in Hclean. specialize (Hclean thz Hin).
  split.
  - intros f ->. cbn [pd_isna] in Hclean. rewrite thz_to_hz_float, Hclean.
    reflexivity.
  - intros Herr. apply thz_to_hz_ValueError_iff in Herr.
    destruct thz as [f | z | b | s | ]; cbn in Herr, Hclean.
    + destruct Herr as [Herr | Herr]; congruence.
    + destruct Herr; discriminate.
    + destruct Herr; discriminate.
    + exists s. reflexivity.
    + discriminate Hclean.
Qed.

Lemma loaded_items_the_mapper_refuses_are_text_witness :
  load_frequencies (xls_reader uploads) notes_xls uploaded_files =
  (OK [PyFloat 0x1.2dfd694ccab3fp-16; PyStr "n/a"], uploaded_files)
  /\ thz_to_hz (PyStr "n/a") = Raise ValueError
  /\ exists s, PyStr "n/a" = PyStr s.
Proof.
  assert (H : load_frequencies (xls_reader uploads) notes_xls uploaded_files =
              (OK [PyFloat 0x1.2dfd694ccab3fp-16; PyStr "n/a"], uploaded_files))
    by reflexivity.
  assert (Hin : In (PyStr "n/a") [PyFloat 0x1.2dfd694ccab3fp-16; PyStr "n/a"])
    by (right; left; reflexivity).
  assert (He : thz_to_hz (PyStr "n/a") = Raise ValueError) by reflexivity.
  split; [exact H | ]. split; [exact He | ].
  exact (proj2 (loaded_items_the_mapper_refuses_are_text _ _ _ _ _ H _ Hin) He).
Defined.

(** ** The log of the mix loop *)

Section LoggedMixLoopProperties.

Variable libm_sin : float -> float.







End LoggedMixLoopProperties.

Lemma In_combine_seq {A : Type} (l : list A) :
  forall s i x,
    In (i, x) (combine (seq s (length l)) l) <->
    s <= i /\ nth_error l (i - s) = Some x.
Proof.
  induction l as [| a l IH]; intros s i x; cbn [length seq combine In].
  - split; [intros [] | ]. intros [_ H]. destruct (i - s); discriminate H.
  - rewrite IH. split.
    + intros [H | [Hle H]].
      * injection H as <- <-. split; [lia | ]. rewrite Nat.sub_diag. reflexivity.
      * split; [lia | ]. replace (i - s) with (S (i - S s)) by lia. exact H.
    + intros [Hle H]. destruct (Nat.eq_dec i s) as [-> | Hne].
      * left. rewrite Nat.sub_diag in H. injection H as <-. reflexivity.
      * right. split; [lia | ].
        replace (i - s) with (S (i - S s)) in H by lia. exact H.
Qed.




(** ** Products that are not NaN *)

Lemma shr_1_nonneg (mrs : shr_record) :
  (0 <= shr_m mrs -> 0 <= shr_m (shr_1 mrs))%Z.
Proof.
  destruct mrs as [m r s]. cbn [shr_m]. intros H.
  destruct m as [| [p | p | ] | p]; cbn; lia.
Qed.

Lemma iter_shr_1_nonneg (p : positive) :
  forall mrs, (0 <= shr_m mrs -> 0 <= shr_m (iter_pos shr_1 p mrs))%Z.
Proof.
  induction p as [p IH | p IH | ]; intros mrs H; cbn [iter_pos].
  - apply IH, IH, shr_1_nonneg, H.
  - apply IH, IH, H.
  - apply shr_1_nonneg, H.
Qed.

Lemma shr_fexp_nonneg (m e : Z) (l : location) :
  (0 <= m -> 0 <= shr_m (fst (shr_fexp prec emax m e l)))%Z.
Proof.
  intros H. unfold shr_fexp, shr.
  assert (H0 : (0 <= shr_m (shr_record_of_loc m l))%Z).
  { destruct l as [| []]; exact H. }
  destruct (fexp prec emax (Zdigits2 m + e) - e)%Z as [| p | p]; cbn [fst];
    [exact H0 | | exact H0].
  apply iter_shr_1_nonneg, H0.
Qed.

Lemma round_nearest_even_nonneg (m : Z) (l : location) :
  (0 <= m -> 0 <= round_nearest_even m l)%Z.
Proof.
  intros H. destruct l as [| []]; cbn [round_nearest_even]; try lia.
  destruct (Z.even m); lia.
Qed.

Lemma binary_round_aux_not_nan (sx : bool) (mx ex : Z) (lx : location) :
  (0 <= mx)%Z -> binary_round_aux prec emax sx mx ex lx <> S754_nan.
Proof.
  intros H. unfold binary_round_aux.
  pose proof (shr_fexp_nonneg mx ex lx H) as H1.
  destruct (shr_fexp prec emax mx ex lx) as [mrs' e']. cbn [fst] in H1.
  pose proof (shr_fexp_nonneg _ e' loc_Exact
                (round_nearest_even_nonneg _ (loc_of_shr_record mrs') H1)) as H2.
  destruct (shr_fexp prec emax _ e' loc_Exact) as [mrs'' e'']. cbn [fst] in H2.
  destruct (shr_m mrs'') as [| m | m]; [discriminate | | lia].
  destruct (e'' <=? emax - prec)%Z; discriminate.
Qed.

Lemma binary_round_not_nan (sx : bool) (mx : positive) (ex : Z) :
  binary_round prec emax sx mx ex <> S754_nan.
Proof.
  unfold binary_round. destruct (shl_align mx ex _) as [mz ez].
  apply binary_round_aux_not_nan. lia.
Qed.

Lemma binary_normalize_not_nan (m e : Z) (szero : bool) :
  binary_normalize prec emax m e szero <> S754_nan.
Proof.
  destruct m; cbn [binary_normalize];
    [discriminate | apply binary_round_not_nan | apply binary_round_not_nan].
Qed.

Lemma is_nan_Prim2SF (f : float) : Prim2SF f <> S754_nan -> is_nan f = false.
Proof.
  intros H. destruct (is_nan f) eqn:E; [ | reflexivity].
  elim H. apply Prim2SF_nan. exact E.
Qed.

(** The product of a double that is not NaN with a finite double other
    than zero is not NaN. *)
Lemma mul_finite_not_nan (x y : float) (s : bool) (m : positive) (e : Z) :
  is_nan x = false -> Prim2SF y = S754_finite s m e ->
  is_nan (x * y) = false.
Proof.
  intros Hx Hy. apply is_nan_Prim2SF. rewrite FloatAxioms.mul_spec, Hy.
  pose proof (Prim2SF_not_nan x Hx) as H.
  destruct (Prim2SF x) as [sx | sx | | sx mx ex]; cbn [SF64mul SFmul];
    [discriminate | discriminate | congruence | ].
  apply binary_round_aux_not_nan. lia.
Qed.

Lemma Prim2SF_1e12 : Prim2SF 1e12 = S754_finite false 8192000000000000 (-13).
Proof. reflexivity. Qed.

Lemma Z2F_not_nan (z : Z) : is_nan (Num.Z2F z) = false.
Proof.
  apply is_nan_Prim2SF. unfold Num.Z2F.
  pose proof (binary_normalize_not_nan z 0 false) as H.
  destruct (binary_normalize prec emax z 0 false) as [s | s | | s m e];
    [destruct s; discriminate | destruct s; discriminate | congruence | ].
  cbn [SF2Prim].
  assert (Hl : Prim2SF (Z.ldexp (of_uint63 (of_Z (Z.pos m))) e) <> S754_nan).
  { rewrite Z_ldexp_spec, FloatAxioms.of_uint63_spec. unfold SFldexp.
    pose proof (binary_normalize_not_nan (to_Z (of_Z (Z.pos m))) 0 false) as H1.
    destruct (binary_normalize prec emax _ 0 false) as [s1 | s1 | | s1 m1 e1];
      [discriminate | discriminate | congruence | ].
    apply binary_round_not_nan. }
  destruct s; [ | exact Hl].
  rewrite FloatAxioms.opp_spec.
  destruct (Prim2SF (Z.ldexp _ e));
    [discriminate | discriminate | congruence | discriminate].
Qed.

(** What the mapper returns is a double, and never a NaN. *)
Lemma thz_to_hz_not_nan (thz hz : pyval) :
  thz_to_hz thz = OK hz -> exists h, hz = PyFloat h /\ is_nan h = false.
Proof.
  destruct thz as [f | z | b | s | ].
  - rewrite thz_to_hz_float. destruct (is_nan f) eqn:Hf; [discriminate | ].
    intros H. injection H as <-. eexists. split; [reflexivity | ].
    apply (mul_finite_not_nan f 1e12 _ _ _ Hf Prim2SF_1e12).
  - unfold thz_to_hz. cbn [isinstance_int_float negb np_isnan].
    destruct ((- 2 ^ 63 <=? z) && (z <? 2 ^ 64))%Z; [ | discriminate].
    cbn [bind]. unfold py_mul. cbn [Num.of_pyval Num.mul Num.as_float].
    unfold Num.float_of_int.
    destruct (Z.abs z <? 2 ^ 1024 - 2 ^ 970)%Z; [ | discriminate].
    cbn [bind Num.to_pyval]. intros H. injection H as <-.
    eexists. split; [reflexivity | ].
    apply (mul_finite_not_nan _ 1e12 _ _ _ (Z2F_not_nan z) Prim2SF_1e12).
  - unfold thz_to_hz. cbn [isinstance_int_float negb np_isnan bind].
    unfold py_mul. cbn [Num.of_pyval Num.mul Num.as_float].
    unfold Num.float_of_int.
    destruct (Z.abs (if b then 1 else 0) <? 2 ^ 1024 - 2 ^ 970)%Z; [ | discriminate].
    cbn [bind Num.to_pyval]. intros H. injection H as <-.
    eexists. split; [reflexivity | ].
    apply (mul_finite_not_nan _ 1e12 _ _ _ (Z2F_not_nan _) Prim2SF_1e12).
  - discriminate.
  - discriminate.
Qed.

Lemma in_band_MIN : in_band (PyInt Config.MIN_FREQUENCY_HZ) = true.
Proof. reflexivity. Qed.

Lemma in_band_MAX : in_band (PyInt Config.MAX_FREQUENCY_HZ) = true.
Proof. reflexivity. Qed.

(** The clamp brings every double that is not NaN into the band. *)
Lemma clamp_into_band (h : float) :
  is_nan h = false ->
  exists freq, clamp (PyFloat h) = OK freq /\ in_band freq = true.
Proof.
  intros Hh.
  destruct (py_lt (PyFloat h) (PyInt Config.MIN_FREQUENCY_HZ)) as [[|] | e] eqn:H1.
  - exists (PyInt Config.MIN_FREQUENCY_HZ).
    split; [apply clamp_below; exact H1 | apply in_band_MIN].
  - destruct (py_lt (PyInt Config.MAX_FREQUENCY_HZ) (PyFloat h)) as [[|] | e] eqn:H2.
    + exists (PyInt Config.MAX_FREQUENCY_HZ).
      split; [apply clamp_above; assumption | apply in_band_MAX].
    + exists (PyFloat h). split; [apply clamp_inside; assumption | ].
      unfold py_lt in H1, H2. cbn [Num.of_pyval Num.lt] in H1, H2.
      injection H1 as H1. injection H2 as H2.
      unfold in_band. cbn [Num.of_pyval Num.le]. rewrite H1, H2, Hh. reflexivity.
    + discriminate H2.
  - discriminate H1.
Qed.

(** X9: whatever the mapper returns, the frequency [generate_tone] hands
    to the sine generator lies in the band [18000, 22000]: the mapper
    returns a double that is not NaN, and the clamp brings every such
    double into the band. *)
Theorem synthesized_frequency_is_in_band (thz hz : pyval) :
  thz_to_hz thz = OK hz ->
  exists freq, clamp hz = OK freq /\ in_band freq = true.
Proof.
  intros H. destruct (thz_to_hz_not_nan thz hz H) as [h [-> Hh]].
  apply clamp_into_band. exact Hh.
Qed.

Lemma synthesized_frequency_is_in_band_witness :
  thz_to_hz (PyFloat 0x1.2dfd694ccab3fp-16) = OK (PyFloat 0x1.12a88p+24)
  /\ exists freq,
       clamp (PyFloat 0x1.12a88p+24) = OK freq /\ in_band freq = true.
Proof.
  assert (H : thz_to_hz (PyFloat 0x1.2dfd694ccab3fp-16) = OK (PyFloat 0x1.12a88p+24))
    by reflexivity.
  split; [exact H | ].
  exact (synthesized_frequency_is_in_band _ _ H).
Defined.

(** ** The report and the artifacts of [main] *)

Lemma save_audio_renderer_failing (size : Z) (e : exn) (g : NeuroAudioGenerator)
    (output_path : string) (fs : file_system) :
  len_ms (audio_segment g) = OK 30000%Z ->
  save_audio (renderer_failing size e) g output_path fs =
  (OK tt, write_file fs output_path size).
Proof.
  intros Hlen. rewrite save_audio_steps.
  unfold io_bind, io_lift, export_and_verify, io_bind, os_path_exists.
  cbn [renderer_failing os_makedirs export_mp3 io_ret].
  rewrite Hlen. cbn [Z.eqb]. rewrite write_file_same. reflexivity.
Qed.

(** X10: [main] does not undo the export when the report fails.  With an
    encoder that writes the artifact and a report writer that raises,
    [main] fails for every list, every company name and every id, and the
    MP3 is still there, at the path [os.path.join] gave it, the file system
    being the one [save_audio] left.  The exception is the [ValueError] of
    the report's guard for an empty list, the exception of the statistics
    or of the histogram when they raise, and the writer's otherwise. *)
Theorem main_leaves_the_audio_when_the_report_fails
    (libm_sin : float -> float) (numpy : Numpy) (size : Z) (e : exn)
    (frequencies : list pyval) (company aroma : string) (fs : file_system) :
  let audio_path :=
    os_path_join (os_path_join "output" company)
      (audio_filename_of company aroma) in
  main libm_sin (renderer_failing size e) numpy frequencies company aroma fs =
  (Failed (match frequencies with
           | [] => ValueError
           | _ => match report_statistics numpy frequencies with
                  | Raise e' => e'
                  | OK _ => e
                  end
           end),
   write_file fs audio_path size)
  /\ write_file fs audio_path size audio_path = Some size.
Proof.
  intros audio_path. split; [ | apply write_file_same].
  destruct (generator_len_ms libm_sin frequencies) as [g [Hg Hlen]].
  unfold main, main_body, io_bind, io_lift.
  cbn [renderer_failing os_makedirs io_ret].
  rewrite init_silence, Hg.
  fold (renderer_failing size e). fold audio_path.
  rewrite (save_audio_renderer_failing size e g _ fs Hlen).
  rewrite generate_pdf_report_steps.
  destruct frequencies as [| x rest]; [reflexivity | ].
  destruct (report_statistics numpy (x :: rest)) as [[] | e']; reflexivity.
Qed.

(** X11: the report needs a finite range.  For a list of doubles that is
    empty, or that holds a NaN or an infinity, [generate_pdf_report] raises
    [ValueError] (its own guard, or [np.histogram] on a range that is not
    finite) whatever the report writer would do, and leaves the file system
    as it was: no report is written. *)
Theorem generate_pdf_report_needs_a_finite_range
    (env : Environment) (numpy : Numpy) (a : list float)
    (pdf_filename output_dir : string) (fs : file_system) :
  a = [] \/ (exists x, In x a /\ np_isfinite x = false) ->
  generate_pdf_report env numpy (map PyFloat a) pdf_filename output_dir fs =
  (Raise ValueError, fs).
Proof.
  intros H. rewrite generate_pdf_report_steps.
  destruct a as [| y rest]; [reflexivity | ].
  destruct H as [H | [x [Hx Fx]]]; [discriminate H | ].
  rewrite report_statistics_doubles by discriminate.
  replace (forallb np_isfinite (y :: rest)) with false; [reflexivity | ].
  symmetry. destruct (forallb np_isfinite (y :: rest)) eqn:E; [ | reflexivity].
  rewrite forallb_forall in E. rewrite (E x Hx) in Fx. discriminate Fx.
Qed.

Lemma generate_pdf_report_needs_a_finite_range_witness :
  generate_pdf_report (encoder_writing 720684) numpy_of_doubles
    (map PyFloat [0x1.2dfd694ccab3fp-16; infinity]%float)
    "Report_Acme_0A1B2C3D4E.pdf" "output/Acme" empty_file_system =
  (Raise ValueError, empty_file_system).
Proof.
  apply generate_pdf_report_needs_a_finite_range.
  right. exists infinity. split; [right; left; reflexivity | reflexivity].
Defined.

(** ** Text without accents *)

Lemma replace_scan_absent (old new : text) (o : N) (old' : text) (s : text) :
  old = o :: old' -> Forall (fun c => N.eqb o c = false) s ->
  replace_scan old new 0 s = s.
Proof.
  intros -> H. induction H as [| c s Hc _ IH]; [reflexivity | ].
  cbn [replace_scan text_startswith]. rewrite Hc. cbn [andb]. rewrite IH.
  reflexivity.
Qed.

Lemma encode_ascii_ignore_ascii (s : text) :
  Forall (fun c => is_ascii c = true) (encode_ascii_ignore s).
Proof.
  apply Forall_forall. intros c Hc. apply filter_In in Hc. apply Hc.
Qed.

Lemma text_replace_non_ascii (s new : text) (o : N) (old' : text) :
  is_ascii o = false -> Forall (fun c => is_ascii c = true) s ->
  text_replace s (o :: old') new = s.
Proof.
  intros Ho Hs. unfold text_replace. apply (replace_scan_absent _ new o old' s eq_refl).
  eapply Forall_impl; [ | exact Hs]. intros c Hc. cbn beta in *.
  destruct (N.eqb o c) eqn:E; [ | reflexivity].
  apply N.eqb_eq in E. subst c. congruence.
Qed.

(** X12: on text, [remove_accents] returns the ASCII code points of the
    canonical decomposition and nothing else: the characters that have no
    ASCII letter in their decomposition are dropped, and the two [replace]
    calls never change anything, their patterns not being ASCII.  So every
    code point of the result is below 128, and the function is idempotent
    for a normalizer that leaves ASCII text as it is. *)
Theorem remove_accents_keeps_the_ascii_of_the_decomposition
    (normalize_NFD : text -> text) (object : Type) (str : object -> text)
    (s : text) :
  remove_accents normalize_NFD object str (inl s) =
  filter is_ascii (normalize_NFD s)
  /\ Forall (fun c => (c < 128)%N)
       (remove_accents normalize_NFD object str (inl s))
  /\ ((forall t, Forall (fun c => (c < 128)%N) t -> normalize_NFD t = t) ->
      remove_accents normalize_NFD object str
        (inl (remove_accents normalize_NFD object str (inl s))) =
      remove_accents normalize_NFD object str (inl s)).
Proof.
  assert (H : forall t, remove_accents normalize_NFD object str (inl t) =
                        filter is_ascii (normalize_NFD t)).
  { intros t. cbn [remove_accents].
    pose proof (encode_ascii_ignore_ascii (normalize_NFD t)) as Ha.
    rewrite (text_replace_non_ascii _ _ 3619%N _ eq_refl Ha).
    rewrite (text_replace_non_ascii _ _ 3619%N _ eq_refl Ha).
    reflexivity. }
  assert (Hlt : forall t, Forall (fun c => (c < 128)%N) (filter is_ascii t)).
  { intros t. apply Forall_forall. intros c Hc. apply filter_In in Hc.
    apply N.ltb_lt. apply Hc. }
  split; [apply H | ]. split; [rewrite H; apply Hlt | ].
  intros Hnfd. rewrite !H. rewrite (Hnfd _ (Hlt _)).
  induction (normalize_NFD s) as [| c t IH]; [reflexivity | ].
  cbn [filter]. destruct (is_ascii c) eqn:Hc; [ | exact IH].
  cbn [filter]. rewrite Hc, IH. reflexivity.
Qed.

Lemma decompose_latin_ascii (t : text) :
  Forall (fun c => (c < 128)%N) t -> decompose_latin t = t.
Proof.
  induction 1 as [| c t Hc _ IH]; [reflexivity | ].
  unfold decompose_latin in *. cbn [flat_map]. rewrite IH.
  destruct (N.eqb_spec c 233); [lia | ]. destruct (N.eqb_spec c 231); [lia | ].
  reflexivity.
Qed.

Lemma remove_accents_keeps_the_ascii_of_the_decomposition_witness :
  remove_accents decompose_latin unit (fun _ => []) (inl [99; 97; 102; 233; 32; 223]%N)
  = [99; 97; 102; 101; 32]%N
  /\ remove_accents decompose_latin unit (fun _ => [])
       (inl (remove_accents decompose_latin unit (fun _ => [])
               (inl [99; 97; 102; 233; 32; 223]%N)))
     = remove_accents decompose_latin unit (fun _ => [])
         (inl [99; 97; 102; 233; 32; 223]%N).
Proof.
  split; [reflexivity | ].
  exact (proj2 (proj2 (remove_accents_keeps_the_ascii_of_the_decomposition
                         decompose_latin unit (fun _ => [])
                         [99; 97; 102; 233; 32; 223]%N))
               decompose_latin_ascii).
Defined.

(** ** The sample of the first entries *)

Lemma sample_loop_turns (sample_freqs rest : list float) :
  forall i,
    sample_loop sample_freqs i rest =
    flat_map (sample_turn sample_freqs) (combine (seq i (length rest)) rest).
Proof.
  induction rest as [| freq rest IH]; intros i; [reflexivity | ].
  cbn [sample_loop length seq combine flat_map sample_turn].
  rewrite IH. reflexivity.
Qed.

Lemma half_succ (m : nat) :
  (S m + 1) / 2 = (m + 1) / 2 + (if Nat.eqb (S m mod 2) 1 then 1 else 0).
Proof.
  replace (m + 1) with (S m) by lia.
  pose proof (Nat.div_mod_eq (S m + 1) 2) as H1.
  pose proof (Nat.div_mod_eq (S m) 2) as H3.
  pose proof (Nat.mod_upper_bound (S m + 1) 2) as B1.
  pose proof (Nat.mod_upper_bound (S m) 2) as B3.
  destruct (Nat.eqb (S m mod 2) 1) eqn:E;
    [apply Nat.eqb_eq in E | apply Nat.eqb_neq in E]; lia.
Qed.

Lemma count_odd (m : nat) :
  length (filter (fun j => Nat.eqb (j mod 2) 1) (seq 1 m)) = (m + 1) / 2.
Proof.
  induction m as [| m IH]; [reflexivity | ].
  rewrite seq_S, filter_app, length_app, IH, half_succ. f_equal.
  change (1 + m) with (S m). cbn [filter].
  destruct (Nat.eqb (S m mod 2) 1); reflexivity.
Qed.

Lemma sample_loop_length (sample_freqs rest : list float) :
  forall i,
    length (sample_loop sample_freqs i rest) =
    length rest
    + length (filter (fun j => Nat.eqb (j mod 2) 1 && (j <? length sample_freqs))
                (seq i (length rest))).
Proof.
  induction rest as [| freq rest IH]; intros i; [reflexivity | ].
  cbn [sample_loop length seq filter]. rewrite length_app, IH.
  destruct (Nat.eqb (i mod 2) 1 && (i <? length sample_freqs)); cbn [length]; lia.
Qed.

Lemma count_odd_below (n : nat) :
  length (filter (fun j => Nat.eqb (j mod 2) 1 && (j <? n)) (seq 1 n)) = n / 2.
Proof.
  destruct n as [| m]; [reflexivity | ].
  rewrite seq_S, filter_app, length_app. cbn [filter Nat.add].
  rewrite Nat.ltb_irrefl, andb_false_r. cbn [length]. rewrite Nat.add_0_r.
  rewrite (filter_ext_in _ (fun j => Nat.eqb (j mod 2) 1)).
  - rewrite count_odd. f_equal. lia.
  - intros j Hj. apply in_seq in Hj.
    replace (j <? S m) with true by (symmetry; apply Nat.ltb_lt; lia).
    apply andb_true_r.
Qed.

Lemma sample_loop_cells (sample_freqs rest : list float) :
  forall i, forallb is_Cell (sample_loop sample_freqs i rest) = true.
Proof.
  induction rest as [| freq rest IH]; intros i; [reflexivity | ].
  cbn [sample_loop forallb is_Cell andb]. rewrite forallb_app, IH.
  destruct (Nat.eqb (i mod 2) 1 && (i <? length sample_freqs)); reflexivity.
Qed.

Lemma filter_all {A : Type} (f : A -> bool) (l : list A) :
  forallb f l = true -> filter f l = l.
Proof.
  induction l as [| a l IH]; [reflexivity | ]. cbn [forallb filter].
  intros H. apply andb_true_iff in H. destruct H as [Ha Hl].
  rewrite Ha, (IH Hl). reflexivity.
Qed.

(** X13: the sample of the report shows the first [n = min(20, len)]
    entries in [n + n // 2] cells: an entry with an odd number once, in a
    cell of width 100 that does not end the line, and an entry with an
    even number twice, in the cell that ends the line of the entry before
    it and again in a cell of width 100 on a line of its own. *)
Theorem frequency_sample_writes_even_entries_twice (frequencies : list float) :
  let sample_freqs := firstn 20 frequencies in
  let n := length sample_freqs in
  let entry k := entry_text k (nth (k - 1) sample_freqs 0%float) in
  n = Nat.min 20 (length frequencies)
  /\ length (filter is_Cell (frequency_sample frequencies)) = n + n / 2
  /\ forall k, 1 <= k <= n ->
       (k mod 2 = 1 ->
        In (Cell 100 4 (entry k) false) (frequency_sample frequencies))
       /\ (k mod 2 = 0 ->
           In (Cell 0 4 (entry k) true) (frequency_sample frequencies)
           /\ In (Cell 100 4 (entry k) true) (frequency_sample frequencies)).
Proof.
  intros sample_freqs n entry.
  split; [apply length_firstn | ]. split.
  - unfold frequency_sample. fold sample_freqs. rewrite filter_app.
    rewrite (filter_all _ _ (sample_loop_cells sample_freqs sample_freqs 1)).
    rewrite length_app, sample_loop_length. fold n. rewrite count_odd_below.
    destruct (Nat.eqb (n mod 2) 1); cbn [filter is_Cell length]; lia.
  - intros k Hk.
    assert (Hnth : forall j, j < n ->
              nth_error sample_freqs j = Some (nth j sample_freqs 0%float)).
    { intros j Hj. apply nth_error_nth'. exact Hj. }
    assert (Hturn : forall j c, 1 <= j <= n ->
              In c (sample_turn sample_freqs (j, nth (j - 1) sample_freqs 0%float)) ->
              In c (frequency_sample frequencies)).
    { intros j c Hj Hc. unfold frequency_sample. fold sample_freqs.
      apply in_or_app. left. rewrite sample_loop_turns. apply in_flat_map.
      exists (j, nth (j - 1) sample_freqs 0%float). split; [ | exact Hc].
      apply In_combine_seq. split; [lia | ]. apply Hnth. lia. }
    split.
    + intros Hodd. apply (Hturn k); [exact Hk | ].
      cbn [sample_turn]. left. unfold entry. rewrite Hodd. reflexivity.
    + intros Heven. split.
      * apply (Hturn (k - 1)).
        -- destruct k as [| [| k]]; [lia | discriminate Heven | lia].
        -- cbn [sample_turn]. right.
           assert (Hm : (k - 1) mod 2 = 1).
           { pose proof (Nat.div_mod_eq k 2). pose proof (Nat.div_mod_eq (k - 1) 2).
             pose proof (Nat.mod_upper_bound (k - 1) 2).
             destruct k as [| k]; [lia | ]. lia. }
           rewrite Hm. cbn [Nat.eqb].
           replace (k - 1 <? length sample_freqs) with true
             by (symmetry; apply Nat.ltb_lt; fold n; lia).
           cbn [andb]. left. unfold entry.
           replace (k - 1 + 1) with k by lia. reflexivity.
      * apply (Hturn k); [exact Hk | ].
        cbn [sample_turn]. left. unfold entry. rewrite Heven. reflexivity.
Qed.

(** ** The statistics of a loaded array *)

Lemma map_PyFloat_clean (a : list float) :
  Forall (fun v => pd_isna v = false) (map PyFloat a) ->
  Forall (fun f => is_nan f = false) a.
Proof.
  induction a as [| x a IH]; intros H; [constructor | ].
  inversion H as [| v l Hx Ha]; subst. constructor; [exact Hx | apply IH; exact Ha].
Qed.

(** X14: the statistics of an array of doubles that [load_frequencies]
    returned are always there and are readings: [np.min] and [np.max]
    succeed and give items of the array, the least and the greatest, since
    the loader leaves neither an empty array nor a NaN.  The loader lets
    the infinities through.  When no item is one and the binning of the
    histogram succeeds, [main] prints, with directories, encoder and report
    writer that do their work, a result with these two and the length of
    the array; when an item is an infinity [main] fails with [ValueError]
    once the artifact is written. *)
Theorem statistics_of_a_loaded_float_array
    (rd : string -> excel_engine -> file_system -> result DataFrame)
    (excel_path : string) (fs fs' : file_system) (a : list float) :
  load_frequencies rd excel_path fs = (OK (map PyFloat a), fs') ->
  exists lo hi,
    np_min a = OK lo /\ np_max a = OK hi
    /\ In lo a /\ In hi a
    /\ (forall y, In y a -> (lo <=? y)%float = true /\ (y <=? hi)%float = true)
    /\ (forall numpy libm_sin size company aroma fs0,
          Forall (fun f => np_isfinite f = true) a ->
          histogram_bins numpy a = OK tt ->
          exists r,
            main libm_sin (encoder_writing size) numpy (map PyFloat a)
              company aroma fs0 =
            (Printed r, after_main size company aroma fs0)
            /\ frequency_count r = length a
            /\ frequency_min r = lo /\ frequency_max r = hi)
    /\ (forall numpy libm_sin size company aroma fs0,
          (exists x, In x a /\ is_infinity x = true) ->
          main libm_sin (encoder_writing size) numpy (map PyFloat a)
            company aroma fs0 =
          (Failed ValueError,
           write_file fs0
             (os_path_join (os_path_join "output" company)
                (audio_filename_of company aroma)) size)).
Proof.
  intros H.
  destruct (load_frequencies_OK rd _ _ _ _ H) as [_ [_ [Hne [Hclean _]]]].
  apply map_PyFloat_clean in Hclean.
  destruct a as [| x rest]; [elim Hne; reflexivity | ].
  exists (fold_left np_minimum rest x), (fold_left np_maximum rest x).
  destruct (np_min_least (x :: rest) _ Hclean eq_refl) as [Hlo_in Hlo].
  destruct (np_max_greatest (x :: rest) _ Hclean eq_refl) as [Hhi_in Hhi].
  split; [reflexivity | ]. split; [reflexivity | ].
  split; [exact Hlo_in | ]. split; [exact Hhi_in | ].
  split; [intros y Hy; split; [apply Hlo | apply Hhi]; exact Hy | ].
  split.
  - intros numpy libm_sin size company aroma fs0 Hfin Hbins. eexists.
    split; [apply main_prints; assumption | ]. repeat split.
  - intros numpy libm_sin size company aroma fs0 [y [Hy Iy]].
    apply main_fails_on_a_non_finite_item. exists y. split; [exact Hy | ].
    unfold np_isfinite. rewrite Iy. apply andb_false_r.
Qed.

Lemma statistics_of_a_loaded_float_array_witness :
  load_frequencies (xls_reader uploads) scan_xls uploaded_files =
  (OK (map PyFloat [0x1.2dfd694ccab3fp-16; 0x1.4f8b588e368f1p-16]%float),
   uploaded_files)
  /\ exists lo hi,
       np_min [0x1.2dfd694ccab3fp-16; 0x1.4f8b588e368f1p-16]%float = OK lo
       /\ np_max [0x1.2dfd694ccab3fp-16; 0x1.4f8b588e368f1p-16]%float = OK hi
       /\ In lo [0x1.2dfd694ccab3fp-16; 0x1.4f8b588e368f1p-16]%float
       /\ In hi [0x1.2dfd694ccab3fp-16; 0x1.4f8b588e368f1p-16]%float
       /\ exists r,
            main SinRef.sin (encoder_writing 720684) numpy_of_doubles
              (map PyFloat [0x1.2dfd694ccab3fp-16; 0x1.4f8b588e368f1p-16]%float)
              acme acme_id empty_file_system =
            (Printed r, after_main 720684 acme acme_id empty_file_system)
            /\ frequency_count r = 2
            /\ frequency_min r = lo /\ frequency_max r = hi.
Proof.
  assert (H : load_frequencies (xls_reader uploads) scan_xls uploaded_files =
              (OK (map PyFloat [0x1.2dfd694ccab3fp-16; 0x1.4f8b588e368f1p-16]%float),
               uploaded_files)) by reflexivity.
  split; [exact H | ].
  destruct (statistics_of_a_loaded_float_array _ _ _ _ _ H)
    as [lo [hi [Hlo [Hhi [Hlo_in [Hhi_in [_ [Hmain _]]]]]]]].
  exists lo, hi. repeat split; try assumption.
  apply (Hmain numpy_of_doubles SinRef.sin 720684%Z acme acme_id empty_file_system).
  - repeat constructor.
  - reflexivity.
Defined.

(** ** The shape of a tone *)

Lemma add_samples_zeros (l : list Z) :
  Forall in_int16 l -> add_samples (repeat 0%Z (length l)) l = l.
Proof.
  induction 1 as [| x l Hx _ IH]; [reflexivity | ].
  cbn [length repeat add_samples]. rewrite IH, Z.add_0_l, (saturate16_id _ Hx).
  reflexivity.
Qed.

Lemma tone_for_format (libm_sin : float -> float) (thz : pyval)
    (tone : AudioSegment) :
  tone_for libm_sin thz = OK tone ->
  frame_rate tone = Config.SAMPLE_RATE
  /\ sample_width tone = 2%Z /\ channels tone = 1%Z.
Proof.
  unfold tone_for. intros H.
  destruct (thz_to_hz thz) as [hz | e]; [ | discriminate H]. cbn [bind] in H.
  unfold generate_tone in H.
  rewrite try_except_catchable in H.
  2: { apply catchable_bind; [apply clamp_catchable | intros a].
       apply to_audio_segment_catchable. }
  destruct (clamp hz) as [freq | e]; [ | discriminate H]. cbn [bind] in H.
  unfold to_audio_segment in H.
  destruct (frames_in Config.SAMPLE_RATE _) as [k | e]; [ | discriminate H].
  cbn [bind] in H.
  destruct (match Z.to_nat k with O => OK [] | S _ => _ end) as [data | e];
    [ | discriminate H].
  cbn [bind] in H. injection H as <-. repeat split.
Qed.

(** X15: a tone synthesized for an item has the format and the length of
    the master buffer (1323000 frames, mono, 16 bits, 44100 Hz) and every
    sample of it fits 16 bits; so the overlay neither cuts nor pads it, and
    a list of one accepted item leaves exactly its tone in the buffer. *)
Theorem synthesized_tone_fills_the_master_buffer
    (libm_sin : float -> float) (thz : pyval) (tone : AudioSegment) :
  tone_for libm_sin thz = OK tone ->
  length (samples tone) = length (samples silence)
  /\ frame_rate tone = frame_rate silence
  /\ sample_width tone = sample_width silence
  /\ channels tone = channels silence
  /\ Forall in_int16 (samples tone)
  /\ add_frequencies libm_sin {| audio_segment := silence |} [thz] =
     OK {| audio_segment := tone |}.
Proof.
  intros H.
  destruct (tone_for_shape libm_sin thz tone H) as [Hlen Hrange].
  destruct (tone_for_format libm_sin thz tone H) as [Hrate [Hwidth Hch]].
  assert (Hsil : length (samples silence) = Z.to_nat 1323000).
  { unfold silence. cbn [samples]. apply repeat_length. }
  split; [rewrite Hsil; exact Hlen | ].
  split; [exact Hrate | ]. split; [exact Hwidth | ]. split; [exact Hch | ].
  split; [exact Hrange | ].
  rewrite add_frequencies_mix. unfold synthesized. cbn [flat_map].
  fold (tone_for libm_sin thz). rewrite H. cbn [app fold_left audio_segment].
  do 2 f_equal. unfold mix, spawn.
  rewrite overlay_data_same_length by (rewrite Hsil; symmetry; exact Hlen).
  unfold silence at 1. cbn [samples]. rewrite <- Hlen.
  rewrite (add_samples_zeros _ Hrange).
  destruct tone as [d r w c]. cbn [samples frame_rate sample_width channels] in *.
  subst r w c. reflexivity.
Qed.

Lemma synthesized_tone_fills_the_master_buffer_witness :
  tone_for SinRef.sin thz_high = OK tone_22000
  /\ length (samples tone_22000) = length (samples silence)
  /\ add_frequencies SinRef.sin {| audio_segment := silence |} [thz_high] =
     OK {| audio_segment := tone_22000 |}.
Proof.
  split; [exact tone_for_1THz | ].
  destruct (synthesized_tone_fills_the_master_buffer SinRef.sin thz_high tone_22000
              tone_for_1THz) as [Hlen [_ [_ [_ [_ Hadd]]]]].
  split; [exact Hlen | exact Hadd].
Defined.

(** ** The range of the clamp *)

Lemma clamp_nan (f : float) :
  is_nan f = true -> clamp (PyFloat f) = OK (PyFloat f).
Proof.
  intros H. apply clamp_inside; unfold py_lt; cbn [Num.of_pyval Num.lt];
    [unfold Num.float_lt_Z | unfold Num.Z_lt_float];
    rewrite (Prim2SF_nan f H); reflexivity.
Qed.

Lemma clamp_int_into_band (z : Z) :
  exists freq, clamp (PyInt z) = OK freq /\ in_band freq = true.
Proof.
  destruct (z <? 18000)%Z eqn:H1.
  - exists (PyInt Config.MIN_FREQUENCY_HZ). split; [ | reflexivity].
    apply clamp_below. unfold py_lt. cbn [Num.of_pyval Num.lt].
    unfold Config.MIN_FREQUENCY_HZ. rewrite H1. reflexivity.
  - destruct (22000 <? z)%Z eqn:H2.
    + exists (PyInt Config.MAX_FREQUENCY_HZ). split; [ | reflexivity].
      apply clamp_above; unfold py_lt; cbn [Num.of_pyval Num.lt];
        unfold Config.MIN_FREQUENCY_HZ, Config.MAX_FREQUENCY_HZ;
        [rewrite H1 | rewrite H2]; reflexivity.
    + exists (PyInt z). split.
      * apply clamp_inside; unfold py_lt; cbn [Num.of_pyval Num.lt];
          unfold Config.MIN_FREQUENCY_HZ, Config.MAX_FREQUENCY_HZ;
          [rewrite H1 | rewrite H2]; reflexivity.
      * unfold in_band. cbn [Num.of_pyval Num.le].
        unfold Config.MIN_FREQUENCY_HZ, Config.MAX_FREQUENCY_HZ.
        apply Z.ltb_ge in H1, H2. apply andb_true_iff.
        split; apply Z.leb_le; lia.
Qed.

(** X16: the range of the clamp.  For an int, a bool or a double that is
    not NaN it returns a value of the band [18000, 22000]; a NaN passes
    through unchanged, outside the band; a value that is no number is a
    [TypeError] of the comparison. *)
Theorem clamp_range (x : pyval) :
  (isinstance_int_float x = true -> is_nan_value x = false ->
   exists freq, clamp x = OK freq /\ in_band freq = true)
  /\ (is_nan_value x = true -> clamp x = OK x /\ in_band x = false)
  /\ (isinstance_int_float x = false -> clamp x = Raise TypeError).
Proof.
  split; [ | split].
  - intros Hnum Hnan. destruct x as [f | z | b | s | ]; try discriminate Hnum.
    + apply clamp_into_band. exact Hnan.
    + apply clamp_int_into_band.
    + exists (PyInt Config.MIN_FREQUENCY_HZ). destruct b; split; reflexivity.
  - intros Hnan. destruct x as [f | z | b | s | ]; try discriminate Hnan.
    cbn [is_nan_value] in Hnan. split; [apply clamp_nan; exact Hnan | ].
    unfold in_band. cbn [Num.of_pyval Num.le]. rewrite Hnan.
    cbn [negb]. rewrite andb_false_r. reflexivity.
  - intros Hnum. destruct x as [f | z | b | s | ]; try discriminate Hnum;
      reflexivity.
Qed.

Lemma clamp_range_witness :
  (exists freq, clamp (PyFloat 0x1.12a88p+24) = OK freq /\ in_band freq = true)
  /\ clamp (PyFloat nan) = OK (PyFloat nan) /\ in_band (PyFloat nan) = false.
Proof.
  split.
  - exact (proj1 (clamp_range (PyFloat 0x1.12a88p+24)) eq_refl eq_refl).
  - exact (proj1 (proj2 (clamp_range (PyFloat nan))) eq_refl).
Defined.

(** ** A NaN in the synthesizer *)

Lemma is_nan_of_Prim2SF (f : float) : Prim2SF f = S754_nan -> is_nan f = true.
Proof.
  intros H. destruct (is_nan f) eqn:E; [reflexivity | ].
  elim (Prim2SF_not_nan f E). exact H.
Qed.

Lemma mul_nan_l (x y : float) : is_nan x = true -> is_nan (x * y) = true.
Proof.
  intros H. apply is_nan_of_Prim2SF.
  rewrite FloatAxioms.mul_spec, (Prim2SF_nan x H). reflexivity.
Qed.

Lemma div_nan_l (x y : float) : is_nan x = true -> is_nan (x / y) = true.
Proof.
  intros H. apply is_nan_of_Prim2SF.
  rewrite FloatAxioms.div_spec, (Prim2SF_nan x H). reflexivity.
Qed.

Lemma is_infinity_nan (x : float) : is_nan x = true -> is_infinity x = false.
Proof.
  intros H. unfold is_infinity.
  rewrite FloatAxioms.eqb_spec, FloatAxioms.abs_spec, (Prim2SF_nan x H).
  reflexivity.
Qed.

Lemma int_of_float_nan (x : float) :
  is_nan x = true -> Num.int_of_float x = Raise ValueError.
Proof.
  intros H. unfold Num.int_of_float. rewrite (Prim2SF_nan x H). reflexivity.
Qed.

Lemma Sine_sine_of_float (h : float) :
  Sine_sine_of (PyFloat h) Config.SAMPLE_RATE =
  OK (h * Num.Z2F 2 * math_pi / Num.Z2F 44100)%float.
Proof. reflexivity. Qed.

(** X17: [generate_tone] raises [ValueError] for a NaN frequency and the
    30 s duration: the clamp hands the NaN on, the sine of the first sample
    is NaN (the C library's [sin] returns NaN for NaN), and [int] refuses
    it.  [add_frequencies] never gets there, the mapper letting no NaN
    through. *)
Theorem generate_tone_refuses_a_NaN (libm_sin : float -> float) (f : float) :
  (forall x, is_nan x = true -> is_nan (libm_sin x) = true) ->
  is_nan f = true ->
  generate_tone libm_sin (PyFloat f) (Config.TOTAL_DURATION_SECONDS * 1000)
  = Raise ValueError.
Proof.
  intros Hsin Hf. unfold generate_tone. rewrite (clamp_nan f Hf). cbn [bind].
  unfold to_audio_segment. rewrite frames_in_config. cbn [bind].
  destruct sample_count_positive as [k ->].
  rewrite Sine_sine_of_float. cbn [bind].
  set (sine_of := (f * Num.Z2F 2 * math_pi / Num.Z2F 44100)%float).
  assert (Hs : is_nan sine_of = true).
  { apply div_nan_l, mul_nan_l, mul_nan_l, Hf. }
  cbn [Sine_samples]. unfold Sine_sample, math_sin.
  assert (Ha : is_nan (sine_of * of_uint63 0) = true) by (apply mul_nan_l, Hs).
  rewrite (is_infinity_nan _ Ha). cbn [bind].
  rewrite int_of_float_nan by (apply mul_nan_l, mul_nan_l, Hsin, Ha).
  reflexivity.
Qed.

Lemma SinRef_sin_nan (x : float) : is_nan x = true -> is_nan (SinRef.sin x) = true.
Proof. intros H. unfold SinRef.sin. rewrite H. reflexivity. Qed.

Lemma generate_tone_refuses_a_NaN_witness :
  is_nan nan = true
  /\ generate_tone SinRef.sin (PyFloat nan) (Config.TOTAL_DURATION_SECONDS * 1000)
     = Raise ValueError.
Proof.
  split; [reflexivity | ].
  exact (generate_tone_refuses_a_NaN SinRef.sin nan SinRef_sin_nan eq_refl).
Defined.

(** ** The infinities, from the mapper to the tone *)

Lemma try_except_reraise {A : Type} (body : result A) :
  try_except body (fun e => Raise e) = body.
Proof.
  destruct body as [a | e]; [reflexivity | ].
  cbn [try_except]. destruct (is_Exception e); reflexivity.
Qed.

Lemma generate_tone_clamped (libm_sin : float -> float) (hz freq : pyval)
    (duration_ms : Z) :
  clamp hz = OK freq ->
  generate_tone libm_sin hz duration_ms =
  to_audio_segment libm_sin freq Config.SAMPLE_RATE duration_ms
    db_to_float_DEFAULT_VOLUME.
Proof.
  intros H. unfold generate_tone. rewrite try_except_reraise, H. reflexivity.
Qed.

Lemma tone_for_infinity : tone_for SinRef.sin (PyFloat infinity) = OK tone_22000.
Proof.
  unfold tone_for. rewrite thz_to_hz_float. cbn [is_nan bind].
  apply generate_tone_ok with (freq := PyInt 22000).
  - vm_compute. reflexivity.
  - vm_compute. reflexivity.
  - exact items_ok_22000.
Qed.

Lemma tone_for_neg_infinity :
  tone_for SinRef.sin (PyFloat neg_infinity) = OK tone_18000.
Proof.
  unfold tone_for. rewrite thz_to_hz_float. cbn [is_nan bind].
  apply generate_tone_ok with (freq := PyInt 18000).
  - vm_compute. reflexivity.
  - vm_compute. reflexivity.
  - exact items_ok_18000.
Qed.

(** Every way in which the mapper raises. *)
Lemma thz_to_hz_raises (thz : pyval) (e : exn) :
  thz_to_hz thz = Raise e ->
  (e = ValueError
   /\ (isinstance_int_float thz = false \/ is_nan_value thz = true))
  \/ (e = TypeError /\ in_numpy_range thz = false).
Proof.
  destruct thz as [f | z | b | s | ].
  - rewrite thz_to_hz_float. cbn [is_nan_value].
    destruct (is_nan f); intros H; [ | discriminate H].
    injection H as <-. left. split; [reflexivity | right; reflexivity].
  - destruct (in_numpy_range (PyInt z)) eqn:Hr.
    + pose proof Hr as Hr'. cbn [in_numpy_range] in Hr'.
      apply andb_true_iff in Hr'. destruct Hr' as [H1 H2].
      apply Z.leb_le in H1. apply Z.ltb_lt in H2.
      rewrite thz_to_hz_int by lia. intros H. discriminate H.
    + rewrite (thz_to_hz_int_out_of_range z Hr). intros H. injection H as <-.
      right. split; reflexivity.
  - destruct b; intros H; discriminate H.
  - intros H. injection H as <-. left. split; [reflexivity | left; reflexivity].
  - intros H. injection H as <-. left. split; [reflexivity | left; reflexivity].
Qed.

Lemma thz_to_hz_accepts (thz : pyval) :
  isinstance_int_float thz = true -> is_nan_value thz = false ->
  in_numpy_range thz = true ->
  thz_to_hz thz = OK (PyFloat (as_double thz * 1e12)).
Proof.
  intros Hnum Hnan Hr. destruct thz as [f | z | b | s | ].
  - rewrite thz_to_hz_float. cbn [is_nan_value] in Hnan. rewrite Hnan. reflexivity.
  - cbn [in_numpy_range] in Hr. apply andb_true_iff in Hr. destruct Hr as [H1 H2].
    apply Z.leb_le in H1. apply Z.ltb_lt in H2.
    rewrite thz_to_hz_int by lia. reflexivity.
  - destruct b; reflexivity.
  - discriminate Hnum.
  - discriminate Hnum.
Qed.

(** C10, as the code has it: an infinite double passes the mapper, which
    answers with the same infinity; the synthesizer clamps it to the edge
    of the band, 22000 for the positive and 18000 for the negative one, and
    generates the tone of that frequency (on the reference sine the two
    tones of 30 s, which differ at sample 149).  The mapper's [ValueError]
    is kept for a NaN and for a value that is neither int nor float; it
    refuses, with the [TypeError] of [np.isnan], the ints outside the
    64-bit range as well, and accepts every other number. *)
Theorem infinities_pass_the_mapper_and_get_the_tone_of_the_bound :
  thz_to_hz (PyFloat infinity) = OK (PyFloat infinity)
  /\ thz_to_hz (PyFloat neg_infinity) = OK (PyFloat neg_infinity)
  /\ clamp (PyFloat infinity) = OK (PyInt Config.MAX_FREQUENCY_HZ)
  /\ clamp (PyFloat neg_infinity) = OK (PyInt Config.MIN_FREQUENCY_HZ)
  /\ (forall libm_sin duration_ms,
        generate_tone libm_sin (PyFloat infinity) duration_ms =
        to_audio_segment libm_sin (PyInt 22000) Config.SAMPLE_RATE duration_ms
          db_to_float_DEFAULT_VOLUME
        /\ generate_tone libm_sin (PyFloat neg_infinity) duration_ms =
           to_audio_segment libm_sin (PyInt 18000) Config.SAMPLE_RATE duration_ms
             db_to_float_DEFAULT_VOLUME)
  /\ tone_for SinRef.sin (PyFloat infinity) = OK tone_22000
  /\ tone_for SinRef.sin (PyFloat neg_infinity) = OK tone_18000
  /\ sample_at 149 tone_22000 = 9046%Z
  /\ sample_at 149 tone_18000 = (-9474)%Z
  /\ (forall thz,
        thz_to_hz thz = Raise ValueError <->
        isinstance_int_float thz = false \/ is_nan_value thz = true)
  /\ (forall thz e,
        thz_to_hz thz = Raise e ->
        (e = ValueError
         /\ (isinstance_int_float thz = false \/ is_nan_value thz = true))
        \/ (e = TypeError /\ in_numpy_range thz = false))
  /\ (forall thz,
        isinstance_int_float thz = true -> is_nan_value thz = false ->
        in_numpy_range thz = true ->
        thz_to_hz thz = OK (PyFloat (as_double thz * 1e12))).
Proof.
  assert (Hhi : clamp (PyFloat infinity) = OK (PyInt 22000))
    by (vm_compute; reflexivity).
  assert (Hlo : clamp (PyFloat neg_infinity) = OK (PyInt 18000))
    by (vm_compute; reflexivity).
  split; [rewrite thz_to_hz_float; reflexivity | ].
  split; [rewrite thz_to_hz_float; reflexivity | ].
  split; [exact Hhi | ].
  split; [exact Hlo | ].
  split.
  { intros libm_sin duration_ms.
    split; apply generate_tone_clamped; assumption. }
  split; [exact tone_for_infinity | ].
  split; [exact tone_for_neg_infinity | ].
  split; [exact tone_22000_at_149 | ].
  split; [exact tone_18000_at_149 | ].
  split; [exact thz_to_hz_ValueError_iff | ].
  split; [exact thz_to_hz_raises | exact thz_to_hz_accepts].
Qed.

(** C10, the claim as stated fails: 2^64, the first int numpy cannot hold
    in a 64-bit scalar, is a number and no NaN, and the mapper refuses
    it. *)
Lemma int_of_65_bits_is_refused_with_TypeError :
  isinstance_int_float (PyInt (2 ^ 64)) = true
  /\ is_nan_value (PyInt (2 ^ 64)) = false
  /\ in_numpy_range (PyInt (2 ^ 64 - 1)) = true
  /\ thz_to_hz (PyInt (2 ^ 64)) = Raise TypeError.
Proof. repeat split; vm_compute; reflexivity. Qed.

(** ** The statistics [main] prints *)




